(** * Stars: sensor fusion and alignment guidance

    A shallow embedding of the orientation pipeline of the Stars pointer
    application: the [SensorManager] class of [src/sensor.js], the
    [SensorManager] class and the pointer screen logic of [src/main.js]
    ([startTracking], [updatePointerUI], the sensor callback with its
    debug log).
    It also covers the later revision of the main.js filter, the
    status of a body in astronomy.js, and the muhurta screen: the time
    windows of [computeMuhurta], the calendar export of ics.js and ui.js,
    and the alarm links.

    Numbers.  JavaScript numbers are IEEE-754 doubles.  Every statement
    below is about the idealised program in which a finite double is an
    exact rational ([Q]) and [+ - * %] are exact; rounding, [NaN] and the
    infinities are outside the model.  Equality of numbers is [Qeq]
    ([==]); record fields that a function does not touch are compared
    with Leibniz equality. *)

From Stdlib Require Import QArith Qabs Qround Lqa Lia ZArith String List.
From Stdlib Require Import Ascii DecimalString DecimalPos DecimalN.
From stdpp Require Import gmap strings.

Open Scope Q_scope.

(* ===================================================================== *)
(** ** JavaScript number primitives *)
(* ===================================================================== *)

Module JsNum.

(** Truncation toward zero, as used by the remainder operator. *)
Definition Qtrunc (x : Q) : Z := Z.quot (Qnum x) (Zpos (Qden x)).

(** [x % m] on finite numbers with [m <> 0]: the result has the sign of the
    dividend, [x - m * trunc (x / m)]. *)
Definition js_mod (x m : Q) : Q := x - inject_Z (Qtrunc (x / m)) * m.

(** [ToNumber]: [null] is coerced to [+0] by the arithmetic operators. *)
Definition ToNumber (v : option Q) : Q :=
  match v with
  | Some q => q
  | None => 0
  end.

(** Truthiness of an optional number ([undefined] and [0] are falsy). *)
Definition truthy (v : option Q) : bool :=
  match v with
  | Some q => negb (Qeq_bool q 0)
  | None => false
  end.

(** [x < y] as a boolean. *)
Definition Qltb (x y : Q) : bool := negb (Qle_bool y x).

(** Decimal digits of a natural number. *)
Definition digits (n : Z) : string :=
  NilZero.string_of_uint (N.to_uint (Z.to_N n)).

(** [x.toFixed(1)]: the integer [n] nearest to [10 * |x|] (the larger one
    on a tie), printed with one fraction digit; a negative [x] gets a
    minus sign.  (Magnitudes of 1e21 and more print differently and are
    outside the model.) *)
Definition toFixed1 (x : Q) : string :=
  let s := if Qltb x 0 then "-"%string else ""%string in
  let n := Qfloor (Qabs x * 10 + (1 # 2)) in
  (s ++ digits (n / 10) ++ "." ++ digits (n mod 10))%string.

End JsNum.

Import JsNum.

(* ===================================================================== *)
(** ** The shortest-path loop

    The same two loops are written out three times in the source
    ([smoothAngle] in sensor.js, [handleOrientation] and [updatePointerUI]
    in main.js):
<<
    while (diff < -180) diff += 360;
    while (diff > 180) diff -= 360;
>>
*)
(* ===================================================================== *)

Module Angle.

(** Big-step meaning of each loop. *)
Inductive while_add : Q -> Q -> Prop :=
| while_add_exit d : ~ d < -180 -> while_add d d
| while_add_step d r : d < -180 -> while_add (d + 360) r -> while_add d r.

Inductive while_sub : Q -> Q -> Prop :=
| while_sub_exit d : ~ 180 < d -> while_sub d d
| while_sub_step d r : 180 < d -> while_sub (d - 360) r -> while_sub d r.

(** Executable loops, bounded by an iteration budget. *)
Fixpoint loop_add (fuel : nat) (diff : Q) : Q :=
  match fuel with
  | O => diff
  | S k => if Qlt_le_dec diff (-180) then loop_add k (diff + 360) else diff
  end.

Fixpoint loop_sub (fuel : nat) (diff : Q) : Q :=
  match fuel with
  | O => diff
  | S k => if Qlt_le_dec 180 diff then loop_sub k (diff - 360) else diff
  end.

(** A budget that always suffices: [ceil (|d| / 360)] iterations. *)
Definition iterations (d : Q) : nat := Z.to_nat (Qceiling (Qabs d / 360)).

Definition wrap180 (diff : Q) : Q :=
  let diff := loop_add (iterations diff) diff in
  loop_sub (iterations diff) diff.

(** Circular distance between two headings: the magnitude of the
    shortest signed path computed by the loop. *)
Definition circ_dist (a b : Q) : Q := Qabs (wrap180 (b - a)).

End Angle.

Import Angle.

(* ===================================================================== *)
(** ** Device orientation events and persistent storage *)
(* ===================================================================== *)

(** A [DeviceOrientationEvent].  The three angles are nullable
    ([None] is [null]); [webkitCompassHeading] is [undefined] ([None])
    when the platform has no such field. *)
Module Event.

Record t := mk {
  alpha : option Q;
  beta : option Q;
  gamma : option Q;
  absolute : bool;
  type : string;
  webkitCompassHeading : option Q
}.

End Event.

(** [localStorage]: string keys; a stored value is represented by the
    number [parseFloat] reads back from it. *)
Abbreviation Storage := (gmap string Q).

Definition getItemOr0 (ls : Storage) (key : string) : Q :=
  match ls !! key with
  | Some v => v
  | None => 0
  end.

(** The object handed to the [onUpdate] callback. *)
Record Update := mkUpdate {
  upd_heading : Q;
  upd_pitch : Q;
  upd_raw : option Q * option Q * option Q
}.

(* ===================================================================== *)
(** ** sensor.js: class SensorManager *)
(* ===================================================================== *)

Module Sensor.

Record SensorManager := mk {
  heading : Q;
  pitch : Q;
  calibrationOffset : Q;
  pitchOffset : Q;
  alpha : Q;
  beta : Q;
  gamma : Q;
  smoothing : Q
}.

Definition constructor (localStorage : Storage) : SensorManager :=
  {| heading := 0;
     pitch := 0;
     calibrationOffset := getItemOr0 localStorage "stars_north_offset";
     pitchOffset := getItemOr0 localStorage "stars_pitch_offset";
     alpha := 0;
     beta := 0;
     gamma := 0;
     smoothing := 85 # 100 |}.

(** [smoothAngle(current, target)] *)
Definition smoothAngle (this : SensorManager) (current target : Q) : Q :=
  let diff := wrap180 (target - current) in
  js_mod (current + diff * (1 - smoothing this) + 360) 360.

(** The heading part of [handleOrientation], before smoothing. *)
Definition rawHeading (event : Event.t) (alpha : Q) : Q :=
  let rawHeading :=
    if truthy (Event.webkitCompassHeading event)
    then ToNumber (Event.webkitCompassHeading event)
    else 360 - alpha in
  js_mod (rawHeading + 360) 360.

Definition calibratedHeading (rawHeading offset : Q) : Q :=
  js_mod (rawHeading + offset + 360) 360.

(** [let rawPitch = beta - 90;] *)
Definition rawPitch (beta : Q) : Q := beta - 90.

(** [handleOrientation(event)]: the new object state and the argument of
    the [onUpdate] call, if one is made. *)
Definition handleOrientation (this : SensorManager) (event : Event.t)
  : SensorManager * option Update :=
  match Event.alpha event, Event.beta event, Event.gamma event with
  | Some alpha, Some beta, Some gamma =>
      let calibratedHeading :=
        calibratedHeading (rawHeading event alpha) (calibrationOffset this) in
      let rawPitch := rawPitch beta in
      let rawPitch := rawPitch + pitchOffset this in
      let heading' := smoothAngle this (heading this) calibratedHeading in
      let pitch' :=
        pitch this * smoothing this + rawPitch * (1 - smoothing this) in
      ({| heading := heading';
          pitch := pitch';
          calibrationOffset := calibrationOffset this;
          pitchOffset := pitchOffset this;
          alpha := alpha;
          beta := beta;
          gamma := gamma;
          smoothing := smoothing this |},
       Some (mkUpdate heading' pitch' (Some alpha, Some beta, Some gamma)))
  | _, _, _ => (this, None)
  end.

Definition currentRaw (this : SensorManager) : Q :=
  js_mod (heading this - calibrationOffset this + 360) 360.

(** [setCalibration()]: new object, new storage, returned offset. *)
Definition setCalibration (this : SensorManager) (localStorage : Storage)
  : SensorManager * Storage * Q :=
  let currentRaw := currentRaw this in
  let this' :=
    {| heading := heading this;
       pitch := pitch this;
       calibrationOffset := - currentRaw;
       pitchOffset := pitchOffset this;
       alpha := alpha this;
       beta := beta this;
       gamma := gamma this;
       smoothing := smoothing this |} in
  (this',
   <["stars_north_offset" := calibrationOffset this']> localStorage,
   calibrationOffset this').

(** [setPitchCalibration()] *)
Definition setPitchCalibration (this : SensorManager) (localStorage : Storage)
  : SensorManager * Storage * Q :=
  let this' :=
    {| heading := heading this;
       pitch := pitch this;
       calibrationOffset := calibrationOffset this;
       pitchOffset := pitchOffset this - pitch this;
       alpha := alpha this;
       beta := beta this;
       gamma := gamma this;
       smoothing := smoothing this |} in
  (this',
   <["stars_pitch_offset" := pitchOffset this']> localStorage,
   pitchOffset this').

(** The object after a stream of events, each handled to completion
    before the next. *)
Definition run (events : list Event.t) (this : SensorManager) : SensorManager :=
  fold_left (fun s e => fst (handleOrientation s e)) events this.

(** The heading after [n] calls of [smoothAngle] toward a fixed target. *)
Fixpoint smooth_n (this : SensorManager) (n : nat) (current target : Q) : Q :=
  match n with
  | O => current
  | S k => smoothAngle this (smooth_n this k current target) target
  end.

End Sensor.

(* ===================================================================== *)
(** ** astronomy.js: the pieces the pointer screen uses *)
(* ===================================================================== *)

(** One entry of [getCelestialPositions]; the positions themselves come
    from the ephemeris library. *)
Record Body := mkBody {
  name : string;
  alt : Q;
  az : Q;
  status : string
}.

(** [formatDeg(deg)] *)
Definition formatDeg (deg : Q) : string := (toFixed1 deg ++ "°")%string.

(* ===================================================================== *)
(** ** main.js *)
(* ===================================================================== *)

Module Main.

(** *** class SensorManager (main.js keeps its own copy) *)

Record SensorManager := mkSensorManager {
  heading : Q;
  pitch : Q;
  calibrationOffset : Q;
  alpha : Q
}.

Definition constructor (localStorage : Storage) : SensorManager :=
  {| heading := 0;
     pitch := 0;
     calibrationOffset := getItemOr0 localStorage "stars_north_offset";
     alpha := 15 # 100 |}.

(** [let pitch = 90 - beta;] *)
Definition rawPitch (beta : Q) : Q := 90 - beta.

(** [handleOrientation(event)].  There is no null test: a [null] angle
    goes through the arithmetic as [0]. *)
Definition handleOrientation (this : SensorManager) (event : Event.t)
  : SensorManager * Update :=
  let alpha_ := Event.alpha event in
  let beta_ := Event.beta event in
  let gamma_ := Event.gamma event in
  let heading_ :=
    if truthy (Event.webkitCompassHeading event)
    then ToNumber (Event.webkitCompassHeading event)
    else if Event.absolute event
            || String.eqb (Event.type event) "deviceorientationabsolute"
    then 360 - ToNumber alpha_
    else 360 - ToNumber alpha_ in
  let heading_ := js_mod (heading_ + 360) 360 in
  let heading_ := js_mod (heading_ + calibrationOffset this + 360) 360 in
  let pitch_ := rawPitch (ToNumber beta_) in
  let diff := wrap180 (heading_ - heading this) in
  let heading' := js_mod (heading this + diff * alpha this + 360) 360 in
  let pitch' := pitch this + (pitch_ - pitch this) * alpha this in
  ({| heading := heading';
      pitch := pitch';
      calibrationOffset := calibrationOffset this;
      alpha := alpha this |},
   mkUpdate heading' pitch' (alpha_, beta_, gamma_)).

(** [calibrateCurrentAsNorth()] *)
Definition calibrateCurrentAsNorth (this : SensorManager) (localStorage : Storage)
  : SensorManager * Storage :=
  let raw := js_mod (heading this - calibrationOffset this + 360) 360 in
  let this' :=
    {| heading := heading this;
       pitch := pitch this;
       calibrationOffset := - raw;
       alpha := alpha this |} in
  (this', <["stars_north_offset" := calibrationOffset this']> localStorage).

(** The object after a stream of events. *)
Definition run (events : list Event.t) (this : SensorManager) : SensorManager :=
  fold_left (fun s e => fst (handleOrientation s e)) events this.

(** *** Application state and the pointer screen *)

Record AppState := mkAppState {
  lat : option Q;
  lon : option Q;
  targetBody : option Body;
  currentHeading : Q;
  currentPitch : Q;
  isLocked : bool
}.

(** Keys of the [screens] table. *)
Inductive Screen := Screen_start | Screen_list | Screen_pointer.

Definition Screen_eqb (a b : Screen) : bool :=
  match a, b with
  | Screen_start, Screen_start
  | Screen_list, Screen_list
  | Screen_pointer, Screen_pointer => true
  | _, _ => false
  end.

(** The part of the document the pointer logic and the sensor callback
    read and write. *)
Record Dom := mkDom {
  hidden : Screen -> bool;          (* screens[s].classList.contains('hidden') *)
  target_name : string;
  target_coords : string;
  turn_msg : string;
  tilt_msg : string;
  arrow_hidden : bool;
  arrow_rotation : option Q;        (* degrees of the rotate(..) transform *)
  lock_hidden : bool;
  status_message : string;
  status_message_hidden : bool;
  debug_overlay_hidden : bool;
  debug_log : string
}.

Record World := mkWorld {
  appState : AppState;
  dom : Dom;
  navigator_vibrate : bool          (* whether navigator.vibrate exists *)
}.

(** Requests sent to the device by one call. *)
Inductive Effect := Vibrate (ms : nat).

Definition initialAppState : AppState :=
  {| lat := None; lon := None; targetBody := None;
     currentHeading := 0; currentPitch := 0; isLocked := false |}.

(** [showScreen(name)] *)
Definition showScreen (name : Screen) (d : Dom) : Dom :=
  {| hidden := fun s => negb (Screen_eqb s name);
     target_name := target_name d;
     target_coords := target_coords d;
     turn_msg := turn_msg d;
     tilt_msg := tilt_msg d;
     arrow_hidden := arrow_hidden d;
     arrow_rotation := arrow_rotation d;
     lock_hidden := lock_hidden d;
     status_message := status_message d;
     status_message_hidden := status_message_hidden d;
     debug_overlay_hidden := debug_overlay_hidden d;
     debug_log := debug_log d |}.

(** The two differences computed at the top of [updatePointerUI]. *)
Definition azDiff (target : Body) (s : AppState) : Q :=
  wrap180 (az target - currentHeading s).

Definition altDiff (target : Body) (s : AppState) : Q :=
  alt target - currentPitch s.

(** [const isAligned = Math.abs(azDiff) < 6 && Math.abs(altDiff) < 6;] *)
Definition isAligned (target : Body) (s : AppState) : bool :=
  Qltb (Qabs (azDiff target s)) 6 && Qltb (Qabs (altDiff target s)) 6.

Definition turnText (azDiff : Q) : string :=
  if Qltb (Qabs azDiff) 2 then "Face: OK"
  else if Qltb 0 azDiff
       then ("Turn RIGHT " ++ formatDeg azDiff)%string
       else ("Turn LEFT " ++ formatDeg (Qabs azDiff))%string.

Definition tiltText (altDiff : Q) : string :=
  if Qltb (Qabs altDiff) 2 then "Tilt: OK"
  else if Qltb 0 altDiff
       then ("Tilt UP " ++ formatDeg altDiff)%string
       else ("Tilt DOWN " ++ formatDeg (Qabs altDiff))%string.

Definition setLocked (b : bool) (s : AppState) : AppState :=
  {| lat := lat s; lon := lon s; targetBody := targetBody s;
     currentHeading := currentHeading s; currentPitch := currentPitch s;
     isLocked := b |}.

Definition setTarget (t : option Body) (s : AppState) : AppState :=
  {| lat := lat s; lon := lon s; targetBody := t;
     currentHeading := currentHeading s; currentPitch := currentPitch s;
     isLocked := isLocked s |}.

Definition setOrientation (h p : Q) (s : AppState) : AppState :=
  {| lat := lat s; lon := lon s; targetBody := targetBody s;
     currentHeading := h; currentPitch := p;
     isLocked := isLocked s |}.

(** The below-horizon warning at the end of [updatePointerUI]. *)
Definition warn (target : Body) (d : Dom) : Dom :=
  {| hidden := hidden d;
     target_name := target_name d;
     target_coords := target_coords d;
     turn_msg := turn_msg d;
     tilt_msg := tilt_msg d;
     arrow_hidden := arrow_hidden d;
     arrow_rotation := arrow_rotation d;
     lock_hidden := lock_hidden d;
     status_message :=
       if Qltb (alt target) 0 then "Target is Below Horizon!"
       else status_message d;
     status_message_hidden := negb (Qltb (alt target) 0);
     debug_overlay_hidden := debug_overlay_hidden d;
     debug_log := debug_log d |}.

(** The request made in the "just locked" branch, if the device can
    vibrate. *)
Definition pulse (w : World) : list Effect :=
  if navigator_vibrate w then [Vibrate 100] else [].

(** [updatePointerUI()] *)
Definition updatePointerUI (w : World) : World * list Effect :=
  match targetBody (appState w) with
  | None => (w, [])
  | Some target =>
      if hidden (dom w) Screen_pointer then (w, []) else
      let s := appState w in
      let d := dom w in
      let azDiff := azDiff target s in
      let altDiff := altDiff target s in
      let coords :=
        ("Alt: " ++ formatDeg (alt target) ++ " Az: " ++ formatDeg (az target))%string in
      if isAligned target s then
        let '(s', fx) :=
          if negb (isLocked s)
          then (setLocked true s, pulse w)
          else (s, []) in
        let d' :=
          {| hidden := hidden d;
             target_name := target_name d;
             target_coords := coords;
             turn_msg := "ALIGNED";
             tilt_msg := "ALIGNED";
             arrow_hidden := true;
             arrow_rotation := arrow_rotation d;
             lock_hidden := false;
             status_message := status_message d;
             status_message_hidden := status_message_hidden d;
             debug_overlay_hidden := debug_overlay_hidden d;
             debug_log := debug_log d |} in
        ({| appState := s'; dom := warn target d';
            navigator_vibrate := navigator_vibrate w |}, fx)
      else
        let d' :=
          {| hidden := hidden d;
             target_name := target_name d;
             target_coords := coords;
             turn_msg := turnText azDiff;
             tilt_msg := tiltText altDiff;
             arrow_hidden := false;
             arrow_rotation := Some azDiff;
             lock_hidden := true;
             status_message := status_message d;
             status_message_hidden := status_message_hidden d;
             debug_overlay_hidden := debug_overlay_hidden d;
             debug_log := debug_log d |} in
        ({| appState := setLocked false s; dom := warn target d';
            navigator_vibrate := navigator_vibrate w |}, [])
  end.

(** [startTracking(body)] *)
Definition startTracking (body : Body) (w : World) : World * list Effect :=
  let s := setTarget (Some body) (appState w) in
  let d := showScreen Screen_pointer (dom w) in
  let d :=
    {| hidden := hidden d;
       target_name := name body;
       target_coords := target_coords d;
       turn_msg := turn_msg d;
       tilt_msg := tilt_msg d;
       arrow_hidden := arrow_hidden d;
       arrow_rotation := arrow_rotation d;
       lock_hidden := lock_hidden d;
       status_message := status_message d;
       status_message_hidden := status_message_hidden d;
       debug_overlay_hidden := debug_overlay_hidden d;
       debug_log := debug_log d |} in
  updatePointerUI
    {| appState := s; dom := d; navigator_vibrate := navigator_vibrate w |}.

(** The click handler of [back-btn]. *)
Definition back (w : World) : World :=
  {| appState := setTarget None (appState w);
     dom := showScreen Screen_list (dom w);
     navigator_vibrate := navigator_vibrate w |}.

(** [x?.toFixed(1)] inside a template literal: a missing angle prints as
    [undefined]. *)
Definition optFixed1 (v : option Q) : string :=
  match v with
  | Some x => toFixed1 x
  | None => "undefined"
  end.

(** The line feed of the template literal. *)
Definition LF : string := String (ascii_of_nat 10) EmptyString.

(** The text written to [#debug-log]. *)
Definition debugText (data : Update) : string :=
  let '(alpha, beta, gamma) := upd_raw data in
  ("H: " ++ toFixed1 (upd_heading data) ++ " P: " ++ toFixed1 (upd_pitch data) ++ LF
   ++ "Raw A:" ++ optFixed1 alpha ++ " B:" ++ optFixed1 beta
   ++ " G:" ++ optFixed1 gamma)%string.

(** The debug branch of the callback: while the overlay is shown, the log
    line is rewritten. *)
Definition debug (data : Update) (w : World) : World :=
  let d := dom w in
  {| appState := appState w;
     dom :=
       {| hidden := hidden d;
          target_name := target_name d;
          target_coords := target_coords d;
          turn_msg := turn_msg d;
          tilt_msg := tilt_msg d;
          arrow_hidden := arrow_hidden d;
          arrow_rotation := arrow_rotation d;
          lock_hidden := lock_hidden d;
          status_message := status_message d;
          status_message_hidden := status_message_hidden d;
          debug_overlay_hidden := debug_overlay_hidden d;
          debug_log :=
            if negb (debug_overlay_hidden d) then debugText data
            else debug_log d |};
     navigator_vibrate := navigator_vibrate w |}.

(** The callback given to [new SensorManager(...)]: store the smoothed
    orientation, refresh the pointer screen, then write the debug log. *)
Definition onUpdate (data : Update) (w : World) : World * list Effect :=
  let r :=
    updatePointerUI
      {| appState := setOrientation (upd_heading data) (upd_pitch data) (appState w);
         dom := dom w;
         navigator_vibrate := navigator_vibrate w |} in
  (debug data (fst r), snd r).

(** The click handler of [debug-toggle]. *)
Definition debugToggle (w : World) : World :=
  let d := dom w in
  {| appState := appState w;
     dom :=
       {| hidden := hidden d;
          target_name := target_name d;
          target_coords := target_coords d;
          turn_msg := turn_msg d;
          tilt_msg := tilt_msg d;
          arrow_hidden := arrow_hidden d;
          arrow_rotation := arrow_rotation d;
          lock_hidden := lock_hidden d;
          status_message := status_message d;
          status_message_hidden := status_message_hidden d;
          debug_overlay_hidden := negb (debug_overlay_hidden d);
          debug_log := debug_log d |};
     navigator_vibrate := navigator_vibrate w |}.

(** The lock flag rose between two worlds. *)
Definition justLocked (before after : World) : bool :=
  isLocked (appState after) && negb (isLocked (appState before)).

(** A document in which nothing has been shown yet. *)
Definition blankDom : Dom :=
  {| hidden := fun _ => true;
     target_name := ""; target_coords := "";
     turn_msg := ""; tilt_msg := "";
     arrow_hidden := false; arrow_rotation := None; lock_hidden := true;
     status_message := ""; status_message_hidden := true;
     debug_overlay_hidden := true; debug_log := "" |}.

Definition initialWorld (vibrate : bool) : World :=
  {| appState := initialAppState; dom := blankDom; navigator_vibrate := vibrate |}.

End Main.

(* ===================================================================== *)
(** ** main.js, later revision: class SensorManager with a pitch offset

    The revision of main.js that imports the muhurta screen keeps a
    [pitchOffset], computes the pitch as [beta - 90] and adds
    [calibrateCurrentAsHorizon]. *)
(* ===================================================================== *)

Module MainRev.

Record SensorManager := mkSensorManager {
  heading : Q;
  pitch : Q;
  calibrationOffset : Q;
  pitchOffset : Q;
  alpha : Q
}.

Definition constructor (localStorage : Storage) : SensorManager :=
  {| heading := 0;
     pitch := 0;
     calibrationOffset := getItemOr0 localStorage "stars_north_offset";
     pitchOffset := getItemOr0 localStorage "stars_pitch_offset";
     alpha := 15 # 100 |}.

(** [handleOrientation(event)] *)
Definition handleOrientation (this : SensorManager) (event : Event.t)
  : SensorManager * Update :=
  let alpha_ := Event.alpha event in
  let beta_ := Event.beta event in
  let gamma_ := Event.gamma event in
  let heading_ :=
    if truthy (Event.webkitCompassHeading event)
    then ToNumber (Event.webkitCompassHeading event)
    else if Event.absolute event
            || String.eqb (Event.type event) "deviceorientationabsolute"
    then 360 - ToNumber alpha_
    else 360 - ToNumber alpha_ in
  let heading_ := js_mod (heading_ + 360) 360 in
  let heading_ := js_mod (heading_ + calibrationOffset this + 360) 360 in
  let pitch_ := ToNumber beta_ - 90 in
  let pitch_ := pitch_ + pitchOffset this in
  let diff := wrap180 (heading_ - heading this) in
  let heading' := js_mod (heading this + diff * alpha this + 360) 360 in
  let pitch' := pitch this + (pitch_ - pitch this) * alpha this in
  ({| heading := heading';
      pitch := pitch';
      calibrationOffset := calibrationOffset this;
      pitchOffset := pitchOffset this;
      alpha := alpha this |},
   mkUpdate heading' pitch' (alpha_, beta_, gamma_)).

(** The object after a stream of events. *)
Definition run (events : list Event.t) (this : SensorManager) : SensorManager :=
  fold_left (fun s e => fst (handleOrientation s e)) events this.

(** [calibrateCurrentAsNorth()] *)
Definition calibrateCurrentAsNorth (this : SensorManager) (localStorage : Storage)
  : SensorManager * Storage :=
  let raw := js_mod (heading this - calibrationOffset this + 360) 360 in
  let this' :=
    {| heading := heading this;
       pitch := pitch this;
       calibrationOffset := - raw;
       pitchOffset := pitchOffset this;
       alpha := alpha this |} in
  (this', <["stars_north_offset" := calibrationOffset this']> localStorage).

(** [calibrateCurrentAsHorizon()] *)
Definition calibrateCurrentAsHorizon (this : SensorManager) (localStorage : Storage)
  : SensorManager * Storage :=
  let rawPitch := pitch this - pitchOffset this in
  let this' :=
    {| heading := heading this;
       pitch := pitch this;
       calibrationOffset := calibrationOffset this;
       pitchOffset := - rawPitch;
       alpha := alpha this |} in
  (this', <["stars_pitch_offset" := pitchOffset this']> localStorage).

End MainRev.

(* ===================================================================== *)
(** ** astronomy.js: the roster and the status of a body *)
(* ===================================================================== *)

Module Astronomy.

(** [getStatus(alt)] *)
Definition getStatus (alt : Q) : string :=
  if Qltb alt 0 then "BELOW HORIZON"
  else if Qltb alt 5 then "ABOVE HORIZON"
  else "GOOD".

(** The names of [BODIES], in order. *)
Definition BODIES : list string :=
  ["Sun"; "Moon"; "Mercury"; "Venus"; "Mars"; "Jupiter"; "Saturn"]%string.

(** [getCelestialPositions(lat, lon, date)].  The horizontal coordinates
    come from the ephemeris library: [horizon name] is the pair
    (altitude, azimuth) it returns for that body, observer and date. *)
Definition getCelestialPositions (horizon : string -> Q * Q) : list Body :=
  map (fun body =>
         let h := horizon body in
         {| name := body; alt := fst h; az := snd h;
            status := getStatus (fst h) |})
      BODIES.

End Astronomy.

(** The class given to the status badge in [updateObjectList] (main.js). *)
Definition statusClass (status : string) : string :=
  let statusClass := "status-above"%string in
  let statusClass :=
    if String.eqb status "BELOW HORIZON" then "status-below"%string else statusClass in
  if String.eqb status "GOOD" then "status-good"%string else statusClass.

(* ===================================================================== *)
(** ** Text primitives used by the muhurta screen *)
(* ===================================================================== *)

Module JsText.

(** [String(n)] for an integer [n]. *)
Definition numberToString (n : Z) : string :=
  if (n <? 0)%Z then ("-" ++ digits (- n))%string else digits n.

(** [s.padStart(2, '0')] *)
Definition padStart2 (s : string) : string :=
  (string_of_list_ascii (repeat "0"%char (2 - String.length s)) ++ s)%string.

(** [x.toFixed(2)], as [toFixed1] with two fraction digits. *)
Definition toFixed2 (x : Q) : string :=
  let s := if Qltb x 0 then "-"%string else ""%string in
  let n := Qfloor (Qabs x * 100 + (1 # 2)) in
  (s ++ digits (n / 100) ++ "." ++ padStart2 (digits (n mod 100)))%string.

(** [lines.join(sep)] *)
Fixpoint join (sep : string) (lines : list string) : string :=
  match lines with
  | [] => ""
  | [l] => l
  | l :: rest => (l ++ sep ++ join sep rest)%string
  end.

Definition CRLF : string :=
  String (Ascii.ascii_of_nat 13) (String (Ascii.ascii_of_nat 10) EmptyString).

(** The characters [encodeURIComponent] leaves alone:
    [A-Z a-z 0-9 - _ . ! ~ * ' ( )]. *)
Definition unreserved (c : ascii) : bool :=
  let n := Ascii.N_of_ascii c in
  ((65 <=? n) && (n <=? 90) || (97 <=? n) && (n <=? 122)
   || (48 <=? n) && (n <=? 57))%N
  || existsb (Ascii.eqb c)
       ["-"; "_"; "."; "!"; "~"; "*"; "'"; "("; ")"]%char.

Definition hexDigit (n : N) : ascii :=
  if (n <? 10)%N then Ascii.ascii_of_N (48 + n) else Ascii.ascii_of_N (55 + n).

(** [encodeURIComponent(s)], on the UTF-8 bytes of a well-formed string:
    every other byte becomes [%XX] in upper-case hexadecimal. *)
Fixpoint encodeURIComponent (s : string) : string :=
  match s with
  | EmptyString => EmptyString
  | String c rest =>
      if unreserved c then String c (encodeURIComponent rest)
      else
        let n := Ascii.N_of_ascii c in
        String "%" (String (hexDigit (n / 16)) (String (hexDigit (n mod 16))
          (encodeURIComponent rest)))
  end.

(** ASCII lower case, for the [/.../i] tests (a byte above 127 never
    matches an ASCII letter). *)
Definition lower (c : ascii) : ascii :=
  let n := Ascii.N_of_ascii c in
  if ((65 <=? n) && (n <=? 90))%N then Ascii.ascii_of_N (n + 32) else c.

Fixpoint prefix_ci (pat s : string) : bool :=
  match pat, s with
  | EmptyString, _ => true
  | String p pat', String c s' => Ascii.eqb (lower p) (lower c) && prefix_ci pat' s'
  | String _ _, EmptyString => false
  end.

(** [/pat/i.test(s)] for a literal pattern. *)
Fixpoint test_ci (pat s : string) : bool :=
  prefix_ci pat s ||
  match s with
  | EmptyString => false
  | String _ s' => test_ci pat s'
  end.

End JsText.

(* ===================================================================== *)
(** ** The muhurta feature: suncalc.js, ics.js, alarmLinks.js, ui.js

    A [Date] is its time value, the milliseconds since the epoch.  What
    the platform supplies is a parameter: the local calendar fields of a
    time value, calendar-day addition, the clock, the random source, the
    time zone name, and the sunrise and sunset computed with floating
    point trigonometry in [getSunriseSunset]. *)
(* ===================================================================== *)

Module Muhurta.

(** The results of the local-time getters of a [Date]. *)
Record LocalTime := mkLocalTime {
  getFullYear : Z;
  getMonth : Z;
  getDate : Z;
  getHours : Z;
  getMinutes : Z;
  getSeconds : Z
}.

Record SunTimes := mkSunTimes {
  st_sunrise : Z;
  st_sunset : Z;
  st_solarNoon : Z
}.

Record Range := mkRange { start : Z; end_ : Z }.

Record Timings := mkTimings {
  sunrise : Z;
  sunset : Z;
  brahma : Range;
  pratahSandhya : Range;
  sayamSandhya : Range;
  timezone : string
}.

(** An element of the array given to [buildIcsEvents]. *)
Record IcsEvent := mkIcsEvent {
  ev_title : string;
  ev_start : Z;
  ev_end : Z;
  ev_description : string;
  ev_reminderMinutes : Z
}.

Section Platform.

Variable localTime : Z -> LocalTime.
Variable addDays : Z -> Z -> Z.
Variable clock : nat -> Z.
Variable dateNow : nat -> Z.
Variable random36 : nat -> string.
Variable timeZone : string.
Variable getSunriseSunset : Z -> Q -> Q -> option SunTimes.

(** suncalc.js: [computeMuhurta(date, lat, lon)]; [inl] is the object
    with the [error] field. *)
Definition computeMuhurta (date : Z) (lat lon : Q) : string + Timings :=
  match getSunriseSunset date lat lon with
  | None => inl "No sunrise/sunset at this location today."%string
  | Some times =>
      let sunrise := st_sunrise times in
      let sunset := st_sunset times in
      let brahmaStart := (sunrise - 96 * 60000)%Z in
      let brahmaEnd := (sunrise - 48 * 60000)%Z in
      let pratahStart := (sunrise - 24 * 60000)%Z in
      let pratahEnd := (sunrise + 24 * 60000)%Z in
      let sayamStart := (sunset - 24 * 60000)%Z in
      let sayamEnd := (sunset + 24 * 60000)%Z in
      inr {| sunrise := sunrise;
             sunset := sunset;
             brahma := mkRange brahmaStart brahmaEnd;
             pratahSandhya := mkRange pratahStart pratahEnd;
             sayamSandhya := mkRange sayamStart sayamEnd;
             timezone := timeZone |}
  end.

(** ics.js: [formatDate(date)] *)
Definition pad (n : Z) : string := JsText.padStart2 (JsText.numberToString n).

Definition formatDate (date : Z) : string :=
  let t := localTime date in
  let Y := JsText.numberToString (getFullYear t) in
  let M := pad (getMonth t + 1) in
  let D := pad (getDate t) in
  let h := pad (getHours t) in
  let m := pad (getMinutes t) in
  let s := pad (getSeconds t) in
  (Y ++ M ++ D ++ "T" ++ h ++ m ++ s)%string.

(** The lines pushed for the event handled in iteration [i] of the
    [forEach]. *)
Definition eventLines (i : nat) (ev : IcsEvent) : list string :=
  let dtStamp := (formatDate (clock i) ++ "Z")%string in
  let dtStart := formatDate (ev_start ev) in
  let dtEnd := formatDate (ev_end ev) in
  let uid :=
    (JsText.numberToString (dateNow i) ++ "-" ++ random36 i ++ "@starsapp")%string in
  ["BEGIN:VEVENT";
   "UID:" ++ uid;
   "DTSTAMP:" ++ dtStamp;
   "DTSTART:" ++ dtStart;
   "DTEND:" ++ dtEnd;
   "SUMMARY:" ++ ev_title ev]%string
  ++ (if String.eqb (ev_description ev) "" then []
      else ["DESCRIPTION:" ++ ev_description ev]%string)
  ++ (if (0 <? ev_reminderMinutes ev)%Z
      then ["BEGIN:VALARM";
            "ACTION:DISPLAY";
            "DESCRIPTION:Reminder";
            "TRIGGER:-PT" ++ JsText.numberToString (ev_reminderMinutes ev) ++ "M";
            "END:VALARM"]%string
      else [])
  ++ ["END:VEVENT"%string].

Fixpoint eventsLines (i : nat) (events : list IcsEvent) : list string :=
  match events with
  | [] => []
  | ev :: rest => eventLines i ev ++ eventsLines (S i) rest
  end.

(** The [content] array of [buildIcsEvents] before it is joined. *)
Definition icsContent (events : list IcsEvent) : list string :=
  ["BEGIN:VCALENDAR";
   "VERSION:2.0";
   "PRODID:-//Stars App//Muhurta//EN";
   "CALSCALE:GREGORIAN"]%string
  ++ eventsLines 0 events
  ++ ["END:VCALENDAR"%string].

(** [buildIcsEvents(events)] *)
Definition buildIcsEvents (events : list IcsEvent) : string :=
  JsText.join JsText.CRLF (icsContent events).

(** ui.js: the start and end chosen for a card title in
    [generateCalendarFile]; [None] when no branch assigns them. *)
Definition pickTimes (title : string) (timings : Timings) : option (Z * Z) :=
  if String.eqb title "Sunrise"
  then Some (sunrise timings, (sunrise timings + 10 * 60000)%Z)
  else if String.eqb title "Sunset"
  then Some (sunset timings, (sunset timings + 10 * 60000)%Z)
  else if String.eqb title "Brahma Muhurta"
  then Some (start (brahma timings), end_ (brahma timings))
  else if String.eqb title "Pratah Sandhya"
  then Some (start (pratahSandhya timings), end_ (pratahSandhya timings))
  else if String.eqb title "Sayam Sandhya"
  then Some (start (sayamSandhya timings), end_ (sayamSandhya timings))
  else None.

(** The body of the [for] loop of [generateCalendarFile] for day [i]:
    the event it pushes, if any. *)
Definition dayEvent (currentDate : Z) (lat lon : Q) (title : string)
    (reminder : Z) (i : Z) : option IcsEvent :=
  let d := addDays currentDate i in
  match computeMuhurta d lat lon with
  | inl _ => None
  | inr timings =>
      match pickTimes title timings with
      | Some (sTime, eTime) =>
          Some {| ev_title := (title ++ " - Stars App")%string;
                  ev_start := sTime;
                  ev_end := eTime;
                  ev_reminderMinutes := reminder;
                  ev_description :=
                    ("Calculated for Lat: " ++ JsText.toFixed2 lat
                     ++ ", Lon: " ++ JsText.toFixed2 lon)%string |}
      | None => None
      end
  end.

(** The [events] array built by [generateCalendarFile]. *)
Definition calendarEvents (currentDate : Z) (lat lon : Q) (title : string)
    (days reminder : Z) : list IcsEvent :=
  omap (fun i => dayEvent currentDate lat lon title reminder (Z.of_nat i))
       (seq 0 (Z.to_nat days)).

(** The text [generateCalendarFile] hands to [downloadIcs]. *)
Definition generateCalendarFile (currentDate : Z) (lat lon : Q) (title : string)
    (days reminder : Z) : string :=
  buildIcsEvents (calendarEvents currentDate lat lon title days reminder).

End Platform.

(** alarmLinks.js *)
Definition isAndroid (userAgent : string) : bool :=
  JsText.test_ci "Android" userAgent.

Definition getPlatformInfo (userAgent : string) : string :=
  if isAndroid userAgent then "Android"
  else if JsText.test_ci "iPhone" userAgent
          || JsText.test_ci "iPad" userAgent
          || JsText.test_ci "iPod" userAgent
  then "iOS"
  else "Desktop/Other".

(** [openAndroidAlarm(hour, minute, title = "Muhurta")]: the returned
    flag and the address of the link that is clicked, if one is made. *)
Definition openAndroidAlarm (userAgent : string) (hour minute : Z)
    (title : option string) : bool * option string :=
  let title := match title with Some t => t | None => "Muhurta"%string end in
  if negb (isAndroid userAgent) then (false, None)
  else
    let intentUri :=
      ("intent:#Intent;action=android.intent.action.SET_ALARM;i.hour="
       ++ JsText.numberToString hour ++ ";i.minutes="
       ++ JsText.numberToString minute ++ ";S.message="
       ++ JsText.encodeURIComponent title ++ ";end")%string in
    (true, Some intentUri).

End Muhurta.

(* ===================================================================== *)
(** ** muhurta/alarm.js: the intent addresses *)
(* ===================================================================== *)

Module Alarm.

(** [setAndroidAlarm(hour, minute, message)]: the address assigned to
    [window.location.href]. *)
Definition setAndroidAlarm (hour minute : Z) (message : string) : string :=
  ("intent:#Intent;action=android.intent.action.SET_ALARM;i.android.intent.extra.alarm.HOUR="
   ++ JsText.numberToString hour
   ++ ";i.android.intent.extra.alarm.MINUTES=" ++ JsText.numberToString minute
   ++ ";S.android.intent.extra.alarm.MESSAGE=" ++ JsText.encodeURIComponent message
   ++ ";B.android.intent.extra.alarm.SKIP_UI=false;end")%string.

(** [setAndroidTimer(seconds, message)] *)
Definition setAndroidTimer (seconds : Z) (message : string) : string :=
  ("intent:#Intent;action=android.intent.action.SET_TIMER;i.android.intent.extra.alarm.LENGTH="
   ++ JsText.numberToString seconds
   ++ ";S.android.intent.extra.alarm.MESSAGE=" ++ JsText.encodeURIComponent message
   ++ ";B.android.intent.extra.alarm.SKIP_UI=false;end")%string.

(** [openCalendarEvent(title, description, startTime, endTime)] *)
Definition openCalendarEvent (title description : string) (startTime endTime : Z)
  : string :=
  let start := startTime in
  let end_ := endTime in
  ("intent:#Intent;action=android.intent.action.INSERT;data=content://com.android.calendar/events;l.beginTime="
   ++ JsText.numberToString start ++ ";l.endTime=" ++ JsText.numberToString end_
   ++ ";S.title=" ++ JsText.encodeURIComponent title
   ++ ";S.description=" ++ JsText.encodeURIComponent description ++ ";end")%string.

End Alarm.

(* ===================================================================== *)
(** ** muhurta/ui.js: class MuhurtaScreen

    The list is modelled by what it contains: the cards with their
    texts and the values their two buttons are bound to. *)
(* ===================================================================== *)

Module MuhurtaScreen.

Record t := mk {
  currentDate : Z;
  lat : option Q;
  lon : option Q
}.

(** A card appended by [renderCard] or [renderRangeCard]. *)
Record Card := mkCard {
  card_title : string;
  card_icon : string;
  card_text : string;            (* the muhurta-time line *)
  card_start : Z;                (* bound to the alarm button *)
  card_end : option Z;           (* bound, with the start, to the calendar button *)
  card_notAndroid : bool         (* class 'not-android' on the alarm button *)
}.

(** The content of the list container after [render()]. *)
Inductive View :=
| Waiting                                      (* "Waiting for location..." *)
| ErrorBox (message : string)
| Listing (diagnostics : string) (cards : list Card)
| TypeError.                                   (* [null.toFixed] *)

Section Platform.

Variable formatTime : Z -> string.             (* [toLocaleTimeString] *)
Variable localTime : Z -> Muhurta.LocalTime.
Variable addDays : Z -> Z -> Z.
Variable clock : nat -> Z.
Variable dateNow : nat -> Z.
Variable random36 : nat -> string.
Variable timeZone : string.
Variable getSunriseSunset : Z -> Q -> Q -> option Muhurta.SunTimes.
Variable userAgent : string.

(** [renderCard(title, icon, time, endTime)] *)
Definition renderCard (title icon : string) (time : Z) (endTime : option Z) : Card :=
  {| card_title := title;
     card_icon := icon;
     card_text := formatTime time;
     card_start := time;
     card_end := endTime;
     card_notAndroid :=
       negb (String.eqb (Muhurta.getPlatformInfo userAgent) "Android") |}.

(** [renderRangeCard(title, icon, start, end)] *)
Definition renderRangeCard (title icon : string) (start end_ : Z) : Card :=
  {| card_title := title;
     card_icon := icon;
     card_text := (formatTime start ++ " – " ++ formatTime end_)%string;
     card_start := start;
     card_end := Some end_;
     card_notAndroid :=
       negb (String.eqb (Muhurta.getPlatformInfo userAgent) "Android") |}.

(** [render()] *)
Definition render (this : t) : View :=
  match lat this with
  | None => Waiting
  | Some la =>
      match Muhurta.computeMuhurta timeZone getSunriseSunset
              (currentDate this) la (ToNumber (lon this)) with
      | inl message => ErrorBox message
      | inr timings =>
          match lon this with
          | None => TypeError
          | Some lo =>
              Listing
                ("<small>Lat: " ++ JsText.toFixed2 la ++ ", Lon: " ++ JsText.toFixed2 lo
                 ++ " | " ++ Muhurta.timezone timings ++ " | "
                 ++ Muhurta.getPlatformInfo userAgent ++ "</small>")%string
                [renderCard "Sunrise" "🌅" (Muhurta.sunrise timings) None;
                 renderCard "Sunset" "🌇" (Muhurta.sunset timings) None;
                 renderRangeCard "Brahma Muhurta" "🧘"
                   (Muhurta.start (Muhurta.brahma timings))
                   (Muhurta.end_ (Muhurta.brahma timings));
                 renderRangeCard "Pratah Sandhya" "🙏"
                   (Muhurta.start (Muhurta.pratahSandhya timings))
                   (Muhurta.end_ (Muhurta.pratahSandhya timings));
                 renderRangeCard "Sayam Sandhya" "🕯️"
                   (Muhurta.start (Muhurta.sayamSandhya timings))
                   (Muhurta.end_ (Muhurta.sayamSandhya timings))]
          end
      end
  end.

(** The click handler of a card's alarm button: what [openAndroidAlarm]
    returns, and whether the alert is shown. *)
Definition alarmClick (card : Card) : (bool * option string) * bool :=
  let r := Muhurta.openAndroidAlarm userAgent
             (Muhurta.getHours (localTime (card_start card)))
             (Muhurta.getMinutes (localTime (card_start card)))
             (Some (card_title card)) in
  (r, negb (fst r)).

(** The events exported by a card's calendar button once the modal is
    confirmed with [days] and [reminder]. *)
Definition calendarClick (this : t) (la lo : Q) (card : Card) (days reminder : Z)
  : list Muhurta.IcsEvent :=
  Muhurta.calendarEvents addDays timeZone getSunriseSunset
    (currentDate this) la lo (card_title card) days reminder.

End Platform.

End MuhurtaScreen.

(* ===================================================================== *)
(** ** Vocabulary of the further statements *)
(* ===================================================================== *)

(** An event none of whose angles is [null]. *)
Definition complete (e : Event.t) : Prop :=
  Event.alpha e <> None /\ Event.beta e <> None /\ Event.gamma e <> None.

(** A sensor.js manager and a manager of the later main.js revision
    that hold the same numbers, the responsiveness [alpha] of the one
    being [1 - smoothing] of the other. *)
Definition same_state (s : Sensor.SensorManager) (m : MainRev.SensorManager) : Prop :=
  MainRev.heading m == Sensor.heading s /\
  MainRev.pitch m == Sensor.pitch s /\
  MainRev.calibrationOffset m == Sensor.calibrationOffset s /\
  MainRev.pitchOffset m == Sensor.pitchOffset s /\
  MainRev.alpha m == 1 - Sensor.smoothing s.

(** Local calendar fields in their usual ranges, with a four-digit year. *)
Definition plausible (t : Muhurta.LocalTime) : Prop :=
  (1000 <= Muhurta.getFullYear t <= 9999)%Z /\
  (0 <= Muhurta.getMonth t <= 11)%Z /\
  (1 <= Muhurta.getDate t <= 31)%Z /\
  (0 <= Muhurta.getHours t <= 23)%Z /\
  (0 <= Muhurta.getMinutes t <= 59)%Z /\
  (0 <= Muhurta.getSeconds t <= 59)%Z.

(** Forty-eight minutes and ten minutes, in milliseconds. *)
Definition ms_48min : Z := 48 * 60000.
Definition ms_10min : Z := 10 * 60000.

(** Twenty-four minutes, in milliseconds. *)
Definition ms_24min : Z := 24 * 60000.

(** How many elements of [lines] are exactly the line [l]. *)
Definition occurrences (l : string) (lines : list string) : nat :=
  length (List.filter (String.eqb l) lines).

(** [s] begins with [p]. *)
Fixpoint starts_with (p s : string) : bool :=
  match p, s with
  | EmptyString, _ => true
  | String a p', String b s' => Ascii.eqb a b && starts_with p' s'
  | String _ _, EmptyString => false
  end.

(** The events that ask for a reminder. *)
Definition withReminder (events : list Muhurta.IcsEvent) : list Muhurta.IcsEvent :=
  List.filter (fun ev => (0 <? Muhurta.ev_reminderMinutes ev)%Z) events.

(** How many times the character [c] occurs in [s]. *)
Fixpoint count_char (c : ascii) (s : string) : nat :=
  match s with
  | EmptyString => 0
  | String x rest => (if Ascii.eqb c x then 1 else 0) + count_char c rest
  end.

(** The five card titles of the muhurta screen. *)
Definition cardTitles : list string :=
  ["Sunrise"; "Sunset"; "Brahma Muhurta"; "Pratah Sandhya"; "Sayam Sandhya"]%string.

(** The calendar without events, as [buildIcsEvents] writes it. *)
Definition emptyCalendar : string :=
  JsText.join JsText.CRLF
    ["BEGIN:VCALENDAR"; "VERSION:2.0"; "PRODID:-//Stars App//Muhurta//EN";
     "CALSCALE:GREGORIAN"; "END:VCALENDAR"]%string.

(** The three characters that structure an intent address. *)
Definition is_separator (c : ascii) : Prop :=
  c = ";"%char \/ c = "#"%char \/ c = "="%char.


(** A sensor.js manager without pitch offset and a manager of the
    first main.js that hold the same heading and opposite pitches. *)
Definition mirror_state (s : Sensor.SensorManager) (m : Main.SensorManager) : Prop :=
  Main.heading m == Sensor.heading s /\
  Main.pitch m == - Sensor.pitch s /\
  Main.calibrationOffset m == Sensor.calibrationOffset s /\
  Sensor.pitchOffset s == 0 /\
  Main.alpha m == 1 - Sensor.smoothing s.

(** The document [d] with the text of [#debug-log] replaced. *)
Definition with_debug_log (text : string) (d : Main.Dom) : Main.Dom :=
  {| Main.hidden := Main.hidden d;
     Main.target_name := Main.target_name d;
     Main.target_coords := Main.target_coords d;
     Main.turn_msg := Main.turn_msg d;
     Main.tilt_msg := Main.tilt_msg d;
     Main.arrow_hidden := Main.arrow_hidden d;
     Main.arrow_rotation := Main.arrow_rotation d;
     Main.lock_hidden := Main.lock_hidden d;
     Main.status_message := Main.status_message d;
     Main.status_message_hidden := Main.status_message_hidden d;
     Main.debug_overlay_hidden := Main.debug_overlay_hidden d;
     Main.debug_log := text |}.

(* ===================================================================== *)
(** ** Vocabulary of the statements *)
(* ===================================================================== *)

(** The bodies and the sensor readings used in the scenarios. *)
Definition Jupiter : Body := mkBody "Jupiter" 40 120 "GOOD".
Definition Saturn : Body := mkBody "Saturn" 41 121 "GOOD".

Definition reading (heading pitch : Q) : Update :=
  mkUpdate heading pitch (None, None, None).

(** [s] to the power [n]. *)
Fixpoint Qpow (s : Q) (n : nat) : Q :=
  match n with
  | O => 1
  | S k => s * Qpow s k
  end.

(** The world after a list of sensor updates, with what each one sent. *)
Fixpoint feed (ds : list Update) (w : Main.World) : Main.World * list (list Main.Effect) :=
  match ds with
  | [] => (w, [])
  | d :: ds =>
      let '(w', fx) := Main.onUpdate d w in
      let '(w'', fxs) := feed ds w' in
      (w'', fx :: fxs)
  end.

(** The offset-adjusted raw pitch of [e] is a valid altitude, if [e] is a
    sample the null test of sensor.js accepts; nothing is asked of a
    sample it rejects. *)
Definition sensor_pitch_in_range (pitchOffset : Q) (e : Event.t) : Prop :=
  match Event.alpha e, Event.beta e, Event.gamma e with
  | Some _, Some b, Some _ => -90 <= Sensor.rawPitch b + pitchOffset <= 90
  | _, _, _ => True
  end.

(* ===================================================================== *)
(** ** Properties *)
(* ===================================================================== *)

(* --------------------------------------------------------------------- *)
(** *** Facts about the remainder *)
(* --------------------------------------------------------------------- *)

Lemma Qtrunc_nonneg_floor (x : Q) : 0 <= x -> Qtrunc x = Qfloor x.
Proof.
  destruct x as [n d]. unfold Qle, Qtrunc, Qfloor. simpl. intros H.
  apply Z.quot_div_nonneg; lia.
Qed.

Lemma js_mod_congr (x m : Q) :
  js_mod x m == x - inject_Z (Qtrunc (x / m)) * m.
Proof. reflexivity. Qed.

Lemma js_mod_range (x m : Q) :
  0 <= x -> 0 < m -> 0 <= js_mod x m /\ js_mod x m < m.
Proof.
  intros Hx Hm. unfold js_mod.
  assert (Hq : 0 <= x / m).
  { apply Qle_shift_div_l; [exact Hm | lra]. }
  rewrite (Qtrunc_nonneg_floor _ Hq).
  pose proof (Qfloor_le (x / m)) as Hlo.
  pose proof (Qlt_floor (x / m)) as Hhi.
  rewrite inject_Z_plus in Hhi.
  assert (Hxm : x == (x / m) * m) by (field; lra).
  set (f := inject_Z (Qfloor (x / m))) in *.
  set (q := x / m) in *.
  change (inject_Z 1) with 1 in Hhi.
  split; nra.
Qed.

(* --------------------------------------------------------------------- *)
(** *** Facts about the loops *)
(* --------------------------------------------------------------------- *)

Lemma iterations_bound (d : Q) :
  Qabs d <= 360 * inject_Z (Z.of_nat (iterations d)).
Proof.
  unfold iterations.
  assert (H0 : 0 <= Qabs d / 360).
  { apply Qle_shift_div_l; [lra | pose proof (Qabs_nonneg d); lra]. }
  pose proof (Qle_ceiling (Qabs d / 360)) as Hc.
  assert (Hz : (0 <= Qceiling (Qabs d / 360))%Z).
  { rewrite Zle_Qle. apply Qle_trans with (Qabs d / 360); [exact H0 | exact Hc]. }
  rewrite Z2Nat.id by exact Hz.
  assert (Hd : Qabs d == (Qabs d / 360) * 360) by (field; lra).
  lra.
Qed.

Lemma inject_nat_succ (n : nat) :
  inject_Z (Z.of_nat (S n)) == inject_Z (Z.of_nat n) + 1.
Proof. rewrite Nat2Z.inj_succ, <- Z.add_1_r, inject_Z_plus. reflexivity. Qed.

(** With a sufficient budget the executable loop is the [while] loop. *)
Lemma loop_add_runs (n : nat) : forall d,
  -180 <= d + 360 * inject_Z (Z.of_nat n) -> while_add d (loop_add n d).
Proof.
  induction n as [|n IH]; intros d Hn.
  - change (inject_Z (Z.of_nat 0)) with 0 in Hn. cbn [loop_add].
    apply while_add_exit. lra.
  - cbn [loop_add]. destruct (Qlt_le_dec d (-180)) as [Hlt|Hge].
    + apply while_add_step; [exact Hlt|]. apply IH.
      rewrite inject_nat_succ in Hn. lra.
    + apply while_add_exit. lra.
Qed.

Lemma loop_sub_runs (n : nat) : forall d,
  d - 360 * inject_Z (Z.of_nat n) <= 180 -> while_sub d (loop_sub n d).
Proof.
  induction n as [|n IH]; intros d Hn.
  - change (inject_Z (Z.of_nat 0)) with 0 in Hn. cbn [loop_sub].
    apply while_sub_exit. lra.
  - cbn [loop_sub]. destruct (Qlt_le_dec 180 d) as [Hlt|Hge].
    + apply while_sub_step; [exact Hlt|]. apply IH.
      rewrite inject_nat_succ in Hn. lra.
    + apply while_sub_exit. lra.
Qed.

Lemma iterations_add (d : Q) : while_add d (loop_add (iterations d) d).
Proof.
  apply loop_add_runs. pose proof (iterations_bound d) as Hb.
  pose proof (Qle_Qabs (- d)) as Ha. rewrite Qabs_opp in Ha. lra.
Qed.

Lemma iterations_sub (d : Q) : while_sub d (loop_sub (iterations d) d).
Proof.
  apply loop_sub_runs. pose proof (iterations_bound d) as Hb.
  pose proof (Qle_Qabs d) as Ha. lra.
Qed.

(** What the first loop leaves behind: the input itself when no
    iteration ran, otherwise a value of [[-180,180)] reached by adding
    whole turns. *)
Lemma while_add_post (d r : Q) :
  while_add d r ->
  (-180 <= d /\ r = d) \/
  (d < -180 /\ -180 <= r /\ r < 180 /\ exists k : Z, r == d + 360 * inject_Z k).
Proof.
  induction 1 as [d Hd | d r Hd Hw IH].
  - left. split; [lra | reflexivity].
  - right. split; [exact Hd|]. destruct IH as [[Hge ->] | (Hlt & Hlo & Hhi & k & Hk)].
    + split; [exact Hge|]. split; [lra|]. exists 1%Z.
      change (inject_Z 1) with 1. lra.
    + split; [exact Hlo|]. split; [exact Hhi|]. exists (k + 1)%Z.
      rewrite inject_Z_plus. change (inject_Z 1) with 1. lra.
Qed.

Lemma while_sub_post (d r : Q) :
  while_sub d r ->
  (d <= 180 /\ r = d) \/
  (180 < d /\ -180 < r /\ r <= 180 /\ exists k : Z, r == d + 360 * inject_Z k).
Proof.
  induction 1 as [d Hd | d r Hd Hw IH].
  - left. split; [lra | reflexivity].
  - right. split; [exact Hd|]. destruct IH as [[Hge ->] | (Hlt & Hlo & Hhi & k & Hk)].
    + split; [lra|]. split; [exact Hge|]. exists (-1)%Z.
      change (inject_Z (-1)) with (-1). lra.
    + split; [exact Hlo|]. split; [exact Hhi|]. exists (k + (-1))%Z.
      rewrite inject_Z_plus. change (inject_Z (-1)) with (-1). lra.
Qed.

(** The two loops in sequence. *)
Lemma wrap180_runs (d : Q) :
  exists a, while_add d a /\ while_sub a (wrap180 d).
Proof.
  exists (loop_add (iterations d) d). split.
  - apply iterations_add.
  - unfold wrap180. apply iterations_sub.
Qed.

Lemma while_add_det (d r1 r2 : Q) : while_add d r1 -> while_add d r2 -> r1 = r2.
Proof.
  intros H1. revert r2. induction H1 as [d Hd | d r Hd Hw IH]; intros r2 H2.
  - inversion H2; subst; [reflexivity | contradiction].
  - inversion H2; subst; [contradiction | apply IH; assumption].
Qed.

Lemma while_sub_det (d r1 r2 : Q) : while_sub d r1 -> while_sub d r2 -> r1 = r2.
Proof.
  intros H1. revert r2. induction H1 as [d Hd | d r Hd Hw IH]; intros r2 H2.
  - inversion H2; subst; [reflexivity | contradiction].
  - inversion H2; subst; [contradiction | apply IH; assumption].
Qed.

(** [wrap180] is the value the two [while] loops end with. *)
Lemma wrap180_sound (d a r : Q) : while_add d a -> while_sub a r -> r = wrap180 d.
Proof.
  intros Ha Hr. destruct (wrap180_runs d) as (a' & Ha' & Hr').
  rewrite (while_add_det _ _ _ Ha Ha') in Hr.
  exact (while_sub_det _ _ _ Hr Hr').
Qed.

Lemma wrap180_cases (d : Q) :
  (-180 <= d /\ d <= 180 /\ wrap180 d = d) \/
  (d < -180 /\ -180 <= wrap180 d /\ wrap180 d < 180) \/
  (180 < d /\ -180 < wrap180 d /\ wrap180 d <= 180).
Proof.
  destruct (wrap180_runs d) as (a & Ha & Hr).
  apply while_add_post in Ha. apply while_sub_post in Hr.
  destruct Ha as [[Hd ->] | (Hd & Hlo & Hhi & _)].
  - destruct Hr as [[Hd' Hr] | (Hd' & Hlo & Hhi & _)].
    + left. auto.
    + right. right. auto.
  - destruct Hr as [[_ ->] | (Hd' & _)]; [|lra].
    right. left. auto.
Qed.

Lemma wrap180_turns (d : Q) : exists k : Z, wrap180 d == d + 360 * inject_Z k.
Proof.
  destruct (wrap180_runs d) as (a & Ha & Hr).
  apply while_add_post in Ha. apply while_sub_post in Hr.
  assert (Hka : exists k : Z, a == d + 360 * inject_Z k).
  { destruct Ha as [[_ ->] | (_ & _ & _ & k & Hk)].
    - exists 0%Z. change (inject_Z 0) with 0. lra.
    - exists k. exact Hk. }
  destruct Hka as [ka Hka].
  destruct Hr as [[_ ->] | (_ & _ & _ & k & Hk)].
  - exists ka. exact Hka.
  - exists (k + ka)%Z. rewrite inject_Z_plus. lra.
Qed.

Lemma wrap180_closed_range (d : Q) : -180 <= wrap180 d /\ wrap180 d <= 180.
Proof.
  destruct (wrap180_cases d) as [(H1 & H2 & ->) | [(H1 & H2 & H3) | (H1 & H2 & H3)]];
    split; lra.
Qed.

(** Two rationals that differ by a whole number of turns and by less
    than one turn are equal. *)
Lemma turns_unique (a b : Q) (k : Z) :
  a == b + 360 * inject_Z k -> -360 < a - b -> a - b < 360 -> a == b.
Proof.
  intros Hk Hlo Hhi.
  assert (H1 : inject_Z (-1) < inject_Z k) by (change (inject_Z (-1)) with (-1); lra).
  assert (H2 : inject_Z k < inject_Z 1) by (change (inject_Z 1) with 1; lra).
  rewrite <- Zlt_Qlt in H1, H2.
  assert (k = 0%Z) by lia. subst k. change (inject_Z 0) with 0 in Hk. lra.
Qed.

(** The loop picks the representative of its input in [(-180,180)]
    whenever there is one. *)
Lemma wrap180_congr (y z : Q) (k : Z) :
  y == z + 360 * inject_Z k -> -180 < z -> z < 180 -> wrap180 y == z.
Proof.
  intros Hy Hlo Hhi.
  destruct (wrap180_turns y) as [m Hm].
  destruct (wrap180_closed_range y) as [Hwl Hwh].
  apply (turns_unique _ _ (m + k)%Z); [|lra|lra].
  rewrite inject_Z_plus. lra.
Qed.

Lemma wrap180_cases_eq (d : Q) :
  (-180 <= d /\ d <= 180 /\ wrap180 d == d) \/
  (d < -180 /\ -180 <= wrap180 d /\ wrap180 d < 180) \/
  (180 < d /\ -180 < wrap180 d /\ wrap180 d <= 180).
Proof.
  destruct (wrap180_cases d) as [(H1 & H2 & H3) | [H | H]].
  - left. rewrite H3. split; [exact H1 | split; [exact H2 | reflexivity]].
  - right. left. exact H.
  - right. right. exact H.
Qed.

Lemma wrap180_id (d : Q) : -180 <= d -> d <= 180 -> wrap180 d = d.
Proof.
  intros Hlo Hhi.
  destruct (wrap180_cases d) as [(_ & _ & H) | [(H & _) | (H & _)]];
    [exact H | lra | lra].
Qed.

(* --------------------------------------------------------------------- *)
(** *** Range and period of the shortest-path loop *)
(* --------------------------------------------------------------------- *)

Lemma wrap180_period_strict (x : Q) :
  ~ x == -180 ->
  -360 < wrap180 x - wrap180 (x + 360) /\ wrap180 x - wrap180 (x + 360) < 360.
Proof.
  intros Hne.
  destruct (wrap180_cases_eq x) as [(A1 & A2 & A3) | [(A1 & A2 & A3) | (A1 & A2 & A3)]];
  destruct (wrap180_cases_eq (x + 360))
    as [(B1 & B2 & B3) | [(B1 & B2 & B3) | (B1 & B2 & B3)]];
  split; lra.
Qed.

(** C1 (as amended).  For headings [h1], [h2] in [[0,360)] the loop maps
    [h2 - h1] into the closed interval [[-180,180]], and into
    [(-180,180]] unless [h2 - h1] is exactly [-180]; and
    [wrap180 x == wrap180 (x + 360)] for every [x] other than [-180]. *)
Theorem wrap180_range_period (h1 h2 x : Q) :
  0 <= h1 < 360 -> 0 <= h2 < 360 -> ~ x == -180 ->
  (-180 <= wrap180 (h2 - h1) <= 180) /\
  (~ h2 - h1 == -180 -> -180 < wrap180 (h2 - h1)) /\
  wrap180 x == wrap180 (x + 360).
Proof.
  intros [H1a H1b] [H2a H2b] Hx. split; [|split].
  - apply wrap180_closed_range.
  - intros Hne.
    destruct (wrap180_cases_eq (h2 - h1))
      as [(A1 & A2 & A3) | [(A1 & A2 & A3) | (A1 & A2 & A3)]].
    + rewrite A3. apply Qnot_le_lt. intros Hle. apply Hne. lra.
    + assert (E : wrap180 (h2 - h1) == h2 - h1 + 360).
      { apply (wrap180_congr _ _ (-1)%Z); [|lra|lra].
        change (inject_Z (-1)) with (-1). lra. }
      rewrite E. lra.
    + exact A2.
  - destruct (wrap180_turns x) as [k1 K1].
    destruct (wrap180_turns (x + 360)) as [k2 K2].
    destruct (wrap180_period_strict x Hx) as [Hlo Hhi].
    apply (turns_unique _ _ (k1 + (-1) + - k2)%Z); [|exact Hlo|exact Hhi].
    rewrite !inject_Z_plus, inject_Z_opp. change (inject_Z (-1)) with (-1). lra.
Qed.

Lemma wrap180_range_period_witness :
  (-180 <= wrap180 (10 - 350) <= 180) /\
  (~ 10 - 350 == -180 -> -180 < wrap180 (10 - 350)) /\
  wrap180 200 == wrap180 (200 + 360).
Proof.
  apply (wrap180_range_period 350 10 200).
  - split; [discriminate | reflexivity].
  - split; [discriminate | reflexivity].
  - discriminate.
Defined.

(** C1 (as stated) fails at [h1 = 180], [h2 = 0]: the loop returns
    [-180], which is outside [(-180,180]], and [-180] and [-180 + 360]
    are mapped to different values. *)
Lemma wrap180_open_interval_counterexample :
  (0 <= 180 < 360) /\ (0 <= 0 < 360) /\
  wrap180 (0 - 180) == -180 /\
  ~ (-180 < wrap180 (0 - 180)) /\
  ~ (wrap180 (-180) == wrap180 (-180 + 360)).
Proof.
  split; [split; [discriminate | reflexivity]|].
  split; [split; [discriminate | reflexivity]|].
  split; [vm_compute; reflexivity|].
  split; vm_compute; intros H; discriminate H.
Qed.

(* --------------------------------------------------------------------- *)
(** *** Pitch convention *)
(* --------------------------------------------------------------------- *)

(** In sensor.js the pitch fed to the filter is [beta - 90] (plus the
    pitch offset): upright is 0, it grows with [beta], reaches [+90] at
    [beta = 180] and [-90] at [beta = 0]. *)
Lemma sensor_pitch_convention (this : Sensor.SensorManager) (e : Event.t) (a b g : Q) :
  Event.alpha e = Some a -> Event.beta e = Some b -> Event.gamma e = Some g ->
  Sensor.rawPitch b == b - 90 /\
  Sensor.rawPitch 90 == 0 /\ Sensor.rawPitch 180 == 90 /\ Sensor.rawPitch 0 == -90 /\
  (forall b1 b2, b1 < b2 -> Sensor.rawPitch b1 < Sensor.rawPitch b2) /\
  Sensor.pitch (fst (Sensor.handleOrientation this e)) ==
    Sensor.pitch this * Sensor.smoothing this
    + (Sensor.rawPitch b + Sensor.pitchOffset this) * (1 - Sensor.smoothing this).
Proof.
  intros Ha Hb Hg. unfold Sensor.handleOrientation. rewrite Ha, Hb, Hg.
  unfold Sensor.rawPitch. cbn [fst Sensor.pitch].
  repeat split; try reflexivity.
  intros b1 b2 H. lra.
Qed.

(** C2.  main.js computes the pitch as [90 - beta]: at [beta = 45] the raw
    pitch is [+45] where [beta - 90] is [-45], and on a fresh manager the
    sample moves the smoothed pitch up to [6.75] instead of down to
    [-6.75]; a larger [beta] gives a smaller pitch. *)
Theorem main_pitch_is_90_minus_beta :
  Main.rawPitch 45 == 45 /\
  ~ Main.rawPitch 45 == 45 - 90 /\
  Main.pitch (fst (Main.handleOrientation (Main.constructor ∅)
    (Event.mk (Some 0) (Some 45) (Some 0) true "deviceorientationabsolute" None)))
    == 675 # 100 /\
  (forall b1 b2, b1 < b2 -> Main.rawPitch b2 < Main.rawPitch b1).
Proof.
  split; [reflexivity|]. split; [discriminate|]. split; [vm_compute; reflexivity|].
  intros b1 b2 H. unfold Main.rawPitch. lra.
Qed.

(* --------------------------------------------------------------------- *)
(** *** Null angles *)
(* --------------------------------------------------------------------- *)

(** sensor.js returns before touching the object when an angle is [null]. *)
Lemma sensor_null_rejected (this : Sensor.SensorManager) (e : Event.t) :
  Event.alpha e = None \/ Event.beta e = None \/ Event.gamma e = None ->
  Sensor.handleOrientation this e = (this, None).
Proof.
  unfold Sensor.handleOrientation.
  intros [H | [H | H]]; rewrite H;
    destruct (Event.alpha e), (Event.beta e); reflexivity.
Qed.

(** C3.  main.js has no such test.  An event whose three angles are
    [null], delivered to a fresh manager, is smoothed like the sample
    [alpha = 0], [beta = 0]: the stored pitch moves from [0] to [13.5]
    and [onUpdate] is called with it. *)
Theorem main_null_sample_accepted :
  let this := Main.constructor ∅ in
  let e := Event.mk None None None false "deviceorientation" None in
  Main.pitch this == 0 /\
  Main.pitch (fst (Main.handleOrientation this e)) == 135 # 10 /\
  upd_pitch (snd (Main.handleOrientation this e)) == 135 # 10 /\
  fst (Main.handleOrientation this e) <> this.
Proof.
  split; [reflexivity|]. split; [vm_compute; reflexivity|].
  split; [vm_compute; reflexivity|].
  intros H. apply (f_equal Main.pitch) in H. vm_compute in H. discriminate H.
Qed.

(* --------------------------------------------------------------------- *)
(** *** Ranges of the smoothed state *)
(* --------------------------------------------------------------------- *)

Lemma step_toward_range (current diff w : Q) :
  0 <= current -> -180 <= diff <= 180 -> 0 <= w <= 1 ->
  0 <= js_mod (current + diff * w + 360) 360 < 360.
Proof.
  intros Hc [Hd1 Hd2] [Hw1 Hw2].
  apply js_mod_range; [nra | reflexivity].
Qed.

Lemma lowpass_range (p r s lo hi : Q) :
  lo <= p <= hi -> lo <= r <= hi -> 0 <= s <= 1 ->
  lo <= p * s + r * (1 - s) <= hi.
Proof. intros [? ?] [? ?] [? ?]. split; nra. Qed.

Lemma smoothAngle_range (this : Sensor.SensorManager) (current target : Q) :
  0 <= Sensor.smoothing this <= 1 -> 0 <= current ->
  0 <= Sensor.smoothAngle this current target < 360.
Proof.
  intros [Hs1 Hs2] Hc. unfold Sensor.smoothAngle.
  apply step_toward_range; [exact Hc | apply wrap180_closed_range | split; lra].
Qed.

Lemma sensor_handle_frame (this : Sensor.SensorManager) (e : Event.t) :
  let this' := fst (Sensor.handleOrientation this e) in
  Sensor.smoothing this' = Sensor.smoothing this /\
  Sensor.pitchOffset this' = Sensor.pitchOffset this /\
  Sensor.calibrationOffset this' = Sensor.calibrationOffset this.
Proof.
  unfold Sensor.handleOrientation.
  destruct (Event.alpha e), (Event.beta e), (Event.gamma e); repeat split.
Qed.

Lemma sensor_handle_heading (this : Sensor.SensorManager) (e : Event.t) :
  0 <= Sensor.smoothing this <= 1 -> 0 <= Sensor.heading this < 360 ->
  0 <= Sensor.heading (fst (Sensor.handleOrientation this e)) < 360.
Proof.
  intros Hs Hh. unfold Sensor.handleOrientation.
  destruct (Event.alpha e), (Event.beta e), (Event.gamma e);
    cbn [fst Sensor.heading]; try exact Hh.
  apply smoothAngle_range; [exact Hs | apply Hh].
Qed.

Lemma sensor_handle_pitch (this : Sensor.SensorManager) (e : Event.t) :
  0 <= Sensor.smoothing this <= 1 -> -90 <= Sensor.pitch this <= 90 ->
  sensor_pitch_in_range (Sensor.pitchOffset this) e ->
  -90 <= Sensor.pitch (fst (Sensor.handleOrientation this e)) <= 90.
Proof.
  intros Hs Hp He. unfold Sensor.handleOrientation, sensor_pitch_in_range in *.
  destruct (Event.alpha e), (Event.beta e), (Event.gamma e);
    cbn [fst Sensor.pitch]; try exact Hp.
  apply lowpass_range; assumption.
Qed.

Lemma sensor_run_heading (events : list Event.t) : forall this,
  0 <= Sensor.smoothing this <= 1 -> 0 <= Sensor.heading this < 360 ->
  0 <= Sensor.heading (Sensor.run events this) < 360.
Proof.
  induction events as [|e events IH]; intros this Hs Hh; [exact Hh|].
  cbn [Sensor.run fold_left]. apply IH.
  - destruct (sensor_handle_frame this e) as (-> & _). exact Hs.
  - apply sensor_handle_heading; assumption.
Qed.

Lemma sensor_run_pitch (events : list Event.t) : forall this,
  0 <= Sensor.smoothing this <= 1 -> -90 <= Sensor.pitch this <= 90 ->
  Forall (sensor_pitch_in_range (Sensor.pitchOffset this)) events ->
  -90 <= Sensor.pitch (Sensor.run events this) <= 90.
Proof.
  induction events as [|e events IH]; intros this Hs Hp Hall; [exact Hp|].
  inversion Hall as [|? ? He Hrest]; subst.
  cbn [Sensor.run fold_left]. apply IH.
  - destruct (sensor_handle_frame this e) as (-> & _). exact Hs.
  - apply sensor_handle_pitch; assumption.
  - destruct (sensor_handle_frame this e) as (_ & -> & _). exact Hrest.
Qed.

(** C5 (as amended).  Starting from a freshly constructed manager, with
    any stored offsets and any stream of events, the stored heading is in
    [[0,360)] after every event.  The stored pitch is not clamped: it is in
    [[-90,90]] provided the raw pitch [beta - 90 + pitchOffset] of every
    accepted sample is; a sample the null test rejects may carry any
    values. *)
Theorem sensor_state_ranges (localStorage : Storage) (events : list Event.t) :
  let this := Sensor.constructor localStorage in
  (0 <= Sensor.heading (Sensor.run events this) < 360) /\
  (Forall (sensor_pitch_in_range (Sensor.pitchOffset this)) events ->
   -90 <= Sensor.pitch (Sensor.run events this) <= 90).
Proof.
  intros this.
  assert (Hs : 0 <= Sensor.smoothing this <= 1) by (split; discriminate).
  split.
  - apply sensor_run_heading; [exact Hs | split; [discriminate | reflexivity]].
  - intros Hall. apply sensor_run_pitch; [exact Hs | split; discriminate | exact Hall].
Qed.

Lemma sensor_state_ranges_witness :
  let e := Event.mk (Some 350) (Some 120) (Some 0) true "deviceorientationabsolute" None in
  let rejected := Event.mk None (Some (-180)) (Some 0) true "deviceorientationabsolute" None in
  let this := Sensor.constructor (<["stars_pitch_offset" := 5]> ∅) in
  (0 <= Sensor.heading (Sensor.run [e; rejected; e] this) < 360) /\
  (-90 <= Sensor.pitch (Sensor.run [e; rejected; e] this) <= 90).
Proof.
  intros e rejected this.
  destruct (sensor_state_ranges (<["stars_pitch_offset" := 5]> ∅) [e; rejected; e])
    as [Hh Hp].
  split; [exact Hh|]. apply Hp.
  repeat constructor; vm_compute; discriminate.
Defined.

(** C5 (as stated) fails: three samples with [beta = -180] (the device
    lying face down) and no calibration take the stored pitch from [0]
    to about [-104.19]. *)
Lemma sensor_pitch_range_counterexample :
  let e := Event.mk (Some 0) (Some (-180)) (Some 0) true "deviceorientationabsolute" None in
  let this := Sensor.run [e; e; e] (Sensor.constructor ∅) in
  Sensor.pitch this == - (10418625 # 100000) /\
  ~ (-90 <= Sensor.pitch this <= 90).
Proof.
  split; [vm_compute; reflexivity|].
  intros [H _]. vm_compute in H. apply H. reflexivity.
Qed.

(** main.js keeps the same ranges under the same proviso, with its own
    raw pitch [90 - beta]. *)
Lemma main_handle_ranges (this : Main.SensorManager) (e : Event.t) :
  0 <= Main.alpha this <= 1 -> 0 <= Main.heading this < 360 ->
  let this' := fst (Main.handleOrientation this e) in
  Main.alpha this' = Main.alpha this /\
  (0 <= Main.heading this' < 360) /\
  (-90 <= Main.pitch this <= 90 ->
   -90 <= Main.rawPitch (ToNumber (Event.beta e)) <= 90 ->
   -90 <= Main.pitch this' <= 90).
Proof.
  intros Ha Hh. unfold Main.handleOrientation. cbn [fst Main.alpha Main.heading Main.pitch].
  split; [reflexivity|]. split.
  - apply step_toward_range; [apply Hh | apply wrap180_closed_range | exact Ha].
  - intros [Hp1 Hp2] [Hr1 Hr2]. destruct Ha as [Ha1 Ha2]. split; nra.
Qed.

Lemma main_run_heading (events : list Event.t) : forall this,
  0 <= Main.alpha this <= 1 -> 0 <= Main.heading this < 360 ->
  0 <= Main.heading (Main.run events this) < 360.
Proof.
  induction events as [|e events IH]; intros this Ha Hh; [exact Hh|].
  cbn [Main.run fold_left].
  destruct (main_handle_ranges this e Ha Hh) as (Ea & Hh' & _).
  apply IH; [rewrite Ea; exact Ha | exact Hh'].
Qed.

(* --------------------------------------------------------------------- *)
(** *** Calibration *)
(* --------------------------------------------------------------------- *)

Lemma Qtrunc_opp (x : Q) : Qtrunc (- x) = (- Qtrunc x)%Z.
Proof.
  destruct x as [n d]. unfold Qtrunc, Qopp. cbn [Qnum Qden].
  apply Z.quot_opp_l. discriminate.
Qed.

Lemma Qtrunc_comp (x y : Q) : x == y -> Qtrunc x = Qtrunc y.
Proof.
  intros E. destruct (Qlt_le_dec x 0) as [Hneg | Hpos].
  - assert (Hx : 0 <= - x) by lra. assert (Hy : 0 <= - y) by lra.
    assert (Tx : Qtrunc x = (- Qtrunc (- x))%Z) by (rewrite Qtrunc_opp; lia).
    assert (Ty : Qtrunc y = (- Qtrunc (- y))%Z) by (rewrite Qtrunc_opp; lia).
    rewrite Tx, Ty, (Qtrunc_nonneg_floor _ Hx), (Qtrunc_nonneg_floor _ Hy).
    f_equal. apply Qfloor_comp. rewrite E. reflexivity.
  - assert (Hy : 0 <= y) by lra.
    rewrite (Qtrunc_nonneg_floor _ Hpos), (Qtrunc_nonneg_floor _ Hy).
    apply Qfloor_comp. exact E.
Qed.

#[export] Instance js_mod_Proper : Proper (Qeq ==> Qeq ==> Qeq) js_mod.
Proof.
  intros x x' Ex m m' Em. unfold js_mod.
  assert (Et : Qtrunc (x / m) = Qtrunc (x' / m')).
  { apply Qtrunc_comp. rewrite Ex, Em. reflexivity. }
  rewrite Et, Ex, Em. reflexivity.
Qed.

Lemma js_mod_full_turn (x : Q) : x == 360 -> js_mod x 360 == 0.
Proof. intros E. rewrite E. reflexivity. Qed.

(** C6.  After [setCalibration] (sensor.js) and after
    [calibrateCurrentAsNorth] (main.js) the new offset is the negated raw
    heading [raw = (heading - oldOffset + 360) % 360], and the calibrated
    heading recomputed from that raw value, [(raw + newOffset + 360) % 360],
    is 0, for every stored heading and every old offset. *)
Theorem calibration_round_trip
  (this : Sensor.SensorManager) (that : Main.SensorManager) (localStorage : Storage) :
  let raw := js_mod (Sensor.heading this - Sensor.calibrationOffset this + 360) 360 in
  let this' := fst (fst (Sensor.setCalibration this localStorage)) in
  let raw_m := js_mod (Main.heading that - Main.calibrationOffset that + 360) 360 in
  let that' := fst (Main.calibrateCurrentAsNorth that localStorage) in
  Sensor.calibrationOffset this' = - raw /\
  snd (Sensor.setCalibration this localStorage) = - raw /\
  Sensor.calibratedHeading raw (Sensor.calibrationOffset this') == 0 /\
  Main.calibrationOffset that' = - raw_m /\
  js_mod (raw_m + Main.calibrationOffset that' + 360) 360 == 0.
Proof.
  cbn zeta. unfold Sensor.setCalibration, Main.calibrateCurrentAsNorth,
    Sensor.calibratedHeading, Sensor.currentRaw.
  cbn [fst snd Sensor.calibrationOffset Main.calibrationOffset].
  repeat split; apply js_mod_full_turn; lra.
Qed.

(** C10.  [setCalibration] changes the heading offset and the storage
    key [stars_north_offset] and nothing else; [setPitchCalibration]
    changes the pitch offset and the key [stars_pitch_offset] and nothing
    else. *)
Theorem calibration_frame (this : Sensor.SensorManager) (localStorage : Storage) :
  let '(n, ls_n, _) := Sensor.setCalibration this localStorage in
  let '(p, ls_p, _) := Sensor.setPitchCalibration this localStorage in
  (Sensor.heading n = Sensor.heading this /\
   Sensor.pitch n = Sensor.pitch this /\
   Sensor.pitchOffset n = Sensor.pitchOffset this /\
   Sensor.smoothing n = Sensor.smoothing this /\
   Sensor.alpha n = Sensor.alpha this /\
   Sensor.beta n = Sensor.beta this /\
   Sensor.gamma n = Sensor.gamma this /\
   ls_n = <["stars_north_offset" := Sensor.calibrationOffset n]> localStorage /\
   (forall key : string, key <> "stars_north_offset" -> ls_n !! key = localStorage !! key)) /\
  (Sensor.heading p = Sensor.heading this /\
   Sensor.pitch p = Sensor.pitch this /\
   Sensor.calibrationOffset p = Sensor.calibrationOffset this /\
   Sensor.smoothing p = Sensor.smoothing this /\
   Sensor.alpha p = Sensor.alpha this /\
   Sensor.beta p = Sensor.beta this /\
   Sensor.gamma p = Sensor.gamma this /\
   ls_p = <["stars_pitch_offset" := Sensor.pitchOffset p]> localStorage /\
   (forall key : string, key <> "stars_pitch_offset" -> ls_p !! key = localStorage !! key)).
Proof.
  unfold Sensor.setCalibration, Sensor.setPitchCalibration. cbn zeta.
  split; repeat (split; [reflexivity|]);
    intros key Hkey; apply lookup_insert_ne; congruence.
Qed.

(* --------------------------------------------------------------------- *)
(** *** The pointer screen *)
(* --------------------------------------------------------------------- *)

Lemma Qltb_lt (x y : Q) : Qltb x y = true <-> x < y.
Proof.
  unfold Qltb. rewrite negb_true_iff, <- not_true_iff_false, Qle_bool_iff.
  split; [apply Qnot_le_lt | apply Qlt_not_le].
Qed.

Lemma isAligned_spec (target : Body) (s : Main.AppState) :
  Main.isAligned target s = true <->
  Qabs (Main.azDiff target s) < 6 /\ Qabs (Main.altDiff target s) < 6.
Proof. unfold Main.isAligned. rewrite andb_true_iff, !Qltb_lt. reflexivity. Qed.

(** One evaluation while a target is tracked and the pointer screen is
    shown: what it keeps, what the lock flag becomes, what it sends. *)
Lemma updatePointerUI_step (w : Main.World) (target : Body) :
  Main.targetBody (Main.appState w) = Some target ->
  Main.hidden (Main.dom w) Main.Screen_pointer = false ->
  let r := Main.updatePointerUI w in
  let w' := fst r in
  Main.targetBody (Main.appState w') = Some target /\
  Main.hidden (Main.dom w') Main.Screen_pointer = false /\
  Main.navigator_vibrate w' = Main.navigator_vibrate w /\
  Main.currentHeading (Main.appState w') = Main.currentHeading (Main.appState w) /\
  Main.currentPitch (Main.appState w') = Main.currentPitch (Main.appState w) /\
  Main.isLocked (Main.appState w') = Main.isAligned target (Main.appState w) /\
  snd r = (if Main.isAligned target (Main.appState w)
              && negb (Main.isLocked (Main.appState w))
           then Main.pulse w else []).
Proof.
  intros Ht Hh. unfold Main.updatePointerUI, Main.pulse. rewrite Ht, Hh.
  destruct w as [s d v]. cbn [Main.appState Main.dom Main.navigator_vibrate] in *.
  destruct (Main.isAligned target s) eqn:Ha.
  - destruct (Main.isLocked s) eqn:Hl; cbn; rewrite ?Hl; repeat split; assumption.
  - cbn. repeat split; assumption.
Qed.

Lemma isAligned_orientation (target : Body) (h p : Q) (s s' : Main.AppState) :
  Main.isAligned target (Main.setOrientation h p s) =
  Main.isAligned target (Main.setOrientation h p s').
Proof. reflexivity. Qed.

(** One sensor update while a target is tracked and the pointer screen is
    shown. *)
Lemma onUpdate_edge (w : Main.World) (target : Body) (d : Update) :
  Main.targetBody (Main.appState w) = Some target ->
  Main.hidden (Main.dom w) Main.Screen_pointer = false ->
  let aligned :=
    Main.isAligned target
      (Main.setOrientation (upd_heading d) (upd_pitch d) (Main.appState w)) in
  let r := Main.onUpdate d w in
  let w' := fst r in
  Main.targetBody (Main.appState w') = Some target /\
  Main.hidden (Main.dom w') Main.Screen_pointer = false /\
  Main.navigator_vibrate w' = Main.navigator_vibrate w /\
  Main.currentHeading (Main.appState w') = upd_heading d /\
  Main.currentPitch (Main.appState w') = upd_pitch d /\
  Main.isLocked (Main.appState w') = aligned /\
  snd r = (if aligned && negb (Main.isLocked (Main.appState w))
           then Main.pulse w else []).
Proof.
  intros Ht Hh aligned r w'. subst r w'. unfold Main.onUpdate.
  set (w1 := {| Main.appState :=
                  Main.setOrientation (upd_heading d) (upd_pitch d) (Main.appState w);
                Main.dom := Main.dom w;
                Main.navigator_vibrate := Main.navigator_vibrate w |}).
  destruct (updatePointerUI_step w1 target Ht Hh)
    as (Ht1 & Hh1 & Hv1 & Hc1 & Hp1 & Hl1 & Hfx1).
  cbn zeta in Ht1, Hh1, Hv1, Hc1, Hp1, Hl1, Hfx1.
  cbn [fst snd Main.debug Main.appState Main.dom Main.hidden Main.navigator_vibrate].
  repeat split; assumption.
Qed.

(** C7.  While a target is tracked on the pointer screen, a sensor update
    leaves the lock flag equal to "aligned", and requests a vibration
    exactly when the reading is aligned and the flag was clear: on a
    device that can vibrate the request is one [Vibrate 100], on one
    that cannot nothing is sent.  Hence over two consecutive sensor
    updates the second one vibrates exactly when it is aligned and the
    first one was not: staying aligned does not fire again, leaving and
    re-entering does. *)
Theorem lock_edge_one_shot (w : Main.World) (target : Body) (d1 d2 : Update) :
  Main.targetBody (Main.appState w) = Some target ->
  Main.hidden (Main.dom w) Main.Screen_pointer = false ->
  let aligned (d : Update) :=
    Main.isAligned target
      (Main.setOrientation (upd_heading d) (upd_pitch d) (Main.appState w)) in
  let sent (fire : bool) :=
    if fire
    then (if Main.navigator_vibrate w then [Main.Vibrate 100] else [])
    else [] in
  let r1 := Main.onUpdate d1 w in
  let r2 := Main.onUpdate d2 (fst r1) in
  Main.isLocked (Main.appState (fst r1)) = aligned d1 /\
  snd r1 = sent (aligned d1 && negb (Main.isLocked (Main.appState w))) /\
  Main.justLocked w (fst r1) = aligned d1 && negb (Main.isLocked (Main.appState w)) /\
  Main.isLocked (Main.appState (fst r2)) = aligned d2 /\
  snd r2 = sent (aligned d2 && negb (aligned d1)) /\
  Main.justLocked (fst r1) (fst r2) = aligned d2 && negb (aligned d1).
Proof.
  intros Ht Hh aligned sent r1 r2.
  destruct (onUpdate_edge w target d1 Ht Hh)
    as (Ht1 & Hh1 & Hv1 & _ & _ & Hl1 & Hfx1).
  cbn zeta in Ht1, Hh1, Hv1, Hl1, Hfx1.
  fold r1 in Ht1, Hh1, Hv1, Hl1, Hfx1.
  destruct (onUpdate_edge (fst r1) target d2 Ht1 Hh1)
    as (_ & _ & _ & _ & _ & Hl2 & Hfx2).
  cbn zeta in Hl2, Hfx2.
  fold r2 in Hl2, Hfx2.
  change (Main.isAligned target
            (Main.setOrientation (upd_heading d1) (upd_pitch d1) (Main.appState w)))
    with (aligned d1) in Hl1, Hfx1.
  change (Main.isAligned target
            (Main.setOrientation (upd_heading d2) (upd_pitch d2)
               (Main.appState (fst r1))))
    with (aligned d2) in Hl2, Hfx2.
  unfold Main.pulse in Hfx1, Hfx2. rewrite Hv1, Hl1 in Hfx2.
  unfold Main.justLocked. rewrite Hl2, Hl1, Hfx1, Hfx2.
  repeat split.
Qed.

Lemma lock_edge_one_shot_witness :
  let w := fst (Main.startTracking Jupiter (Main.initialWorld true)) in
  let d1 := reading 120 40 in
  let d2 := reading 121 41 in
  let r1 := Main.onUpdate d1 w in
  let r2 := Main.onUpdate d2 (fst r1) in
  Main.isLocked (Main.appState w) = false /\
  Main.isLocked (Main.appState (fst r1)) = true /\
  snd r1 = [Main.Vibrate 100] /\
  Main.justLocked w (fst r1) = true /\
  Main.isLocked (Main.appState (fst r2)) = true /\
  snd r2 = [] /\
  Main.justLocked (fst r1) (fst r2) = false.
Proof.
  intros w d1 d2 r1 r2.
  split; [reflexivity|].
  refine (lock_edge_one_shot w Jupiter d1 d2 _ _); reflexivity.
Defined.

(** The scenario of C7 run on the code: tracking Jupiter at azimuth 120,
    altitude 40, the readings aligned, aligned, not aligned, aligned send
    a pulse, nothing, nothing, a pulse. *)
Example lock_edge_trace :
  let w := fst (Main.startTracking Jupiter (Main.initialWorld true)) in
  snd (feed [reading 120 40; reading 121 41; reading 90 40; reading 119 39] w)
  = [[Main.Vibrate 100]; []; []; [Main.Vibrate 100]].
Proof. vm_compute. reflexivity. Qed.

(** C4 (as amended).  [startTracking] replaces the target, shows the
    pointer screen and evaluates once; it does not clear the lock flag
    first.  After it the flag says whether the device is aligned with the
    new target, and that evaluation sends the pulse only if it is aligned
    and the flag was clear before the selection. *)
Theorem startTracking_lock (body : Body) (w : Main.World) :
  let r := Main.startTracking body w in
  Main.targetBody (Main.appState (fst r)) = Some body /\
  Main.hidden (Main.dom (fst r)) Main.Screen_pointer = false /\
  Main.isLocked (Main.appState (fst r)) = Main.isAligned body (Main.appState w) /\
  snd r = (if Main.isAligned body (Main.appState w)
              && negb (Main.isLocked (Main.appState w))
           then Main.pulse w else []).
Proof.
  unfold Main.startTracking.
  set (w0 := {| Main.appState := Main.setTarget (Some body) (Main.appState w);
                Main.dom := _; Main.navigator_vibrate := _ |}).
  destruct (updatePointerUI_step w0 body eq_refl eq_refl)
    as (Ht & Hh & _ & _ & _ & Hl & Hfx).
  cbn zeta in *. repeat split; assumption.
Qed.

(** C4 (as stated) fails.  Lock on Jupiter, go back to the list, then
    select Saturn while still aligned with it: the flag is still set when
    the selection is evaluated, it stays set, and no pulse is sent. *)
Lemma startTracking_keeps_lock_counterexample :
  let w0 := Main.initialWorld true in
  let w1 := fst (Main.onUpdate (reading 120 40) w0) in
  let r2 := Main.startTracking Jupiter w1 in
  let w3 := Main.back (fst r2) in
  let r4 := Main.startTracking Saturn w3 in
  snd r2 = [Main.Vibrate 100] /\
  Main.isLocked (Main.appState w3) = true /\
  Main.isAligned Saturn (Main.appState w3) = true /\
  Main.isLocked (Main.appState (fst r4)) = true /\
  snd r4 = [].
Proof. vm_compute. repeat split. Qed.

(** C8.  Target at altitude 40, azimuth 120; smoothed heading 114, pitch
    36.  The azimuth difference is 6 and the altitude difference 4; 6 is
    not below the tolerance, so the evaluation is not aligned, the lock
    stays clear, nothing is sent, and the texts are "Turn RIGHT 6.0°" and
    "Tilt UP 4.0°". *)
Theorem jupiter_scenario :
  let s := {| Main.lat := Some (2381 # 100); Main.lon := Some (8647 # 100);
              Main.targetBody := Some Jupiter;
              Main.currentHeading := 114; Main.currentPitch := 36;
              Main.isLocked := false |} in
  let w := {| Main.appState := s;
              Main.dom := Main.showScreen Main.Screen_pointer Main.blankDom;
              Main.navigator_vibrate := true |} in
  let r := Main.updatePointerUI w in
  Main.azDiff Jupiter s == 6 /\
  Main.altDiff Jupiter s == 4 /\
  Main.isAligned Jupiter s = false /\
  Main.isLocked (Main.appState (fst r)) = false /\
  snd r = [] /\
  Main.turn_msg (Main.dom (fst r)) = "Turn RIGHT 6.0°"%string /\
  Main.tilt_msg (Main.dom (fst r)) = "Tilt UP 4.0°"%string /\
  Main.arrow_hidden (Main.dom (fst r)) = false /\
  Main.lock_hidden (Main.dom (fst r)) = true.
Proof. vm_compute. repeat split. Qed.

(* --------------------------------------------------------------------- *)
(** *** Convergence of the heading filter *)
(* --------------------------------------------------------------------- *)

(** [circ_dist] is the least distance over all whole turns. *)
Lemma circ_dist_least (a b : Q) (k : Z) :
  circ_dist a b <= Qabs (b - a + 360 * inject_Z k).
Proof.
  unfold circ_dist.
  destruct (wrap180_turns (b - a)) as [m Hm].
  destruct (wrap180_closed_range (b - a)) as [Hlo Hhi].
  set (w := wrap180 (b - a)) in *.
  assert (Hx : b - a + 360 * inject_Z k == w + 360 * inject_Z (k - m)).
  { unfold Z.sub. rewrite inject_Z_plus, inject_Z_opp. lra. }
  rewrite Hx. set (j := (k - m)%Z).
  assert (Hw : Qabs w <= 180) by (apply Qabs_Qle_condition; split; lra).
  destruct (Z.lt_trichotomy j 0) as [Hj | [Hj | Hj]].
  - assert (Hq : inject_Z j <= inject_Z (-1)) by (rewrite <- Zle_Qle; lia).
    change (inject_Z (-1)) with (-1) in Hq.
    pose proof (Qle_Qabs (- (w + 360 * inject_Z j))) as Ha.
    rewrite Qabs_opp in Ha. lra.
  - rewrite Hj. change (inject_Z 0) with 0.
    assert (E : w + 360 * 0 == w) by lra. rewrite E. apply Qle_refl.
  - assert (Hq : inject_Z 1 <= inject_Z j) by (rewrite <- Zle_Qle; lia).
    change (inject_Z 1) with 1 in Hq.
    pose proof (Qle_Qabs (w + 360 * inject_Z j)) as Ha. lra.
Qed.

Lemma circ_dist_nonneg (a b : Q) : 0 <= circ_dist a b.
Proof. apply Qabs_nonneg. Qed.

(** One call of [smoothAngle] leaves the fraction [smoothing] of the
    shortest signed path to the target. *)
Lemma smoothAngle_path (this : Sensor.SensorManager) (current target : Q) :
  0 <= Sensor.smoothing this < 1 ->
  wrap180 (target - Sensor.smoothAngle this current target)
  == wrap180 (target - current) * Sensor.smoothing this.
Proof.
  intros [Hs0 Hs1]. unfold Sensor.smoothAngle.
  set (s := Sensor.smoothing this) in *.
  destruct (wrap180_turns (target - current)) as [k Hk].
  destruct (wrap180_closed_range (target - current)) as [Hlo Hhi].
  set (d := wrap180 (target - current)) in *.
  unfold js_mod.
  set (m := Qtrunc ((current + d * (1 - s) + 360) / 360)).
  apply (wrap180_congr _ _ (m + (-1) + - k)%Z); [|nra|nra].
  rewrite !inject_Z_plus, inject_Z_opp. change (inject_Z (-1)) with (-1). lra.
Qed.

Lemma smoothAngle_contracts (this : Sensor.SensorManager) (current target : Q) :
  0 <= Sensor.smoothing this < 1 ->
  circ_dist (Sensor.smoothAngle this current target) target
  == Sensor.smoothing this * circ_dist current target.
Proof.
  intros Hs. unfold circ_dist. rewrite (smoothAngle_path this current target Hs).
  rewrite Qabs_Qmult, (Qabs_pos (Sensor.smoothing this)) by apply Hs.
  apply Qmult_comm.
Qed.

Lemma smooth_n_dist (this : Sensor.SensorManager) (current target : Q) (n : nat) :
  0 <= Sensor.smoothing this < 1 ->
  circ_dist (Sensor.smooth_n this n current target) target
  == Qpow (Sensor.smoothing this) n * circ_dist current target.
Proof.
  intros Hs. induction n as [|n IH]; cbn [Sensor.smooth_n Qpow].
  - lra.
  - rewrite smoothAngle_contracts by exact Hs. rewrite IH. lra.
Qed.

Lemma Qpow_nonneg (s : Q) (n : nat) : 0 <= s -> 0 <= Qpow s n.
Proof.
  intros Hs. induction n as [|n IH]; cbn [Qpow]; [discriminate | nra].
Qed.

(** Bernoulli's bound, in the form [s^n * (1 + n * (1 - s)) <= 1]. *)
Lemma Qpow_decay (s : Q) (n : nat) :
  0 <= s <= 1 -> Qpow s n * (1 + inject_Z (Z.of_nat n) * (1 - s)) <= 1.
Proof.
  intros [Hs0 Hs1]. induction n as [|n IH].
  - cbn [Qpow]. change (inject_Z (Z.of_nat 0)) with 0. lra.
  - cbn [Qpow]. rewrite inject_nat_succ.
    pose proof (Qpow_nonneg s n Hs0) as Hp.
    set (p := Qpow s n) in *. set (z := inject_Z (Z.of_nat n)) in *.
    assert (Hz : 0 <= z).
    { unfold z. change 0 with (inject_Z 0). rewrite <- Zle_Qle. lia. }
    assert (Hsq : 0 <= (z + 1) * ((1 - s) * (1 - s))).
    { apply Qmult_le_0_compat; [lra|]. apply Qmult_le_0_compat; lra. }
    assert (Hstep : s * (1 + (z + 1) * (1 - s)) <= 1 + z * (1 - s)) by lra.
    assert (Hmul : s * (1 + (z + 1) * (1 - s)) * p <= (1 + z * (1 - s)) * p).
    { apply Qmult_le_compat_r; assumption. }
    lra.
Qed.

(** Any positive bound is eventually met by [s^n * D]. *)
Lemma Qpow_vanishes (s D eps : Q) :
  0 <= s < 1 -> 0 <= D -> 0 < eps ->
  exists N : nat, forall n, (N <= n)%nat -> Qpow s n * D < eps.
Proof.
  intros [Hs0 Hs1] HD Heps.
  set (t := 1 - s). assert (Ht : 0 < t) by (unfold t; lra).
  assert (Het : 0 < eps * t) by nra.
  exists (Z.to_nat (Qceiling (D / (eps * t)))).
  intros n Hn.
  pose proof (Qle_ceiling (D / (eps * t))) as Hc.
  assert (Hq : 0 <= D / (eps * t)) by (apply Qle_shift_div_l; lra).
  assert (Hcz : (0 <= Qceiling (D / (eps * t)))%Z).
  { rewrite Zle_Qle. apply Qle_trans with (D / (eps * t)); [exact Hq | exact Hc]. }
  assert (Hnz : (Qceiling (D / (eps * t)) <= Z.of_nat n)%Z) by lia.
  rewrite Zle_Qle in Hnz.
  assert (HDn : D <= inject_Z (Z.of_nat n) * (eps * t)).
  { assert (E : D == (D / (eps * t)) * (eps * t)) by (field; lra).
    rewrite E at 1. apply Qmult_le_compat_r; lra. }
  pose proof (Qpow_decay s n (conj Hs0 (Qlt_le_weak _ _ Hs1))) as Hdec.
  pose proof (Qpow_nonneg s n Hs0) as Hp.
  fold t in Hdec.
  set (p := Qpow s n) in *. set (z := inject_Z (Z.of_nat n)) in *.
  assert (Hz : 0 <= z).
  { unfold z. change 0 with (inject_Z 0). rewrite <- Zle_Qle. lia. }
  assert (H1 : p * D * (1 + z * t) <= D) by nra.
  assert (H2 : D < eps * (1 + z * t)) by nra.
  apply Qnot_le_lt. intros Hge.
  assert (H3 : eps * (1 + z * t) <= p * D * (1 + z * t)) by nra.
  lra.
Qed.

(** C9.  With a smoothing factor in (0,1), for every starting heading
    and every fixed target, each call of [smoothAngle] multiplies the
    circular distance to the target by the smoothing factor; the
    distances never increase, and they fall below every positive bound. *)
Theorem smoothing_converges (this : Sensor.SensorManager) (current target : Q) :
  0 < Sensor.smoothing this < 1 ->
  let dist (n : nat) := circ_dist (Sensor.smooth_n this n current target) target in
  (forall n, dist (S n) == Sensor.smoothing this * dist n) /\
  (forall n, dist n == Qpow (Sensor.smoothing this) n * dist O) /\
  (forall n, dist (S n) <= dist n) /\
  (forall eps, 0 < eps -> exists N : nat, forall n, (N <= n)%nat -> dist n < eps).
Proof.
  intros [Hs0 Hs1] dist.
  assert (Hs : 0 <= Sensor.smoothing this < 1) by (split; lra).
  assert (Hstep : forall n, dist (S n) == Sensor.smoothing this * dist n).
  { intros n. unfold dist. cbn [Sensor.smooth_n]. apply smoothAngle_contracts, Hs. }
  split; [exact Hstep|]. split; [|split].
  - intros n. unfold dist. apply smooth_n_dist, Hs.
  - intros n. rewrite Hstep. pose proof (circ_dist_nonneg
      (Sensor.smooth_n this n current target) target) as Hd. fold (dist n) in Hd. nra.
  - intros eps Heps.
    destruct (Qpow_vanishes (Sensor.smoothing this) (dist O) eps Hs
                (circ_dist_nonneg _ _) Heps) as [N HN].
    exists N. intros n Hn. unfold dist at 1. rewrite smooth_n_dist by exact Hs.
    apply HN, Hn.
Qed.

Lemma smoothing_converges_witness :
  let this := Sensor.constructor ∅ in
  let dist (n : nat) := circ_dist (Sensor.smooth_n this n 350 10) 10 in
  (forall n, dist (S n) == Sensor.smoothing this * dist n) /\
  (forall n, dist n == Qpow (Sensor.smoothing this) n * dist O) /\
  (forall n, dist (S n) <= dist n) /\
  (forall eps, 0 < eps -> exists N : nat, forall n, (N <= n)%nat -> dist n < eps).
Proof.
  intros this.
  apply (smoothing_converges this 350 10). split; reflexivity.
Defined.

(** The first steps from heading 350 toward 10 go through north: the
    distance 20 shrinks to 17 and then to 14.45. *)
Example smoothing_across_north :
  let this := Sensor.constructor ∅ in
  circ_dist 350 10 == 20 /\
  Sensor.smooth_n this 1 350 10 == 353 /\
  Sensor.smooth_n this 2 350 10 == 35555 # 100 /\
  circ_dist (Sensor.smooth_n this 2 350 10) 10 == 1445 # 100.
Proof. vm_compute. repeat split. Qed.

(** The same at the level of the event handler: a stream that repeats
    one accepted sample. *)
Lemma smooth_n_shift (this : Sensor.SensorManager) (n : nat) (c t : Q) :
  Sensor.smooth_n this n (Sensor.smoothAngle this c t) t
  = Sensor.smoothAngle this (Sensor.smooth_n this n c t) t.
Proof.
  induction n as [|n IH]; cbn [Sensor.smooth_n]; [reflexivity|].
  rewrite IH. reflexivity.
Qed.

Lemma smooth_n_ext (this this' : Sensor.SensorManager) (n : nat) (c t : Q) :
  Sensor.smoothing this' = Sensor.smoothing this ->
  Sensor.smooth_n this' n c t = Sensor.smooth_n this n c t.
Proof.
  intros E. induction n as [|n IH]; cbn [Sensor.smooth_n]; [reflexivity|].
  rewrite IH. unfold Sensor.smoothAngle. rewrite E. reflexivity.
Qed.

Lemma sensor_repeat_heading (e : Event.t) (a b g : Q) (n : nat) :
  Event.alpha e = Some a -> Event.beta e = Some b -> Event.gamma e = Some g ->
  forall this,
  Sensor.heading (Sensor.run (repeat e n) this)
  = Sensor.smooth_n this n (Sensor.heading this)
      (Sensor.calibratedHeading (Sensor.rawHeading e a) (Sensor.calibrationOffset this)).
Proof.
  intros Ha Hb Hg. induction n as [|n IH]; intros this; [reflexivity|].
  cbn [repeat Sensor.run fold_left]. fold (Sensor.run (repeat e n)).
  rewrite IH. unfold Sensor.handleOrientation. rewrite Ha, Hb, Hg.
  cbn [fst Sensor.heading Sensor.calibrationOffset Sensor.smooth_n].
  rewrite (smooth_n_ext this) by reflexivity. apply smooth_n_shift.
Qed.

Lemma sensor_repeat_pitch (e : Event.t) (a b g : Q) (n : nat) :
  Event.alpha e = Some a -> Event.beta e = Some b -> Event.gamma e = Some g ->
  forall this,
  Sensor.pitch (Sensor.run (repeat e n) this)
    - (Sensor.rawPitch b + Sensor.pitchOffset this)
  == Qpow (Sensor.smoothing this) n
     * (Sensor.pitch this - (Sensor.rawPitch b + Sensor.pitchOffset this)).
Proof.
  intros Ha Hb Hg. induction n as [|n IH]; intros this.
  - cbn [repeat Sensor.run fold_left Qpow]. lra.
  - cbn [repeat Sensor.run fold_left]. fold (Sensor.run (repeat e n)).
    destruct (sensor_handle_frame this e) as (Es & Ep & _). cbn zeta in Es, Ep.
    specialize (IH (fst (Sensor.handleOrientation this e))).
    rewrite Es, Ep in IH. rewrite IH. clear IH Es Ep.
    unfold Sensor.handleOrientation. rewrite Ha, Hb, Hg.
    cbn [fst Sensor.pitch Qpow]. ring.
Qed.

(* ===================================================================== *)
(** ** Further properties of the sensor pipeline *)
(* ===================================================================== *)

(* --------------------------------------------------------------------- *)
(** *** More on the remainder and on the loop *)
(* --------------------------------------------------------------------- *)

(** A non-negative dividend is reduced to its representative in
    [[0,360)]. *)
Lemma js_mod_360_unique (x r : Q) (k : Z) :
  0 <= x -> 0 <= r < 360 -> x == r + 360 * inject_Z k -> js_mod x 360 == r.
Proof.
  intros Hx [Hr0 Hr1] Hk.
  destruct (js_mod_range x 360 Hx eq_refl) as [Hlo Hhi].
  apply (turns_unique _ _ (k + - Qtrunc (x / 360))%Z); [|lra|lra].
  unfold js_mod in *. rewrite inject_Z_plus, inject_Z_opp. lra.
Qed.

Lemma js_mod_opp (x m : Q) : ~ m == 0 -> js_mod (- x) m == - js_mod x m.
Proof.
  intros Hm. unfold js_mod.
  assert (E : Qtrunc (- x / m) = (- Qtrunc (x / m))%Z).
  { rewrite <- Qtrunc_opp. apply Qtrunc_comp. field. exact Hm. }
  rewrite E, inject_Z_opp. ring.
Qed.

(** A negative dividend gives a remainder in [(-360,0]]: the sign of
    [%] follows the dividend. *)
Lemma js_mod_negative (x : Q) : x < 0 -> -360 < js_mod x 360 <= 0.
Proof.
  intros Hx.
  assert (Hpos : 0 <= - x) by lra.
  destruct (js_mod_range (- x) 360 Hpos eq_refl) as [Hlo Hhi].
  rewrite js_mod_opp in Hlo, Hhi by discriminate. split; lra.
Qed.

Lemma wrap180_diff_strict (x y : Q) :
  x == y -> -360 < wrap180 x - wrap180 y /\ wrap180 x - wrap180 y < 360.
Proof.
  intros E.
  destruct (wrap180_cases_eq x) as [(A1 & A2 & A3) | [(A1 & A2 & A3) | (A1 & A2 & A3)]];
  destruct (wrap180_cases_eq y)
    as [(B1 & B2 & B3) | [(B1 & B2 & B3) | (B1 & B2 & B3)]];
  split; lra.
Qed.

#[export] Instance wrap180_Proper : Proper (Qeq ==> Qeq) wrap180.
Proof.
  intros x y E.
  destruct (wrap180_turns x) as [k1 K1]. destruct (wrap180_turns y) as [k2 K2].
  destruct (wrap180_diff_strict x y E) as [Hlo Hhi].
  apply (turns_unique _ _ (k1 + - k2)%Z); [|exact Hlo|exact Hhi].
  rewrite inject_Z_plus, inject_Z_opp. lra.
Qed.

(* --------------------------------------------------------------------- *)
(** *** The filter at rest, and the raw heading *)
(* --------------------------------------------------------------------- *)

(** X1.  A sample that reads exactly the stored state leaves it where
    it is: if the calibrated heading of an accepted event equals the
    stored heading (which is in [[0,360)]) and its offset-adjusted raw
    pitch equals the stored pitch, [handleOrientation] stores the same
    heading and pitch again, whatever the smoothing factor. *)
Theorem sensor_steady_sample
  (this : Sensor.SensorManager) (e : Event.t) (a b g : Q) :
  Event.alpha e = Some a -> Event.beta e = Some b -> Event.gamma e = Some g ->
  0 <= Sensor.heading this < 360 ->
  Sensor.calibratedHeading (Sensor.rawHeading e a) (Sensor.calibrationOffset this)
    == Sensor.heading this ->
  Sensor.rawPitch b + Sensor.pitchOffset this == Sensor.pitch this ->
  Sensor.heading (fst (Sensor.handleOrientation this e)) == Sensor.heading this /\
  Sensor.pitch (fst (Sensor.handleOrientation this e)) == Sensor.pitch this.
Proof.
  intros Ha Hb Hg Hh Hcal Hp. unfold Sensor.handleOrientation.
  rewrite Ha, Hb, Hg. cbn [fst Sensor.heading Sensor.pitch]. split.
  - unfold Sensor.smoothAngle.
    set (c := Sensor.calibratedHeading _ _) in *.
    assert (Hd : wrap180 (c - Sensor.heading this) == 0).
    { apply (wrap180_congr _ _ 0%Z); [|reflexivity|reflexivity].
      change (inject_Z 0) with 0. lra. }
    rewrite Hd. apply (js_mod_360_unique _ _ 1%Z); [lra | exact Hh |].
    change (inject_Z 1) with 1. lra.
  - rewrite Hp. ring.
Qed.

Lemma sensor_steady_sample_witness :
  let this := Sensor.mk 90 0 0 0 0 0 0 (85 # 100) in
  let e := Event.mk (Some 270) (Some 90) (Some 0) true "deviceorientationabsolute" None in
  Sensor.heading (fst (Sensor.handleOrientation this e)) == Sensor.heading this /\
  Sensor.pitch (fst (Sensor.handleOrientation this e)) == Sensor.pitch this.
Proof.
  intros this e.
  apply (sensor_steady_sample this e 270 90 0);
    try reflexivity; try (split; [discriminate | reflexivity]).
Defined.

(** X2.  Without a usable compass field the raw heading is the mirror
    image of [alpha]: for [alpha] in [[0,360]] it lies in [[0,360)], it is
    [360 - alpha] for [alpha > 0] and [0] for [alpha = 0].  A compass
    field of exactly [0] counts as absent (it is falsy), so due north on
    such a device also falls back to [360 - alpha]. *)
Theorem rawHeading_mirror (e : Event.t) (a : Q) :
  truthy (Event.webkitCompassHeading e) = false ->
  0 <= a <= 360 ->
  (0 <= Sensor.rawHeading e a < 360) /\
  (0 < a -> Sensor.rawHeading e a == 360 - a) /\
  (a == 0 -> Sensor.rawHeading e a == 0) /\
  (forall abs ty, Sensor.rawHeading
     (Event.mk (Some a) (Event.beta e) (Event.gamma e) abs ty (Some 0)) a
     == Sensor.rawHeading e a).
Proof.
  intros Hw [Ha0 Ha1]. unfold Sensor.rawHeading. rewrite Hw.
  split; [apply js_mod_range; [lra | reflexivity]|].
  split; [|split].
  - intros Hpos. apply (js_mod_360_unique _ _ 1%Z); [lra | split; lra |].
    change (inject_Z 1) with 1. lra.
  - intros Hz. apply (js_mod_360_unique _ _ 2%Z); [lra | split; [lra | reflexivity] |].
    change (inject_Z 2) with 2. lra.
  - intros abs ty. reflexivity.
Qed.

Lemma rawHeading_mirror_witness :
  let e := Event.mk (Some 90) (Some 90) (Some 0) true "deviceorientationabsolute" None in
  (0 <= Sensor.rawHeading e 90 < 360) /\
  (0 < 90 -> Sensor.rawHeading e 90 == 360 - 90) /\
  (90 == 0 -> Sensor.rawHeading e 90 == 0) /\
  (forall abs ty, Sensor.rawHeading
     (Event.mk (Some 90) (Event.beta e) (Event.gamma e) abs ty (Some 0)) 90
     == Sensor.rawHeading e 90).
Proof.
  intros e. apply (rawHeading_mirror e 90); [reflexivity | split; discriminate].
Defined.

(* --------------------------------------------------------------------- *)
(** *** Calibration, end to end *)
(* --------------------------------------------------------------------- *)

#[export] Instance circ_dist_Proper : Proper (Qeq ==> Qeq ==> Qeq) circ_dist.
Proof.
  intros a a' Ea b b' Eb. unfold circ_dist.
  assert (E : b - a == b' - a') by lra. rewrite E. reflexivity.
Qed.

Lemma currentRaw_recovers (this : Sensor.SensorManager) (rawH : Q) :
  0 <= rawH < 360 ->
  -360 <= Sensor.calibrationOffset this <= 360 ->
  Sensor.heading this == Sensor.calibratedHeading rawH (Sensor.calibrationOffset this) ->
  Sensor.currentRaw this == rawH.
Proof.
  intros [Hr0 Hr1] [Ho0 Ho1] Hh. unfold Sensor.currentRaw.
  unfold Sensor.calibratedHeading in Hh.
  assert (Hx : 0 <= rawH + Sensor.calibrationOffset this + 360) by lra.
  destruct (js_mod_range _ 360 Hx eq_refl) as [Hc0 Hc1].
  rewrite <- Hh in Hc0, Hc1. unfold js_mod in Hh.
  set (q := Qtrunc ((rawH + Sensor.calibrationOffset this + 360) / 360)) in *.
  apply (js_mod_360_unique _ _ (2 + - q)%Z); [lra | split; lra |].
  rewrite inject_Z_plus, inject_Z_opp. change (inject_Z 2) with 2. lra.
Qed.

(** X3.  "Set current direction as North", end to end.  Suppose the
    stored heading has settled on the calibrated heading of the sample
    the device keeps sending (raw heading in [[0,360)], old offset within
    one turn).  After [setCalibration] the new offset is the negated raw
    heading, the same sample calibrates to 0, and with a smoothing factor
    in [[0,1)] the stored heading then closes in on 0: after [n] more
    such samples its circular distance to 0 is [smoothing^n] times what
    it was. *)
Theorem north_calibration_end_to_end
  (this : Sensor.SensorManager) (localStorage : Storage)
  (e : Event.t) (a b g : Q) (n : nat) :
  Event.alpha e = Some a -> Event.beta e = Some b -> Event.gamma e = Some g ->
  0 <= Sensor.rawHeading e a < 360 ->
  -360 <= Sensor.calibrationOffset this <= 360 ->
  0 <= Sensor.smoothing this < 1 ->
  Sensor.heading this
    == Sensor.calibratedHeading (Sensor.rawHeading e a) (Sensor.calibrationOffset this) ->
  let this' := fst (fst (Sensor.setCalibration this localStorage)) in
  Sensor.calibrationOffset this' == - Sensor.rawHeading e a /\
  Sensor.calibratedHeading (Sensor.rawHeading e a) (Sensor.calibrationOffset this') == 0 /\
  circ_dist (Sensor.heading (Sensor.run (repeat e n) this')) 0
    == Qpow (Sensor.smoothing this) n * circ_dist (Sensor.heading this) 0.
Proof.
  intros Ha Hb Hg Hr Ho Hs Hh this'.
  pose proof (currentRaw_recovers this _ Hr Ho Hh) as Hraw.
  assert (Hoff : Sensor.calibrationOffset this' == - Sensor.rawHeading e a).
  { unfold this', Sensor.setCalibration. cbn [fst Sensor.calibrationOffset].
    rewrite Hraw. reflexivity. }
  assert (Hzero : Sensor.calibratedHeading (Sensor.rawHeading e a)
                    (Sensor.calibrationOffset this') == 0).
  { unfold Sensor.calibratedHeading. apply js_mod_full_turn. lra. }
  split; [exact Hoff|]. split; [exact Hzero|].
  rewrite (sensor_repeat_heading e a b g n Ha Hb Hg this').
  rewrite <- Hzero at 1.
  rewrite (smooth_n_dist this') by exact Hs.
  change (Sensor.smoothing this') with (Sensor.smoothing this).
  change (Sensor.heading this') with (Sensor.heading this).
  rewrite Hzero. reflexivity.
Qed.

Lemma north_calibration_end_to_end_witness :
  let this := Sensor.mk 100 0 10 0 0 0 0 (85 # 100) in
  let e := Event.mk (Some 270) (Some 90) (Some 0) true "deviceorientationabsolute" None in
  let this' := fst (fst (Sensor.setCalibration this ∅)) in
  Sensor.calibrationOffset this' == - Sensor.rawHeading e 270 /\
  Sensor.calibratedHeading (Sensor.rawHeading e 270) (Sensor.calibrationOffset this') == 0 /\
  circ_dist (Sensor.heading (Sensor.run (repeat e 3) this')) 0
    == Qpow (Sensor.smoothing this) 3 * circ_dist (Sensor.heading this) 0.
Proof.
  intros this e.
  apply (north_calibration_end_to_end this ∅ e 270 90 0 3);
    try reflexivity; split; try discriminate; reflexivity.
Defined.

Lemma calibratedHeading_sign_range (raw offset : Q) :
  0 <= raw + offset + 360 -> 0 <= Sensor.calibratedHeading raw offset < 360.
Proof. intros H. apply js_mod_range; [exact H | reflexivity]. Qed.

(** X4.  The calibrated heading is in [[0,360)] only while
    [raw + offset + 360] is not negative; for a more negative stored
    offset the remainder keeps the sign of its dividend and the
    calibrated heading lies in [(-360,0]]. *)
Theorem calibratedHeading_sign (raw offset : Q) :
  (0 <= raw + offset + 360 ->
   0 <= Sensor.calibratedHeading raw offset < 360) /\
  (raw + offset + 360 < 0 ->
   -360 < Sensor.calibratedHeading raw offset <= 0).
Proof.
  unfold Sensor.calibratedHeading. split; intros H.
  - apply js_mod_range; [exact H | reflexivity].
  - apply js_mod_negative. exact H.
Qed.

Lemma calibratedHeading_sign_witness :
  (0 <= Sensor.calibratedHeading 10 (-350) < 360) /\
  (-360 < Sensor.calibratedHeading 10 (-1000) <= 0) /\
  Sensor.calibratedHeading 10 (-1000) == -270.
Proof.
  destruct (calibratedHeading_sign 10 (-350)) as [H1 _].
  destruct (calibratedHeading_sign 10 (-1000)) as [_ H2].
  split; [apply H1; discriminate|]. split; [apply H2; reflexivity | reflexivity].
Defined.

(** X5.  [setCalibration] always stores an offset in [(-360,0]] when
    [heading - oldOffset + 360] is not negative (in particular when the
    heading is in [[0,360)] and the old offset is at most 360), and with
    that offset every raw heading of [[0,360)] calibrates into
    [[0,360)]. *)
Theorem setCalibration_offset_range
  (this : Sensor.SensorManager) (localStorage : Storage) :
  0 <= Sensor.heading this - Sensor.calibrationOffset this + 360 ->
  let offset := snd (Sensor.setCalibration this localStorage) in
  (-360 < offset <= 0) /\
  (forall raw, 0 <= raw < 360 -> 0 <= Sensor.calibratedHeading raw offset < 360).
Proof.
  intros H offset.
  assert (Ho : -360 < offset <= 0).
  { unfold offset, Sensor.setCalibration, Sensor.currentRaw.
    cbn [snd Sensor.calibrationOffset].
    destruct (js_mod_range _ 360 H eq_refl) as [H0 H1]. split; lra. }
  split; [exact Ho|].
  intros raw [Hr0 Hr1]. apply calibratedHeading_sign_range; lra.
Qed.

Lemma setCalibration_offset_range_witness :
  let this := Sensor.mk 100 0 10 0 0 0 0 (85 # 100) in
  let offset := snd (Sensor.setCalibration this ∅) in
  (-360 < offset <= 0) /\
  (forall raw, 0 <= raw < 360 -> 0 <= Sensor.calibratedHeading raw offset < 360).
Proof.
  intros this. apply (setCalibration_offset_range this ∅). discriminate.
Defined.

(** X6.  Calibration survives a restart.  A manager constructed from
    the storage that [setCalibration] (or [setPitchCalibration]) leaves
    behind starts with exactly the offset that call returned, and with
    the other offset as it was stored before. *)
Theorem calibration_persists (this : Sensor.SensorManager) (localStorage : Storage) :
  let '(_, ls_n, north) := Sensor.setCalibration this localStorage in
  let '(_, ls_p, horizon) := Sensor.setPitchCalibration this localStorage in
  Sensor.calibrationOffset (Sensor.constructor ls_n) = north /\
  Sensor.pitchOffset (Sensor.constructor ls_n)
    = Sensor.pitchOffset (Sensor.constructor localStorage) /\
  Sensor.pitchOffset (Sensor.constructor ls_p) = horizon /\
  Sensor.calibrationOffset (Sensor.constructor ls_p)
    = Sensor.calibrationOffset (Sensor.constructor localStorage) /\
  Sensor.heading (Sensor.constructor ls_n) = 0 /\
  Sensor.pitch (Sensor.constructor ls_p) = 0.
Proof.
  unfold Sensor.setCalibration, Sensor.setPitchCalibration, Sensor.constructor,
    getItemOr0.
  cbn [Sensor.calibrationOffset Sensor.pitchOffset Sensor.heading Sensor.pitch].
  rewrite !lookup_insert_eq.
  rewrite !lookup_insert_ne by discriminate.
  repeat split.
Qed.

(** X7.  "Set current tilt as Horizon", end to end.  If the stored
    pitch has settled on the offset-adjusted raw pitch of the sample the
    device keeps sending, then after [setPitchCalibration] that sample
    reads as pitch 0; the stored pitch is not reset, it decays: after [n]
    more such samples it is [smoothing^n] times what it was. *)
Theorem horizon_calibration_end_to_end
  (this : Sensor.SensorManager) (localStorage : Storage)
  (e : Event.t) (a b g : Q) (n : nat) :
  Event.alpha e = Some a -> Event.beta e = Some b -> Event.gamma e = Some g ->
  Sensor.pitch this == Sensor.rawPitch b + Sensor.pitchOffset this ->
  let this' := fst (fst (Sensor.setPitchCalibration this localStorage)) in
  Sensor.rawPitch b + Sensor.pitchOffset this' == 0 /\
  Sensor.pitch this' = Sensor.pitch this /\
  Sensor.pitch (Sensor.run (repeat e n) this')
    == Qpow (Sensor.smoothing this) n * Sensor.pitch this.
Proof.
  intros Ha Hb Hg Hp this'.
  assert (Hz : Sensor.rawPitch b + Sensor.pitchOffset this' == 0).
  { unfold this', Sensor.setPitchCalibration. cbn [fst Sensor.pitchOffset]. lra. }
  split; [exact Hz|]. split; [reflexivity|].
  pose proof (sensor_repeat_pitch e a b g n Ha Hb Hg this') as H.
  change (Sensor.smoothing this') with (Sensor.smoothing this) in H.
  change (Sensor.pitch this') with (Sensor.pitch this) in H.
  rewrite Hz in H.
  set (x := Sensor.pitch (Sensor.run (repeat e n) this')) in *.
  set (p := Qpow (Sensor.smoothing this) n) in *.
  lra.
Qed.

Lemma horizon_calibration_end_to_end_witness :
  let this := Sensor.mk 0 30 0 0 0 0 0 (85 # 100) in
  let e := Event.mk (Some 0) (Some 120) (Some 0) true "deviceorientationabsolute" None in
  let this' := fst (fst (Sensor.setPitchCalibration this ∅)) in
  Sensor.rawPitch 120 + Sensor.pitchOffset this' == 0 /\
  Sensor.pitch this' = Sensor.pitch this /\
  Sensor.pitch (Sensor.run (repeat e 2) this')
    == Qpow (Sensor.smoothing this) 2 * Sensor.pitch this.
Proof.
  intros this e.
  apply (horizon_calibration_end_to_end this ∅ e 0 120 0 2); reflexivity.
Defined.

(* --------------------------------------------------------------------- *)
(** *** The two revisions of the filter *)
(* --------------------------------------------------------------------- *)

Lemma handlers_agree (s : Sensor.SensorManager) (m : MainRev.SensorManager) (e : Event.t) :
  complete e -> same_state s m ->
  same_state (fst (Sensor.handleOrientation s e)) (fst (MainRev.handleOrientation m e)).
Proof.
  intros (Ha & Hb & Hg) (Eh & Ep & Eo & Epo & Ea).
  destruct (Event.alpha e) as [a|] eqn:Ea'; [|congruence].
  destruct (Event.beta e) as [b|] eqn:Eb'; [|congruence].
  destruct (Event.gamma e) as [g|] eqn:Eg'; [|congruence].
  unfold Sensor.handleOrientation, MainRev.handleOrientation, same_state.
  rewrite Ea', Eb', Eg'.
  cbn [fst Sensor.heading Sensor.pitch Sensor.calibrationOffset Sensor.pitchOffset
       Sensor.smoothing MainRev.heading MainRev.pitch MainRev.calibrationOffset
       MainRev.pitchOffset MainRev.alpha ToNumber].
  unfold Sensor.smoothAngle, Sensor.calibratedHeading, Sensor.rawHeading, Sensor.rawPitch.
  repeat split; try assumption.
  - destruct (Event.absolute e || String.eqb (Event.type e) "deviceorientationabsolute");
      rewrite Eh, Eo, Ea; reflexivity.
  - rewrite Ep, Epo, Ea. ring.
Qed.

(** X8.  The filter of sensor.js and the filter of the later main.js
    revision are the same function of the event stream: started from the
    same storage and fed the same events, none with a [null] angle, they
    hold equal headings, pitches and offsets after every event
    ([pitch * s + raw * (1 - s)] and [pitch + (raw - pitch) * alpha] agree
    for [alpha = 1 - s]). *)
Theorem revisions_agree (localStorage : Storage) (events : list Event.t) :
  Forall complete events ->
  same_state (Sensor.run events (Sensor.constructor localStorage))
             (MainRev.run events (MainRev.constructor localStorage)).
Proof.
  intros Hall.
  assert (H0 : same_state (Sensor.constructor localStorage)
                          (MainRev.constructor localStorage)).
  { unfold same_state. cbn. repeat split; reflexivity. }
  revert H0. generalize (Sensor.constructor localStorage) as s.
  generalize (MainRev.constructor localStorage) as m.
  induction Hall as [|e events He Hall IH]; intros m s H0; [exact H0|].
  cbn [Sensor.run MainRev.run fold_left]. apply IH.
  apply handlers_agree; assumption.
Qed.

Lemma revisions_agree_witness :
  let e1 := Event.mk (Some 300) (Some 100) (Some 0) true "deviceorientationabsolute" None in
  let e2 := Event.mk (Some 10) (Some 80) (Some 5) false "deviceorientation" (Some 45) in
  let ls : Storage := <["stars_pitch_offset" := 3]> (<["stars_north_offset" := -20]> ∅) in
  same_state (Sensor.run [e1; e2] (Sensor.constructor ls))
             (MainRev.run [e1; e2] (MainRev.constructor ls)).
Proof.
  intros e1 e2 ls. apply (revisions_agree ls [e1; e2]).
  repeat constructor; discriminate.
Defined.

(** X9.  The two revisions also calibrate alike: from equal states,
    [setCalibration] and [calibrateCurrentAsNorth] store equal heading
    offsets, [setPitchCalibration] and [calibrateCurrentAsHorizon] store
    equal pitch offsets ([oldOffset - pitch] in both), and the states stay
    equal. *)
Theorem calibrations_agree
  (s : Sensor.SensorManager) (m : MainRev.SensorManager) (ls1 ls2 : Storage) :
  same_state s m ->
  same_state (fst (fst (Sensor.setCalibration s ls1)))
             (fst (MainRev.calibrateCurrentAsNorth m ls2)) /\
  same_state (fst (fst (Sensor.setPitchCalibration s ls1)))
             (fst (MainRev.calibrateCurrentAsHorizon m ls2)) /\
  MainRev.pitchOffset (fst (MainRev.calibrateCurrentAsHorizon m ls2))
    == Sensor.pitchOffset s - Sensor.pitch s.
Proof.
  intros (Eh & Ep & Eo & Epo & Ea).
  unfold same_state, Sensor.setCalibration, MainRev.calibrateCurrentAsNorth,
    Sensor.setPitchCalibration, MainRev.calibrateCurrentAsHorizon, Sensor.currentRaw.
  cbn [fst Sensor.heading Sensor.pitch Sensor.calibrationOffset Sensor.pitchOffset
       Sensor.smoothing MainRev.heading MainRev.pitch MainRev.calibrationOffset
       MainRev.pitchOffset MainRev.alpha].
  repeat split; try assumption.
  - rewrite Eh, Eo. reflexivity.
  - rewrite Ep, Epo. ring.
  - rewrite Ep, Epo. ring.
Qed.

Lemma calibrations_agree_witness :
  let s := Sensor.mk 100 30 10 2 0 0 0 (85 # 100) in
  let m := MainRev.mkSensorManager 100 30 10 2 (15 # 100) in
  same_state (fst (fst (Sensor.setCalibration s ∅)))
             (fst (MainRev.calibrateCurrentAsNorth m ∅)) /\
  same_state (fst (fst (Sensor.setPitchCalibration s ∅)))
             (fst (MainRev.calibrateCurrentAsHorizon m ∅)) /\
  MainRev.pitchOffset (fst (MainRev.calibrateCurrentAsHorizon m ∅))
    == Sensor.pitchOffset s - Sensor.pitch s.
Proof.
  intros s m. apply (calibrations_agree s m ∅ ∅).
  unfold same_state. cbn. repeat split; reflexivity.
Defined.

(* --------------------------------------------------------------------- *)
(** *** Streams of sensor updates on the pointer screen *)
(* --------------------------------------------------------------------- *)

Lemma feed_cons (d : Update) (ds : list Update) (w : Main.World) :
  feed (d :: ds) w =
  (fst (feed ds (fst (Main.onUpdate d w))),
   snd (Main.onUpdate d w) :: snd (feed ds (fst (Main.onUpdate d w)))).
Proof.
  cbn [feed]. destruct (Main.onUpdate d w) as [w' fx]. cbn [fst snd].
  destruct (feed ds w') as [w'' fxs]. reflexivity.
Qed.

Lemma feed_app (ds1 ds2 : list Update) : forall w,
  feed (ds1 ++ ds2) w =
  (fst (feed ds2 (fst (feed ds1 w))),
   snd (feed ds1 w) ++ snd (feed ds2 (fst (feed ds1 w)))).
Proof.
  induction ds1 as [|d ds1 IH]; intros w.
  - cbn [app feed fst snd]. destruct (feed ds2 w); reflexivity.
  - rewrite <- app_comm_cons, !feed_cons, IH. reflexivity.
Qed.

Lemma updatePointerUI_idle (w : Main.World) :
  Main.targetBody (Main.appState w) = None \/
  Main.hidden (Main.dom w) Main.Screen_pointer = true ->
  Main.updatePointerUI w = (w, []).
Proof.
  unfold Main.updatePointerUI. intros [H | H]; rewrite H; [reflexivity|].
  destruct (Main.targetBody (Main.appState w)); reflexivity.
Qed.

Lemma last_cons {A : Type} (a x : A) (l : list A) :
  List.last (a :: l) x = List.last l a.
Proof.
  revert a x. induction l as [|b l IH]; intros a x; [reflexivity|].
  change (List.last (a :: b :: l) x) with (List.last (b :: l) x).
  rewrite (IH b x), (IH b a). reflexivity.
Qed.

(** X10.  Off the pointer screen the sensors drive nothing but the debug
    log.  While no target is selected or the pointer screen is hidden
    (for instance after the back button), any stream of sensor updates
    sends no vibration request and leaves the lock flag and the target
    as they were.  The document changes at most in the text of
    [#debug-log]: while the debug overlay is shown it holds the line of
    the last update, and with the overlay hidden the whole document is
    as it was.  Only the stored orientation follows the readings. *)
Theorem idle_stream_is_silent (ds : list Update) : forall w : Main.World,
  Main.targetBody (Main.appState w) = None \/
  Main.hidden (Main.dom w) Main.Screen_pointer = true ->
  let r := feed ds w in
  snd r = repeat [] (length ds) /\
  Main.dom (fst r) =
    with_debug_log
      (if Main.debug_overlay_hidden (Main.dom w) then Main.debug_log (Main.dom w)
       else List.last (map Main.debugText ds) (Main.debug_log (Main.dom w)))
      (Main.dom w) /\
  (Main.debug_overlay_hidden (Main.dom w) = true -> Main.dom (fst r) = Main.dom w) /\
  Main.isLocked (Main.appState (fst r)) = Main.isLocked (Main.appState w) /\
  Main.targetBody (Main.appState (fst r)) = Main.targetBody (Main.appState w) /\
  (forall d, Main.currentHeading (Main.appState (fst (feed (ds ++ [d]) w))) = upd_heading d /\
             Main.currentPitch (Main.appState (fst (feed (ds ++ [d]) w))) = upd_pitch d).
Proof.
  assert (Hone : forall d (w : Main.World),
    Main.targetBody (Main.appState w) = None \/
    Main.hidden (Main.dom w) Main.Screen_pointer = true ->
    Main.onUpdate d w =
    (Main.debug d
       {| Main.appState :=
            Main.setOrientation (upd_heading d) (upd_pitch d) (Main.appState w);
          Main.dom := Main.dom w;
          Main.navigator_vibrate := Main.navigator_vibrate w |}, [])).
  { intros d w H. unfold Main.onUpdate.
    rewrite updatePointerUI_idle by exact H. reflexivity. }
  assert (Hstream : forall ds (w : Main.World),
    Main.targetBody (Main.appState w) = None \/
    Main.hidden (Main.dom w) Main.Screen_pointer = true ->
    snd (feed ds w) = repeat [] (length ds) /\
    Main.dom (fst (feed ds w)) =
      with_debug_log
        (if Main.debug_overlay_hidden (Main.dom w) then Main.debug_log (Main.dom w)
         else List.last (map Main.debugText ds) (Main.debug_log (Main.dom w)))
        (Main.dom w) /\
    Main.isLocked (Main.appState (fst (feed ds w))) = Main.isLocked (Main.appState w) /\
    Main.targetBody (Main.appState (fst (feed ds w)))
      = Main.targetBody (Main.appState w)).
  { intros ds0. induction ds0 as [|d ds0 IH]; intros w H.
    - cbn [feed fst snd length repeat map List.last].
      repeat split. destruct w as [s [] v]. cbn.
      destruct debug_overlay_hidden; reflexivity.
    - rewrite feed_cons, (Hone d w H). cbn [fst snd].
      set (w1 := Main.debug d _).
      assert (H1 : Main.targetBody (Main.appState w1) = None \/
                   Main.hidden (Main.dom w1) Main.Screen_pointer = true) by exact H.
      destruct (IH w1 H1) as (I1 & I2 & I3 & I4).
      cbn [length repeat]. rewrite I1, I2, I3, I4.
      repeat split.
      cbn [map]. rewrite last_cons.
      destruct w as [s [] v]. cbn.
      destruct debug_overlay_hidden; reflexivity. }
  intros w H r. destruct (Hstream ds w H) as (S1 & S2 & S3 & S4).
  assert (Hidle : Main.targetBody (Main.appState (fst (feed ds w))) = None \/
                  Main.hidden (Main.dom (fst (feed ds w))) Main.Screen_pointer = true).
  { rewrite S2, S4. exact H. }
  split; [exact S1|]. split; [exact S2|]. split.
  - intros Hd. subst r. rewrite S2, Hd. destruct w as [s [] v]. reflexivity.
  - split; [exact S3|]. split; [exact S4|]. intros d.
    rewrite feed_app. cbn [fst]. rewrite feed_cons. cbn [feed fst].
    rewrite (Hone d _ Hidle). split; reflexivity.
Qed.

Lemma idle_stream_is_silent_witness :
  let w := Main.debugToggle
             (Main.back (fst (Main.startTracking Jupiter
               (fst (Main.onUpdate (reading 120 40) (Main.initialWorld true)))))) in
  let ds := [reading 120 40; reading 10 0; reading 119 41] in
  let r := feed ds w in
  snd r = repeat [] (length ds) /\
  Main.dom (fst r) =
    with_debug_log
      (if Main.debug_overlay_hidden (Main.dom w) then Main.debug_log (Main.dom w)
       else List.last (map Main.debugText ds) (Main.debug_log (Main.dom w)))
      (Main.dom w) /\
  (Main.debug_overlay_hidden (Main.dom w) = true -> Main.dom (fst r) = Main.dom w) /\
  Main.isLocked (Main.appState (fst r)) = Main.isLocked (Main.appState w) /\
  Main.targetBody (Main.appState (fst r)) = Main.targetBody (Main.appState w) /\
  (forall d, Main.currentHeading (Main.appState (fst (feed (ds ++ [d]) w))) = upd_heading d /\
             Main.currentPitch (Main.appState (fst (feed (ds ++ [d]) w))) = upd_pitch d).
Proof.
  intros w ds. apply (idle_stream_is_silent ds w). left. reflexivity.
Defined.

Lemma onUpdate_step (d : Update) (w : Main.World) (target : Body) :
  Main.targetBody (Main.appState w) = Some target ->
  Main.hidden (Main.dom w) Main.Screen_pointer = false ->
  let w' := fst (Main.onUpdate d w) in
  Main.targetBody (Main.appState w') = Some target /\
  Main.hidden (Main.dom w') Main.Screen_pointer = false /\
  Main.currentHeading (Main.appState w') = upd_heading d /\
  Main.currentPitch (Main.appState w') = upd_pitch d /\
  Main.isLocked (Main.appState w') =
    Main.isAligned target
      (Main.setOrientation (upd_heading d) (upd_pitch d) (Main.appState w)).
Proof.
  intros Ht Hh.
  destruct (onUpdate_edge w target d Ht Hh) as (A & B & _ & C & D & E & _).
  repeat split; assumption.
Qed.

Lemma feed_keeps_tracking (ds : list Update) : forall (w : Main.World) (target : Body),
  Main.targetBody (Main.appState w) = Some target ->
  Main.hidden (Main.dom w) Main.Screen_pointer = false ->
  Main.targetBody (Main.appState (fst (feed ds w))) = Some target /\
  Main.hidden (Main.dom (fst (feed ds w))) Main.Screen_pointer = false.
Proof.
  induction ds as [|d ds IH]; intros w target Ht Hh; [split; assumption|].
  rewrite feed_cons. cbn [fst].
  destruct (onUpdate_step d w target Ht Hh) as (A & B & _).
  apply IH; assumption.
Qed.

(** X11.  While a target is tracked on the pointer screen, sensor
    updates never change the target or the screen, and after any stream
    the stored orientation is the last reading and the lock flag is
    exactly "the last reading is aligned with the target": the flag has
    no memory beyond the latest evaluation. *)
Theorem tracking_stream (ds : list Update) (d : Update)
  (w : Main.World) (target : Body) :
  Main.targetBody (Main.appState w) = Some target ->
  Main.hidden (Main.dom w) Main.Screen_pointer = false ->
  let w' := fst (feed (ds ++ [d]) w) in
  Main.targetBody (Main.appState w') = Some target /\
  Main.hidden (Main.dom w') Main.Screen_pointer = false /\
  Main.currentHeading (Main.appState w') = upd_heading d /\
  Main.currentPitch (Main.appState w') = upd_pitch d /\
  Main.isLocked (Main.appState w') =
    Main.isAligned target
      (Main.setOrientation (upd_heading d) (upd_pitch d) (Main.appState w)).
Proof.
  intros Ht Hh w'. unfold w'. rewrite feed_app. cbn [fst snd].
  destruct (feed_keeps_tracking ds w target Ht Hh) as [Ht1 Hh1].
  rewrite feed_cons. cbn [feed fst snd].
  destruct (onUpdate_step d _ target Ht1 Hh1) as (A & B & C & D & E).
  repeat split; assumption.
Qed.

Lemma tracking_stream_witness :
  let w := fst (Main.startTracking Jupiter (Main.initialWorld true)) in
  let ds := [reading 120 40; reading 10 0] in
  let d := reading 119 41 in
  let w' := fst (feed (ds ++ [d]) w) in
  Main.targetBody (Main.appState w') = Some Jupiter /\
  Main.hidden (Main.dom w') Main.Screen_pointer = false /\
  Main.currentHeading (Main.appState w') = upd_heading d /\
  Main.currentPitch (Main.appState w') = upd_pitch d /\
  Main.isLocked (Main.appState w') =
    Main.isAligned Jupiter
      (Main.setOrientation (upd_heading d) (upd_pitch d) (Main.appState w)).
Proof.
  intros w ds d. apply (tracking_stream ds d w Jupiter); reflexivity.
Defined.

(* --------------------------------------------------------------------- *)
(** *** What the pointer screen shows *)
(* --------------------------------------------------------------------- *)

Lemma turnText_cases (x : Q) :
  (Qabs x < 2 /\ Main.turnText x = "Face: OK"%string) \/
  (2 <= Qabs x /\ 0 < x /\ Main.turnText x = ("Turn RIGHT " ++ formatDeg x)%string) \/
  (2 <= Qabs x /\ x <= 0 /\
   Main.turnText x = ("Turn LEFT " ++ formatDeg (Qabs x))%string).
Proof.
  unfold Main.turnText.
  destruct (Qltb (Qabs x) 2) eqn:H2.
  - left. split; [apply Qltb_lt; exact H2 | reflexivity].
  - assert (Hge : 2 <= Qabs x).
    { apply Qnot_lt_le. intros H. apply Qltb_lt in H. congruence. }
    destruct (Qltb 0 x) eqn:H0.
    + right. left. split; [exact Hge|]. split; [apply Qltb_lt; exact H0 | reflexivity].
    + right. right. split; [exact Hge|]. split; [|reflexivity].
      apply Qnot_lt_le. intros H. apply Qltb_lt in H. congruence.
Qed.

Lemma tiltText_cases (x : Q) :
  (Qabs x < 2 /\ Main.tiltText x = "Tilt: OK"%string) \/
  (2 <= Qabs x /\ 0 < x /\ Main.tiltText x = ("Tilt UP " ++ formatDeg x)%string) \/
  (2 <= Qabs x /\ x <= 0 /\
   Main.tiltText x = ("Tilt DOWN " ++ formatDeg (Qabs x))%string).
Proof.
  unfold Main.tiltText.
  destruct (Qltb (Qabs x) 2) eqn:H2.
  - left. split; [apply Qltb_lt; exact H2 | reflexivity].
  - assert (Hge : 2 <= Qabs x).
    { apply Qnot_lt_le. intros H. apply Qltb_lt in H. congruence. }
    destruct (Qltb 0 x) eqn:H0.
    + right. left. split; [exact Hge|]. split; [apply Qltb_lt; exact H0 | reflexivity].
    + right. right. split; [exact Hge|]. split; [|reflexivity].
      apply Qnot_lt_le. intros H. apply Qltb_lt in H. congruence.
Qed.

Lemma turnText_not_aligned_text (x : Q) : Main.turnText x <> "ALIGNED"%string.
Proof.
  destruct (turnText_cases x) as [(_ & ->) | [(_ & _ & ->) | (_ & _ & ->)]];
    cbn; discriminate.
Qed.

Lemma tiltText_not_aligned_text (x : Q) : Main.tiltText x <> "ALIGNED"%string.
Proof.
  destruct (tiltText_cases x) as [(_ & ->) | [(_ & _ & ->) | (_ & _ & ->)]];
    cbn; discriminate.
Qed.

(** The document after an evaluation that passes the guard. *)
Lemma updatePointerUI_dom (w : Main.World) (target : Body) :
  Main.targetBody (Main.appState w) = Some target ->
  Main.hidden (Main.dom w) Main.Screen_pointer = false ->
  let d' := Main.dom (fst (Main.updatePointerUI w)) in
  let aligned := Main.isAligned target (Main.appState w) in
  Main.arrow_hidden d' = aligned /\
  Main.lock_hidden d' = negb aligned /\
  Main.turn_msg d' =
    (if aligned then "ALIGNED"%string
     else Main.turnText (Main.azDiff target (Main.appState w))) /\
  Main.tilt_msg d' =
    (if aligned then "ALIGNED"%string
     else Main.tiltText (Main.altDiff target (Main.appState w))) /\
  Main.arrow_rotation d' =
    (if aligned then Main.arrow_rotation (Main.dom w)
     else Some (Main.azDiff target (Main.appState w))) /\
  Main.status_message_hidden d' = negb (Qltb (alt target) 0) /\
  Main.status_message d' =
    (if Qltb (alt target) 0 then "Target is Below Horizon!"%string
     else Main.status_message (Main.dom w)).
Proof.
  intros Ht Hh. unfold Main.updatePointerUI. rewrite Ht, Hh.
  destruct (Main.isAligned target (Main.appState w)) eqn:Ha.
  - destruct (negb (Main.isLocked (Main.appState w))); cbn; repeat split.
  - cbn. repeat split.
Qed.

(** X12.  After every evaluation on the pointer screen the indicators
    agree with the lock flag: the lock symbol is shown exactly when the
    flag is set, the arrow exactly when it is clear, and each of the two
    messages reads "ALIGNED" exactly when the flag is set. *)
Theorem indicators_follow_lock (w : Main.World) (target : Body) :
  Main.targetBody (Main.appState w) = Some target ->
  Main.hidden (Main.dom w) Main.Screen_pointer = false ->
  let w' := fst (Main.updatePointerUI w) in
  let locked := Main.isLocked (Main.appState w') in
  Main.lock_hidden (Main.dom w') = negb locked /\
  Main.arrow_hidden (Main.dom w') = locked /\
  (Main.turn_msg (Main.dom w') = "ALIGNED"%string <-> locked = true) /\
  (Main.tilt_msg (Main.dom w') = "ALIGNED"%string <-> locked = true).
Proof.
  intros Ht Hh w' locked.
  destruct (updatePointerUI_step w target Ht Hh) as (_ & _ & _ & _ & _ & Hl & _).
  destruct (updatePointerUI_dom w target Ht Hh) as (A & B & C & D & _).
  cbn zeta in *. unfold locked, w'. rewrite Hl, A, B, C, D.
  destruct (Main.isAligned target (Main.appState w)).
  - repeat split; reflexivity.
  - split; [reflexivity|]. split; [reflexivity|]. split; split; intros H.
    + exfalso. exact (turnText_not_aligned_text _ H).
    + discriminate H.
    + exfalso. exact (tiltText_not_aligned_text _ H).
    + discriminate H.
Qed.

Lemma indicators_follow_lock_witness :
  let w := fst (Main.startTracking Jupiter (Main.initialWorld true)) in
  let w' := fst (Main.updatePointerUI w) in
  let locked := Main.isLocked (Main.appState w') in
  Main.lock_hidden (Main.dom w') = negb locked /\
  Main.arrow_hidden (Main.dom w') = locked /\
  (Main.turn_msg (Main.dom w') = "ALIGNED"%string <-> locked = true) /\
  (Main.tilt_msg (Main.dom w') = "ALIGNED"%string <-> locked = true).
Proof.
  intros w. apply (indicators_follow_lock w Jupiter); reflexivity.
Defined.

(** X13.  Guidance when not aligned.  The turn message is "Face: OK"
    only if the altitude is off by at least 6 degrees, and the tilt
    message is "Tilt: OK" only if the azimuth is off by at least 6 degrees,
    so the two are never both "OK"; otherwise the turn message says RIGHT
    for a positive and LEFT for a negative azimuth difference of at least
    2 degrees, and the arrow is rotated by the signed azimuth difference. *)
Theorem guidance_when_not_aligned (w : Main.World) (target : Body) :
  Main.targetBody (Main.appState w) = Some target ->
  Main.hidden (Main.dom w) Main.Screen_pointer = false ->
  Main.isAligned target (Main.appState w) = false ->
  let d' := Main.dom (fst (Main.updatePointerUI w)) in
  let azDiff := Main.azDiff target (Main.appState w) in
  let altDiff := Main.altDiff target (Main.appState w) in
  (Main.turn_msg d' = "Face: OK"%string -> 6 <= Qabs altDiff) /\
  (Main.tilt_msg d' = "Tilt: OK"%string -> 6 <= Qabs azDiff) /\
  (2 <= azDiff -> Main.turn_msg d' = ("Turn RIGHT " ++ formatDeg azDiff)%string) /\
  (azDiff <= -2 -> Main.turn_msg d' = ("Turn LEFT " ++ formatDeg (Qabs azDiff))%string) /\
  (2 <= altDiff -> Main.tilt_msg d' = ("Tilt UP " ++ formatDeg altDiff)%string) /\
  (altDiff <= -2 -> Main.tilt_msg d' = ("Tilt DOWN " ++ formatDeg (Qabs altDiff))%string) /\
  Main.arrow_rotation d' = Some azDiff.
Proof.
  intros Ht Hh Hna d' azDiff altDiff.
  destruct (updatePointerUI_dom w target Ht Hh) as (_ & _ & C & D & E & _).
  cbn zeta in C, D, E. rewrite Hna in C, D, E. fold d' azDiff altDiff in C, D, E.
  assert (Hnot : ~ (Qabs azDiff < 6 /\ Qabs altDiff < 6)).
  { intros H. apply isAligned_spec in H. congruence. }
  rewrite C, D, E.
  split; [|split; [|split; [|split; [|split; [|split]]]]].
  - intros H. apply Qnot_lt_le. intros H6. apply Hnot. split; [|exact H6].
    destruct (turnText_cases azDiff) as [(T1 & _) | [(_ & _ & T) | (_ & _ & T)]];
      [lra | |]; rewrite T in H; cbn in H; discriminate H.
  - intros H. apply Qnot_lt_le. intros H6. apply Hnot. split; [exact H6|].
    destruct (tiltText_cases altDiff) as [(T1 & _) | [(_ & _ & T) | (_ & _ & T)]];
      [lra | |]; rewrite T in H; cbn in H; discriminate H.
  - intros H.
    destruct (turnText_cases azDiff) as [(T1 & _) | [(_ & _ & T) | (_ & T1 & _)]];
      [apply Qabs_Qlt_condition in T1; lra | exact T | lra].
  - intros H.
    destruct (turnText_cases azDiff) as [(T1 & _) | [(_ & T1 & _) | (_ & _ & T)]];
      [apply Qabs_Qlt_condition in T1; lra | lra | exact T].
  - intros H.
    destruct (tiltText_cases altDiff) as [(T1 & _) | [(_ & _ & T) | (_ & T1 & _)]];
      [apply Qabs_Qlt_condition in T1; lra | exact T | lra].
  - intros H.
    destruct (tiltText_cases altDiff) as [(T1 & _) | [(_ & T1 & _) | (_ & _ & T)]];
      [apply Qabs_Qlt_condition in T1; lra | lra | exact T].
  - reflexivity.
Qed.

Lemma guidance_when_not_aligned_witness :
  let w := fst (Main.onUpdate (reading 114 36)
             (fst (Main.startTracking Jupiter (Main.initialWorld true)))) in
  let d' := Main.dom (fst (Main.updatePointerUI w)) in
  let azDiff := Main.azDiff Jupiter (Main.appState w) in
  let altDiff := Main.altDiff Jupiter (Main.appState w) in
  (Main.turn_msg d' = "Face: OK"%string -> 6 <= Qabs altDiff) /\
  (Main.tilt_msg d' = "Tilt: OK"%string -> 6 <= Qabs azDiff) /\
  (2 <= azDiff -> Main.turn_msg d' = ("Turn RIGHT " ++ formatDeg azDiff)%string) /\
  (azDiff <= -2 -> Main.turn_msg d' = ("Turn LEFT " ++ formatDeg (Qabs azDiff))%string) /\
  (2 <= altDiff -> Main.tilt_msg d' = ("Tilt UP " ++ formatDeg altDiff)%string) /\
  (altDiff <= -2 -> Main.tilt_msg d' = ("Tilt DOWN " ++ formatDeg (Qabs altDiff))%string) /\
  Main.arrow_rotation d' = Some azDiff.
Proof.
  intros w. apply (guidance_when_not_aligned w Jupiter); vm_compute; reflexivity.
Defined.

Lemma getStatus_cases (x : Q) :
  (x < 0 /\ Astronomy.getStatus x = "BELOW HORIZON"%string) \/
  (0 <= x /\ x < 5 /\ Astronomy.getStatus x = "ABOVE HORIZON"%string) \/
  (5 <= x /\ Astronomy.getStatus x = "GOOD"%string).
Proof.
  unfold Astronomy.getStatus.
  destruct (Qltb x 0) eqn:H0.
  - left. split; [apply Qltb_lt; exact H0 | reflexivity].
  - assert (Hge : 0 <= x).
    { apply Qnot_lt_le. intros H. apply Qltb_lt in H. congruence. }
    destruct (Qltb x 5) eqn:H5.
    + right. left. split; [exact Hge|]. split; [apply Qltb_lt; exact H5 | reflexivity].
    + right. right. split; [|reflexivity].
      apply Qnot_lt_le. intros H. apply Qltb_lt in H. congruence.
Qed.

Lemma roster_status (horizon : string -> Q * Q) (body : Body) :
  In body (Astronomy.getCelestialPositions horizon) ->
  status body = Astronomy.getStatus (alt body) /\ In (name body) Astronomy.BODIES.
Proof.
  unfold Astronomy.getCelestialPositions. intros H.
  apply in_map_iff in H. destruct H as (n & <- & Hn). split; [reflexivity | exact Hn].
Qed.

(** X14.  The list and the pointer screen agree about the horizon.
    For every body returned by [getCelestialPositions], whatever the
    ephemeris says: its badge class is "status-below" exactly when its
    altitude is negative, "status-above" for altitudes in [[0,5)] and
    "status-good" from 5 degrees up; and when it is tracked, an evaluation
    shows the "Target is Below Horizon!" warning exactly when its status
    is "BELOW HORIZON", aligned or not. *)
Theorem horizon_warning_matches_status
  (horizon : string -> Q * Q) (body : Body) (w : Main.World) :
  In body (Astronomy.getCelestialPositions horizon) ->
  Main.targetBody (Main.appState w) = Some body ->
  Main.hidden (Main.dom w) Main.Screen_pointer = false ->
  let d' := Main.dom (fst (Main.updatePointerUI w)) in
  (Main.status_message_hidden d' = false <-> status body = "BELOW HORIZON"%string) /\
  (Main.status_message_hidden d' = false ->
   Main.status_message d' = "Target is Below Horizon!"%string) /\
  (statusClass (status body) = "status-below"%string <-> alt body < 0) /\
  (statusClass (status body) = "status-above"%string <-> 0 <= alt body /\ alt body < 5) /\
  (statusClass (status body) = "status-good"%string <-> 5 <= alt body).
Proof.
  intros Hin Ht Hh d'.
  destruct (roster_status horizon body Hin) as [Hs _].
  destruct (updatePointerUI_dom w body Ht Hh) as (_ & _ & _ & _ & _ & F & G).
  cbn zeta in F, G. fold d' in F, G. rewrite F, G, Hs.
  destruct (getStatus_cases (alt body)) as [(A & ->) | [(A & B & ->) | (A & ->)]].
  - assert (L : Qltb (alt body) 0 = true) by (apply Qltb_lt; exact A).
    rewrite L. cbn. repeat split; try reflexivity; try discriminate; try lra;
      intros; lra.
  - assert (L : Qltb (alt body) 0 = false).
    { apply not_true_is_false. intros H. apply Qltb_lt in H. lra. }
    rewrite L. cbn. repeat split; try reflexivity; try discriminate; try lra;
      try assumption; intros; lra.
  - assert (L : Qltb (alt body) 0 = false).
    { apply not_true_is_false. intros H. apply Qltb_lt in H. lra. }
    rewrite L. cbn. repeat split; try reflexivity; try discriminate; try lra;
      try assumption; intros; lra.
Qed.

Lemma horizon_warning_matches_status_witness :
  let horizon := fun n : string => if String.eqb n "Mars" then (-12, 250) else (30, 100) in
  let body := mkBody "Mars" (-12) 250 "BELOW HORIZON" in
  let w := fst (Main.startTracking body (Main.initialWorld false)) in
  let d' := Main.dom (fst (Main.updatePointerUI w)) in
  (Main.status_message_hidden d' = false <-> status body = "BELOW HORIZON"%string) /\
  (Main.status_message_hidden d' = false ->
   Main.status_message d' = "Target is Below Horizon!"%string) /\
  (statusClass (status body) = "status-below"%string <-> alt body < 0) /\
  (statusClass (status body) = "status-above"%string <-> 0 <= alt body /\ alt body < 5) /\
  (statusClass (status body) = "status-good"%string <-> 5 <= alt body).
Proof.
  intros horizon body w.
  apply (horizon_warning_matches_status horizon body w); [|reflexivity|reflexivity].
  vm_compute. do 4 right. left. reflexivity.
Defined.

(* ===================================================================== *)
(** ** Properties of the muhurta feature *)
(* ===================================================================== *)

(* --------------------------------------------------------------------- *)
(** *** The time windows *)
(* --------------------------------------------------------------------- *)

(** X15.  [computeMuhurta] fails exactly when there is no sunrise or
    sunset.  Otherwise it reports the sunrise and sunset it was given,
    and three windows of 48 minutes each: Brahma Muhurta runs from 96 to
    48 minutes before sunrise, the morning sandhya from 24 minutes before
    sunrise to 24 minutes after it, so that it follows Brahma Muhurta
    after a gap of 24 minutes and is centred on sunrise, and the evening
    sandhya from 24 minutes before sunset to 24 minutes after it; the
    morning and evening windows are disjoint as soon as sunset is at
    least 48 minutes after sunrise. *)
Theorem computeMuhurta_windows
  (timeZone : string) (getSunriseSunset : Z -> Q -> Q -> option Muhurta.SunTimes)
  (date : Z) (lat lon : Q) :
  match Muhurta.computeMuhurta timeZone getSunriseSunset date lat lon with
  | inl msg =>
      getSunriseSunset date lat lon = None /\
      msg = "No sunrise/sunset at this location today."%string
  | inr t =>
      (exists times, getSunriseSunset date lat lon = Some times /\
         Muhurta.sunrise t = Muhurta.st_sunrise times /\
         Muhurta.sunset t = Muhurta.st_sunset times) /\
      (Muhurta.start (Muhurta.brahma t) = Muhurta.sunrise t - 2 * ms_48min /\
       Muhurta.end_ (Muhurta.brahma t) = Muhurta.sunrise t - ms_48min /\
       Muhurta.start (Muhurta.pratahSandhya t) = Muhurta.sunrise t - ms_24min /\
       Muhurta.end_ (Muhurta.pratahSandhya t) = Muhurta.sunrise t + ms_24min /\
       Muhurta.start (Muhurta.sayamSandhya t) = Muhurta.sunset t - ms_24min /\
       Muhurta.end_ (Muhurta.sayamSandhya t) = Muhurta.sunset t + ms_24min /\
       Muhurta.start (Muhurta.pratahSandhya t) - Muhurta.end_ (Muhurta.brahma t)
         = ms_24min /\
       Muhurta.end_ (Muhurta.brahma t) - Muhurta.start (Muhurta.brahma t) = ms_48min /\
       Muhurta.end_ (Muhurta.pratahSandhya t) - Muhurta.start (Muhurta.pratahSandhya t)
         = ms_48min /\
       Muhurta.end_ (Muhurta.sayamSandhya t) - Muhurta.start (Muhurta.sayamSandhya t)
         = ms_48min /\
       Muhurta.start (Muhurta.brahma t) < Muhurta.end_ (Muhurta.brahma t)
         < Muhurta.start (Muhurta.pratahSandhya t) /\
       Muhurta.start (Muhurta.pratahSandhya t) < Muhurta.sunrise t
         < Muhurta.end_ (Muhurta.pratahSandhya t) /\
       Muhurta.start (Muhurta.sayamSandhya t) < Muhurta.sunset t
         < Muhurta.end_ (Muhurta.sayamSandhya t) /\
       (Muhurta.sunrise t + ms_48min <= Muhurta.sunset t ->
        Muhurta.end_ (Muhurta.pratahSandhya t)
          <= Muhurta.start (Muhurta.sayamSandhya t)))%Z /\
      Muhurta.timezone t = timeZone
  end.
Proof.
  unfold Muhurta.computeMuhurta, ms_48min, ms_24min.
  destruct (getSunriseSunset date lat lon) as [times|].
  - cbn [Muhurta.sunrise Muhurta.sunset Muhurta.brahma Muhurta.pratahSandhya
         Muhurta.sayamSandhya Muhurta.start Muhurta.end_ Muhurta.timezone].
    split; [exists times; repeat split|]. split; [|reflexivity].
    repeat split; lia.
  - split; reflexivity.
Qed.

(* --------------------------------------------------------------------- *)
(** *** Strings of digits *)
(* --------------------------------------------------------------------- *)

Lemma string_length_app (a b : string) :
  String.length (a ++ b) = (String.length a + String.length b)%nat.
Proof.
  induction a as [|c a IH]; [reflexivity|].
  change (S (String.length (a ++ b)) = S (String.length a + String.length b)).
  rewrite IH. reflexivity.
Qed.

Lemma string_app_assoc (a b c : string) :
  ((a ++ b) ++ c)%string = (a ++ b ++ c)%string.
Proof.
  induction a as [|x a IH]; [reflexivity|].
  change (String x ((a ++ b) ++ c) = String x (a ++ b ++ c)).
  rewrite IH. reflexivity.
Qed.

Lemma string_app_inj (a a' b b' : string) :
  String.length a = String.length a' ->
  (a ++ b)%string = (a' ++ b')%string -> a = a' /\ b = b'.
Proof.
  revert a'. induction a as [|c a IH]; intros [|c' a'] Hlen H; cbn in *;
    try discriminate.
  - split; [reflexivity | exact H].
  - injection H as Hc Hrest. injection Hlen as Hlen.
    destruct (IH a' Hlen Hrest) as [-> ->]. subst. split; reflexivity.
Qed.

Lemma string_get_app (a b : string) (c : ascii) :
  String.get (String.length a) (a ++ String c b) = Some c.
Proof. induction a as [|c' a IH]; cbn; [reflexivity | exact IH]. Qed.

Lemma digits_inj (n m : Z) :
  (0 <= n)%Z -> (0 <= m)%Z -> digits n = digits m -> n = m.
Proof.
  intros Hn Hm H. unfold digits in H.
  assert (Hnil : forall x : N, N.to_uint x <> Decimal.Nil).
  { intros [|p]; [discriminate | apply DecimalPos.Unsigned.to_uint_nonnil]. }
  apply (f_equal NilZero.uint_of_string) in H.
  rewrite !NilZero.usu in H by apply Hnil.
  injection H as H. apply DecimalN.Unsigned.to_uint_inj in H. lia.
Qed.

(** Checking a property of every integer of a range by running it. *)
Lemma range_forallb (P : Z -> bool) (lo : Z) (n : nat) :
  forallb P (List.map (fun i => (lo + Z.of_nat i)%Z) (seq 0 n)) = true ->
  forall z, (lo <= z < lo + Z.of_nat n)%Z -> P z = true.
Proof.
  intros H z Hz. rewrite forallb_forall in H. apply H.
  apply in_map_iff. exists (Z.to_nat (z - lo)). split; [lia|].
  apply in_seq. lia.
Qed.

Lemma pad_length (n : Z) : (0 <= n < 100)%Z -> String.length (Muhurta.pad n) = 2%nat.
Proof.
  intros H.
  pose proof (range_forallb
    (fun z => Nat.eqb (String.length (Muhurta.pad z)) 2) 0 100 eq_refl n) as R.
  apply Nat.eqb_eq. apply R. lia.
Qed.

Lemma pad_form (n : Z) :
  (0 <= n < 100)%Z ->
  Muhurta.pad n = if (n <? 10)%Z then String "0" (digits n) else digits n.
Proof.
  intros H.
  pose proof (range_forallb
    (fun z => String.eqb (Muhurta.pad z)
                (if (z <? 10)%Z then String "0" (digits z) else digits z))
    0 100 eq_refl n) as R.
  apply String.eqb_eq. apply R. lia.
Qed.

Lemma digits_two_no_leading_zero (n : Z) :
  (10 <= n < 100)%Z -> forall s, digits n <> String "0" s.
Proof.
  intros H s E.
  pose proof (range_forallb
    (fun z => match digits z with
              | String c _ => negb (Ascii.eqb c "0")
              | EmptyString => false
              end) 10 90 eq_refl n) as R.
  specialize (R ltac:(lia)). cbv beta in R. rewrite E in R. discriminate R.
Qed.

Lemma pad_inj (n m : Z) :
  (0 <= n < 100)%Z -> (0 <= m < 100)%Z -> Muhurta.pad n = Muhurta.pad m -> n = m.
Proof.
  intros Hn Hm H. rewrite (pad_form n Hn), (pad_form m Hm) in H.
  destruct (n <? 10)%Z eqn:En, (m <? 10)%Z eqn:Em.
  - injection H as H. apply digits_inj; [lia | lia | exact H].
  - apply Z.ltb_ge in Em. symmetry in H.
    exfalso. exact (digits_two_no_leading_zero m ltac:(lia) _ H).
  - apply Z.ltb_ge in En.
    exfalso. exact (digits_two_no_leading_zero n ltac:(lia) _ H).
  - apply digits_inj; [lia | lia | exact H].
Qed.

Lemma year_length (y : Z) :
  (1000 <= y <= 9999)%Z -> String.length (JsText.numberToString y) = 4%nat.
Proof.
  intros H.
  pose proof (range_forallb
    (fun z => Nat.eqb (String.length (JsText.numberToString z)) 4)
    1000 (Z.to_nat 9000) ltac:(vm_compute; reflexivity) y) as R.
  apply Nat.eqb_eq. apply R. lia.
Qed.

Lemma year_inj (y y' : Z) :
  (0 <= y)%Z -> (0 <= y')%Z ->
  JsText.numberToString y = JsText.numberToString y' -> y = y'.
Proof.
  intros Hy Hy'. unfold JsText.numberToString.
  destruct (Z.ltb_spec y 0); [lia|]. destruct (Z.ltb_spec y' 0); [lia|].
  apply digits_inj; assumption.
Qed.

(* --------------------------------------------------------------------- *)
(** *** Calendar export *)
(* --------------------------------------------------------------------- *)

(** X16.  For local times with a four-digit year, [formatDate] writes
    exactly 15 characters with the letter T in ninth place
    ([YYYYMMDDTHHMMSS]), and two dates get the same text only if all their
    local calendar fields are equal. *)
Theorem formatDate_layout (localTime : Z -> Muhurta.LocalTime) (d1 d2 : Z) :
  plausible (localTime d1) -> plausible (localTime d2) ->
  String.length (Muhurta.formatDate localTime d1) = 15%nat /\
  String.get 8 (Muhurta.formatDate localTime d1) = Some "T"%char /\
  (Muhurta.formatDate localTime d1 = Muhurta.formatDate localTime d2 ->
   localTime d1 = localTime d2).
Proof.
  intros (Y1 & M1 & D1 & h1 & m1 & s1) (Y2 & M2 & D2 & h2 & m2 & s2).
  unfold Muhurta.formatDate.
  destruct (localTime d1) as [y mo da ho mi se].
  destruct (localTime d2) as [y' mo' da' ho' mi' se'].
  cbn [Muhurta.getFullYear Muhurta.getMonth Muhurta.getDate Muhurta.getHours
       Muhurta.getMinutes Muhurta.getSeconds] in *.
  pose proof (year_length y Y1) as Ly. pose proof (year_length y' Y2) as Ly'.
  pose proof (pad_length (mo + 1) ltac:(lia)) as Lmo.
  pose proof (pad_length (mo' + 1) ltac:(lia)) as Lmo'.
  pose proof (pad_length da ltac:(lia)) as Lda.
  pose proof (pad_length da' ltac:(lia)) as Lda'.
  pose proof (pad_length ho ltac:(lia)) as Lho.
  pose proof (pad_length ho' ltac:(lia)) as Lho'.
  pose proof (pad_length mi ltac:(lia)) as Lmi.
  pose proof (pad_length mi' ltac:(lia)) as Lmi'.
  pose proof (pad_length se ltac:(lia)) as Lse.
  split; [|split].
  - rewrite !string_length_app, Ly, Lmo, Lda, Lho, Lmi, Lse. reflexivity.
  - set (tail := (Muhurta.pad ho ++ Muhurta.pad mi ++ Muhurta.pad se)%string).
    replace (JsText.numberToString y ++ Muhurta.pad (mo + 1) ++ Muhurta.pad da
             ++ "T" ++ tail)%string
      with ((JsText.numberToString y ++ Muhurta.pad (mo + 1) ++ Muhurta.pad da)
            ++ String "T" tail)%string.
    + replace 8%nat with (String.length
        (JsText.numberToString y ++ Muhurta.pad (mo + 1) ++ Muhurta.pad da)).
      * apply string_get_app.
      * rewrite !string_length_app, Ly, Lmo, Lda. reflexivity.
    + rewrite !string_app_assoc. reflexivity.
  - intros H.
    apply (string_app_inj (JsText.numberToString y) (JsText.numberToString y')) in H;
      [|congruence]. destruct H as [Ey H].
    apply (string_app_inj (Muhurta.pad (mo + 1)) (Muhurta.pad (mo' + 1))) in H;
      [|congruence]. destruct H as [Emo H].
    apply (string_app_inj (Muhurta.pad da) (Muhurta.pad da')) in H;
      [|congruence]. destruct H as [Eda H].
    apply (string_app_inj "T" "T") in H; [|reflexivity]. destruct H as [_ H].
    apply (string_app_inj (Muhurta.pad ho) (Muhurta.pad ho')) in H;
      [|congruence]. destruct H as [Eho H].
    apply (string_app_inj (Muhurta.pad mi) (Muhurta.pad mi')
             (Muhurta.pad se) (Muhurta.pad se')) in H;
      [|congruence]. destruct H as [Emi Ese].
    apply year_inj in Ey; [|lia|lia].
    apply pad_inj in Emo; [|lia|lia]. apply pad_inj in Eda; [|lia|lia].
    apply pad_inj in Eho; [|lia|lia]. apply pad_inj in Emi; [|lia|lia].
    apply pad_inj in Ese; [|lia|lia].
    f_equal; lia.
Qed.

Lemma formatDate_layout_witness :
  let localTime := fun t : Z =>
    Muhurta.mkLocalTime 2025 0 5 6 (t mod 60) 9 in
  String.length (Muhurta.formatDate localTime 7%Z) = 15%nat /\
  String.get 8 (Muhurta.formatDate localTime 7%Z) = Some "T"%char /\
  (Muhurta.formatDate localTime 7%Z = Muhurta.formatDate localTime 8%Z ->
   localTime 7%Z = localTime 8%Z).
Proof.
  intros localTime.
  apply (formatDate_layout localTime 7%Z 8%Z);
    unfold plausible, localTime; repeat split; vm_compute; discriminate.
Defined.

(** The year is not padded: before the year 1000 the text is shorter. *)
Example formatDate_year_999 :
  Muhurta.formatDate (fun _ => Muhurta.mkLocalTime 999 11 31 23 59 59) 0%Z
  = "9991231T235959"%string.
Proof. reflexivity. Qed.

Lemma occurrences_app (l : string) (a b : list string) :
  occurrences l (a ++ b) = (occurrences l a + occurrences l b)%nat.
Proof. unfold occurrences. rewrite List.filter_app, List.length_app. reflexivity. Qed.

(** The marker lines of one event, whatever its texts are. *)
Lemma event_block_markers
  (uid stamp dtStart dtEnd title desc trigger : string) (noDesc alarm : bool) :
  let lines :=
    ["BEGIN:VEVENT"; "UID:" ++ uid; "DTSTAMP:" ++ stamp; "DTSTART:" ++ dtStart;
     "DTEND:" ++ dtEnd; "SUMMARY:" ++ title]%string
    ++ (if noDesc then [] else ["DESCRIPTION:" ++ desc]%string)
    ++ (if alarm
        then ["BEGIN:VALARM"; "ACTION:DISPLAY"; "DESCRIPTION:Reminder";
              "TRIGGER:-PT" ++ trigger ++ "M"; "END:VALARM"]%string
        else [])
    ++ ["END:VEVENT"%string] in
  let n := if alarm then 1%nat else 0%nat in
  occurrences "BEGIN:VCALENDAR" lines = 0%nat /\
  occurrences "END:VCALENDAR" lines = 0%nat /\
  occurrences "BEGIN:VEVENT" lines = 1%nat /\
  occurrences "END:VEVENT" lines = 1%nat /\
  occurrences "BEGIN:VALARM" lines = n /\
  occurrences "END:VALARM" lines = n /\
  List.filter (starts_with "SUMMARY:") lines = [("SUMMARY:" ++ title)%string].
Proof. destruct noDesc, alarm; vm_compute; repeat split; reflexivity. Qed.

Lemma eventLines_markers
  (localTime : Z -> Muhurta.LocalTime) (clock dateNow : nat -> Z)
  (random36 : nat -> string) (i : nat) (ev : Muhurta.IcsEvent) :
  let lines := Muhurta.eventLines localTime clock dateNow random36 i ev in
  let alarm := if (0 <? Muhurta.ev_reminderMinutes ev)%Z then 1%nat else 0%nat in
  occurrences "BEGIN:VCALENDAR" lines = 0%nat /\
  occurrences "END:VCALENDAR" lines = 0%nat /\
  occurrences "BEGIN:VEVENT" lines = 1%nat /\
  occurrences "END:VEVENT" lines = 1%nat /\
  occurrences "BEGIN:VALARM" lines = alarm /\
  occurrences "END:VALARM" lines = alarm /\
  List.filter (starts_with "SUMMARY:") lines = [("SUMMARY:" ++ Muhurta.ev_title ev)%string].
Proof.
  exact (event_block_markers
    (JsText.numberToString (dateNow i) ++ "-" ++ random36 i ++ "@starsapp")
    (Muhurta.formatDate localTime (clock i) ++ "Z")
    (Muhurta.formatDate localTime (Muhurta.ev_start ev))
    (Muhurta.formatDate localTime (Muhurta.ev_end ev))
    (Muhurta.ev_title ev) (Muhurta.ev_description ev)
    (JsText.numberToString (Muhurta.ev_reminderMinutes ev))
    (String.eqb (Muhurta.ev_description ev) "")
    (0 <? Muhurta.ev_reminderMinutes ev)%Z).
Qed.

Lemma eventsLines_markers
  (localTime : Z -> Muhurta.LocalTime) (clock dateNow : nat -> Z)
  (random36 : nat -> string) (events : list Muhurta.IcsEvent) : forall i,
  let lines := Muhurta.eventsLines localTime clock dateNow random36 i events in
  occurrences "BEGIN:VCALENDAR" lines = 0%nat /\
  occurrences "END:VCALENDAR" lines = 0%nat /\
  occurrences "BEGIN:VEVENT" lines = length events /\
  occurrences "END:VEVENT" lines = length events /\
  occurrences "BEGIN:VALARM" lines = length (withReminder events) /\
  occurrences "END:VALARM" lines = length (withReminder events) /\
  List.filter (starts_with "SUMMARY:") lines
    = List.map (fun ev => ("SUMMARY:" ++ Muhurta.ev_title ev)%string) events.
Proof.
  induction events as [|ev events IH]; intros i; [cbn; repeat split|].
  cbn [Muhurta.eventsLines]. cbn zeta.
  destruct (eventLines_markers localTime clock dateNow random36 i ev)
    as (A1 & A2 & A3 & A4 & A5 & A6 & A7).
  destruct (IH (S i)) as (B1 & B2 & B3 & B4 & B5 & B6 & B7).
  cbn zeta in *.
  rewrite !occurrences_app, List.filter_app, A1, A2, A3, A4, A5, A6, A7,
    B1, B2, B3, B4, B5, B6, B7.
  unfold withReminder. cbn [List.filter length List.map].
  destruct (0 <? Muhurta.ev_reminderMinutes ev)%Z; repeat split.
Qed.

(** X17.  The calendar text is well bracketed whatever the events
    say.  Among the lines [buildIcsEvents] joins there is exactly one
    [BEGIN:VCALENDAR] and one [END:VCALENDAR], one [BEGIN:VEVENT] and one
    [END:VEVENT] per event, one [BEGIN:VALARM] and one [END:VALARM] per
    event with a positive reminder (and none for a reminder of 0 or
    less), and the [SUMMARY:] lines are the titles of the events, in
    order.  For no events the text is the empty calendar. *)
Theorem icsContent_structure
  (localTime : Z -> Muhurta.LocalTime) (clock dateNow : nat -> Z)
  (random36 : nat -> string) (events : list Muhurta.IcsEvent) :
  let lines := Muhurta.icsContent localTime clock dateNow random36 events in
  occurrences "BEGIN:VCALENDAR" lines = 1%nat /\
  occurrences "END:VCALENDAR" lines = 1%nat /\
  occurrences "BEGIN:VEVENT" lines = length events /\
  occurrences "END:VEVENT" lines = length events /\
  occurrences "BEGIN:VALARM" lines = length (withReminder events) /\
  occurrences "END:VALARM" lines = length (withReminder events) /\
  List.filter (starts_with "SUMMARY:") lines
    = List.map (fun ev => ("SUMMARY:" ++ Muhurta.ev_title ev)%string) events /\
  List.hd_error lines = Some "BEGIN:VCALENDAR"%string /\
  List.last lines ""%string = "END:VCALENDAR"%string /\
  Muhurta.buildIcsEvents localTime clock dateNow random36 [] = emptyCalendar.
Proof.
  intros lines. unfold lines, Muhurta.icsContent.
  destruct (eventsLines_markers localTime clock dateNow random36 events 0)
    as (B1 & B2 & B3 & B4 & B5 & B6 & B7).
  cbn zeta in *.
  set (body := Muhurta.eventsLines localTime clock dateNow random36 0 events) in *.
  rewrite !occurrences_app, !List.filter_app, B1, B2, B3, B4, B5, B6, B7.
  repeat match goal with
  | |- context [occurrences ?l (?x :: ?xs)] =>
      let v := eval vm_compute in (occurrences l (x :: xs)) in
      change (occurrences l (x :: xs)) with v
  end.
  split; [reflexivity|]. split; [reflexivity|].
  split; [lia|]. split; [lia|]. split; [lia|]. split; [lia|].
  split.
  { change (List.filter (starts_with "SUMMARY:")
              ["BEGIN:VCALENDAR"; "VERSION:2.0"; "PRODID:-//Stars App//Muhurta//EN";
               "CALSCALE:GREGORIAN"]%string) with (@nil string).
    change (List.filter (starts_with "SUMMARY:") ["END:VCALENDAR"%string])
      with (@nil string).
    rewrite app_nil_r. reflexivity. }
  split; [reflexivity|]. split; [|reflexivity].
  rewrite app_assoc. apply last_last.
Qed.

(* --------------------------------------------------------------------- *)
(** *** The events behind "Add to Calendar" *)
(* --------------------------------------------------------------------- *)

Lemma pickTimes_cases (title : string) (t : Muhurta.Timings) :
  (In title cardTitles /\
   exists s e, Muhurta.pickTimes title t = Some (s, e) /\
     ((title = "Sunrise"%string \/ title = "Sunset"%string) /\ (e - s = ms_10min)%Z \/
      (title = "Brahma Muhurta"%string /\
         s = Muhurta.start (Muhurta.brahma t) /\ e = Muhurta.end_ (Muhurta.brahma t)) \/
      (title = "Pratah Sandhya"%string /\
         s = Muhurta.start (Muhurta.pratahSandhya t) /\
         e = Muhurta.end_ (Muhurta.pratahSandhya t)) \/
      (title = "Sayam Sandhya"%string /\
         s = Muhurta.start (Muhurta.sayamSandhya t) /\
         e = Muhurta.end_ (Muhurta.sayamSandhya t)))) \/
  (~ In title cardTitles /\ Muhurta.pickTimes title t = None).
Proof.
  unfold Muhurta.pickTimes, cardTitles, ms_10min.
  destruct (String.eqb_spec title "Sunrise") as [->|N1].
  { left. split; [cbn; tauto|]. eexists _, _. split; [reflexivity|].
    left. split; [tauto | lia]. }
  destruct (String.eqb_spec title "Sunset") as [->|N2].
  { left. split; [cbn; tauto|]. eexists _, _. split; [reflexivity|].
    left. split; [tauto | lia]. }
  destruct (String.eqb_spec title "Brahma Muhurta") as [->|N3].
  { left. split; [cbn; tauto|]. eexists _, _. split; [reflexivity|].
    right. left. repeat split. }
  destruct (String.eqb_spec title "Pratah Sandhya") as [->|N4].
  { left. split; [cbn; tauto|]. eexists _, _. split; [reflexivity|].
    right. right. left. repeat split. }
  destruct (String.eqb_spec title "Sayam Sandhya") as [->|N5].
  { left. split; [cbn; tauto|]. eexists _, _. split; [reflexivity|].
    right. right. right. repeat split. }
  right. split; [|reflexivity]. cbn. intros [H|[H|[H|[H|[H|[]]]]]]; congruence.
Qed.

(** What one day contributes. *)
Lemma dayEvent_cases
  (addDays : Z -> Z -> Z) (timeZone : string)
  (getSunriseSunset : Z -> Q -> Q -> option Muhurta.SunTimes)
  (currentDate : Z) (lat lon : Q) (title : string) (reminder i : Z) :
  match Muhurta.dayEvent addDays timeZone getSunriseSunset
          currentDate lat lon title reminder i with
  | Some ev =>
      In title cardTitles /\
      getSunriseSunset (addDays currentDate i) lat lon <> None /\
      Muhurta.ev_title ev = (title ++ " - Stars App")%string /\
      Muhurta.ev_reminderMinutes ev = reminder /\
      Muhurta.ev_description ev <> ""%string /\
      ((title = "Sunrise"%string \/ title = "Sunset"%string) /\
       (Muhurta.ev_end ev - Muhurta.ev_start ev = ms_10min)%Z \/
       (title = "Brahma Muhurta"%string \/ title = "Pratah Sandhya"%string \/
        title = "Sayam Sandhya"%string) /\
       (Muhurta.ev_end ev - Muhurta.ev_start ev = ms_48min)%Z)
  | None =>
      ~ In title cardTitles \/
      getSunriseSunset (addDays currentDate i) lat lon = None
  end.
Proof.
  unfold Muhurta.dayEvent, Muhurta.computeMuhurta.
  destruct (getSunriseSunset (addDays currentDate i) lat lon) as [times|];
    [|right; reflexivity].
  set (t := {| Muhurta.sunrise := _; Muhurta.sunset := _; Muhurta.brahma := _;
               Muhurta.pratahSandhya := _; Muhurta.sayamSandhya := _;
               Muhurta.timezone := _ |}).
  destruct (pickTimes_cases title t) as [(Hin & s & e & -> & Hd) | (Hout & ->)].
  - cbn [Muhurta.ev_title Muhurta.ev_reminderMinutes Muhurta.ev_description
         Muhurta.ev_start Muhurta.ev_end].
    split; [exact Hin|]. split; [discriminate|]. split; [reflexivity|].
    split; [reflexivity|]. split; [discriminate|].
    destruct Hd as [Hd | [(Ht & -> & ->) | [(Ht & -> & ->) | (Ht & -> & ->)]]];
      [left; exact Hd | right; (split; [tauto | unfold ms_48min; cbn; lia]) ..].
  - left. exact Hout.
Qed.

(** X18.  The events of "Add to Calendar".  [generateCalendarFile]
    makes at most one event per requested day, none for a day without
    sunrise, and exactly one per day when every day has one and the title
    is one of the five card titles.  Every event carries the title with
    the suffix " - Stars App", the chosen reminder, a non-empty
    description; an event for Sunrise or Sunset lasts 10 minutes, an
    event for one of the three windows lasts 48 minutes. *)
Theorem calendarEvents_shape
  (addDays : Z -> Z -> Z) (timeZone : string)
  (getSunriseSunset : Z -> Q -> Q -> option Muhurta.SunTimes)
  (currentDate : Z) (lat lon : Q) (title : string) (days reminder : Z) :
  let events := Muhurta.calendarEvents addDays timeZone getSunriseSunset
                  currentDate lat lon title days reminder in
  (length events <= Z.to_nat days)%nat /\
  Forall (fun ev =>
            In title cardTitles /\
            Muhurta.ev_title ev = (title ++ " - Stars App")%string /\
            Muhurta.ev_reminderMinutes ev = reminder /\
            Muhurta.ev_description ev <> ""%string /\
            ((title = "Sunrise"%string \/ title = "Sunset"%string) /\
             (Muhurta.ev_end ev - Muhurta.ev_start ev = ms_10min)%Z \/
             (title = "Brahma Muhurta"%string \/ title = "Pratah Sandhya"%string \/
              title = "Sayam Sandhya"%string) /\
             (Muhurta.ev_end ev - Muhurta.ev_start ev = ms_48min)%Z)) events /\
  (In title cardTitles ->
   (forall i, (0 <= i < days)%Z ->
      getSunriseSunset (addDays currentDate i) lat lon <> None) ->
   length events = Z.to_nat days).
Proof.
  intros events. unfold events, Muhurta.calendarEvents.
  set (f := fun i : nat => Muhurta.dayEvent addDays timeZone getSunriseSunset
                             currentDate lat lon title reminder (Z.of_nat i)).
  assert (Hgen : forall l : list nat,
    (length (omap f l) <= length l)%nat /\
    Forall (fun ev =>
            In title cardTitles /\
            Muhurta.ev_title ev = (title ++ " - Stars App")%string /\
            Muhurta.ev_reminderMinutes ev = reminder /\
            Muhurta.ev_description ev <> ""%string /\
            ((title = "Sunrise"%string \/ title = "Sunset"%string) /\
             (Muhurta.ev_end ev - Muhurta.ev_start ev = ms_10min)%Z \/
             (title = "Brahma Muhurta"%string \/ title = "Pratah Sandhya"%string \/
              title = "Sayam Sandhya"%string) /\
             (Muhurta.ev_end ev - Muhurta.ev_start ev = ms_48min)%Z)) (omap f l) /\
    (In title cardTitles ->
     (forall i, In i l ->
        getSunriseSunset (addDays currentDate (Z.of_nat i)) lat lon <> None) ->
     length (omap f l) = length l)).
  { induction l as [|i l (IH1 & IH2 & IH3)].
    - cbn. split; [lia|]. split; [constructor | reflexivity].
    - cbn [omap list_omap].
      pose proof (dayEvent_cases addDays timeZone getSunriseSunset
                    currentDate lat lon title reminder (Z.of_nat i)) as C.
      fold (f i) in C. destruct (f i) as [ev|].
      + destruct C as (C1 & C2 & C3 & C4 & C5 & C6).
        split; [cbn [length]; lia|]. split.
        * constructor; [repeat split; assumption | exact IH2].
        * intros Hin Hall. cbn [length]. f_equal. apply IH3; [exact Hin|].
          intros j Hj. apply Hall. right. exact Hj.
      + split; [cbn [length]; lia|]. split; [exact IH2|].
        intros Hin Hall. exfalso. destruct C as [C | C]; [exact (C Hin)|].
        exact (Hall i (or_introl eq_refl) C). }
  destruct (Hgen (seq 0 (Z.to_nat days))) as (G1 & G2 & G3).
  rewrite length_seq in G1, G3.
  split; [exact G1|]. split; [exact G2|].
  intros Hin Hall. apply G3; [exact Hin|].
  intros i Hi. apply in_seq in Hi. apply Hall. lia.
Qed.

Lemma calendarEvents_shape_witness :
  let addDays := fun b i : Z => (b + i * 86400000)%Z in
  let gss := fun (d : Z) (la lo : Q) =>
    Some (Muhurta.mkSunTimes (d + 21600000) (d + 64800000) (d + 43200000)) in
  let events := Muhurta.calendarEvents addDays "Asia/Kolkata" gss
                  0%Z (2381 # 100) (8647 # 100) "Brahma Muhurta" 7%Z 5%Z in
  length events = Z.to_nat 7 /\
  Forall (fun ev => (Muhurta.ev_end ev - Muhurta.ev_start ev = ms_48min)%Z) events.
Proof.
  intros addDays gss events.
  destruct (calendarEvents_shape addDays "Asia/Kolkata" gss
              0%Z (2381 # 100) (8647 # 100) "Brahma Muhurta" 7%Z 5%Z)
    as (_ & Hall & Hlen).
  split.
  - apply Hlen; [cbn; tauto | intros i _; discriminate].
  - refine (List.Forall_impl _ _ Hall).
    intros ev (_ & _ & _ & _ & [([E | E] & _) | (_ & D)]);
      [discriminate E | discriminate E | exact D].
Defined.

(** X19.  An export can be empty without any error being reported.
    If the title is not one of the five card titles, or no day is
    requested, or none of the requested days has a sunrise (polar day or
    night), [generateCalendarFile] still produces a file: the calendar
    with no event. *)
Theorem empty_export
  (localTime : Z -> Muhurta.LocalTime) (addDays : Z -> Z -> Z)
  (clock dateNow : nat -> Z) (random36 : nat -> string) (timeZone : string)
  (getSunriseSunset : Z -> Q -> Q -> option Muhurta.SunTimes)
  (currentDate : Z) (lat lon : Q) (title : string) (days reminder : Z) :
  ~ In title cardTitles \/ (days <= 0)%Z \/
  (forall i, (0 <= i < days)%Z ->
     getSunriseSunset (addDays currentDate i) lat lon = None) ->
  Muhurta.generateCalendarFile localTime addDays clock dateNow random36 timeZone
    getSunriseSunset currentDate lat lon title days reminder
  = emptyCalendar.
Proof.
  intros H. unfold Muhurta.generateCalendarFile.
  assert (E : Muhurta.calendarEvents addDays timeZone getSunriseSunset
                currentDate lat lon title days reminder = []).
  { unfold Muhurta.calendarEvents.
    assert (Hgen : forall l : list nat,
      (forall i, In i l ->
         ~ In title cardTitles \/
         getSunriseSunset (addDays currentDate (Z.of_nat i)) lat lon = None) ->
      omap (fun i : nat => Muhurta.dayEvent addDays timeZone getSunriseSunset
              currentDate lat lon title reminder (Z.of_nat i)) l = []).
    { induction l as [|i l IH]; intros Hl; [reflexivity|].
      cbn [omap list_omap].
      pose proof (dayEvent_cases addDays timeZone getSunriseSunset
                    currentDate lat lon title reminder (Z.of_nat i)) as C.
      destruct (Muhurta.dayEvent _ _ _ _ _ _ _ _ _) as [ev|].
      - exfalso. destruct C as (C1 & C2 & _).
        destruct (Hl i (or_introl eq_refl)) as [N | N]; [exact (N C1) | exact (C2 N)].
      - apply IH. intros j Hj. apply Hl. right. exact Hj. }
    apply Hgen. intros i Hi. apply in_seq in Hi.
    destruct H as [H | [H | H]]; [left; exact H | lia | right; apply H; lia]. }
  rewrite E. reflexivity.
Qed.

Lemma empty_export_witness :
  Muhurta.generateCalendarFile
    (fun _ => Muhurta.mkLocalTime 2025 5 21 12 0 0) (fun b i => (b + i)%Z)
    (fun _ => 0%Z) (fun _ => 0%Z) (fun _ => "x"%string) "Arctic/Longyearbyen"
    (fun _ _ _ => None) 0%Z 78 15 "Sunrise" 30%Z 0%Z
  = emptyCalendar.
Proof.
  apply empty_export. right. right. intros i _. reflexivity.
Defined.

(* --------------------------------------------------------------------- *)
(** *** The alarm link *)
(* --------------------------------------------------------------------- *)

Lemma count_char_app (c : ascii) (a b : string) :
  count_char c (a ++ b) = (count_char c a + count_char c b)%nat.
Proof.
  induction a as [|x a IH]; [reflexivity|].
  change (((if Ascii.eqb c x then 1 else 0) + count_char c (a ++ b))%nat
          = ((if Ascii.eqb c x then 1 else 0) + count_char c a + count_char c b)%nat).
  rewrite IH. lia.
Qed.

Lemma uint_no_separator (c : ascii) (d : Decimal.uint) :
  is_separator c -> count_char c (NilEmpty.string_of_uint d) = 0%nat.
Proof.
  intros [-> | [-> | ->]]; induction d; cbn; try reflexivity; exact IHd.
Qed.

Lemma numberToString_no_separator (c : ascii) (n : Z) :
  is_separator c -> count_char c (JsText.numberToString n) = 0%nat.
Proof.
  intros Hc.
  assert (Hd : forall z, count_char c (digits z) = 0%nat).
  { intros z. unfold digits, NilZero.string_of_uint.
    destruct (N.to_uint (Z.to_N z)) eqn:E;
      try (rewrite <- E; apply uint_no_separator; exact Hc).
    destruct Hc as [-> | [-> | ->]]; reflexivity. }
  unfold JsText.numberToString. destruct (n <? 0)%Z; [|apply Hd].
  rewrite count_char_app, Hd. destruct Hc as [-> | [-> | ->]]; reflexivity.
Qed.

Lemma encode_cons (x : ascii) (rest : string) :
  JsText.encodeURIComponent (String x rest)
  = (JsText.encodeURIComponent (String x "") ++ JsText.encodeURIComponent rest)%string.
Proof. cbn [JsText.encodeURIComponent]. destruct (JsText.unreserved x); reflexivity. Qed.

Lemma encode_byte_no_separator (c x : ascii) :
  is_separator c -> count_char c (JsText.encodeURIComponent (String x "")) = 0%nat.
Proof.
  intros [-> | [-> | ->]];
    destruct x as [[] [] [] [] [] [] [] []]; reflexivity.
Qed.

Lemma encode_no_separator (c : ascii) (s : string) :
  is_separator c -> count_char c (JsText.encodeURIComponent s) = 0%nat.
Proof.
  intros Hc. induction s as [|x s IH]; [reflexivity|].
  rewrite encode_cons, count_char_app, IH, (encode_byte_no_separator c x Hc).
  reflexivity.
Qed.

(** X20.  [openAndroidAlarm] does nothing and returns [false] unless
    the user agent matches [/Android/i], that is unless
    [getPlatformInfo] says "Android".  On Android it returns [true] and
    the address it opens has a fixed shape whatever the title contains:
    exactly five [;], one [#] and four [=], because the title passes
    through [encodeURIComponent] and can add none of them. *)
Theorem openAndroidAlarm_address
  (userAgent : string) (hour minute : Z) (title : option string) :
  let r := Muhurta.openAndroidAlarm userAgent hour minute title in
  (fst r = true <-> Muhurta.getPlatformInfo userAgent = "Android"%string) /\
  (fst r = false -> snd r = None) /\
  (fst r = true ->
   exists uri, snd r = Some uri /\
     count_char ";" uri = 5%nat /\ count_char "#" uri = 1%nat /\
     count_char "=" uri = 4%nat).
Proof.
  unfold Muhurta.openAndroidAlarm, Muhurta.getPlatformInfo.
  destruct (Muhurta.isAndroid userAgent) eqn:Ha; cbn [negb fst snd].
  - split; [split; reflexivity|]. split; [discriminate|]. intros _.
    eexists. split; [reflexivity|].
    set (t := match title with Some t => t | None => "Muhurta"%string end).
    rewrite !count_char_app.
    rewrite !(numberToString_no_separator ";"%char) by (left; reflexivity).
    rewrite !(numberToString_no_separator "#"%char) by (right; left; reflexivity).
    rewrite !(numberToString_no_separator "="%char) by (right; right; reflexivity).
    rewrite (encode_no_separator ";"%char) by (left; reflexivity).
    rewrite (encode_no_separator "#"%char) by (right; left; reflexivity).
    rewrite (encode_no_separator "="%char) by (right; right; reflexivity).
    repeat split; reflexivity.
  - split; [|split; [reflexivity | discriminate]].
    split; [discriminate|].
    destruct (JsText.test_ci "iPhone" userAgent || JsText.test_ci "iPad" userAgent
              || JsText.test_ci "iPod" userAgent); discriminate.
Qed.

Lemma openAndroidAlarm_address_witness :
  let r := Muhurta.openAndroidAlarm "Mozilla/5.0 (Linux; Android 13)" 5 12
             (Some "a;b=c#d"%string) in
  exists uri, snd r = Some uri /\
     count_char ";" uri = 5%nat /\ count_char "#" uri = 1%nat /\
     count_char "=" uri = 4%nat.
Proof.
  intros r.
  apply (openAndroidAlarm_address "Mozilla/5.0 (Linux; Android 13)" 5 12
           (Some "a;b=c#d"%string)).
  reflexivity.
Defined.

(* --------------------------------------------------------------------- *)
(** *** The first main.js against sensor.js *)
(* --------------------------------------------------------------------- *)

Lemma handlers_mirror (s : Sensor.SensorManager) (m : Main.SensorManager) (e : Event.t) :
  complete e -> mirror_state s m ->
  mirror_state (fst (Sensor.handleOrientation s e)) (fst (Main.handleOrientation m e)).
Proof.
  intros (Ha & Hb & Hg) (Eh & Ep & Eo & Epo & Ea).
  destruct (Event.alpha e) as [a|] eqn:Ea'; [|congruence].
  destruct (Event.beta e) as [b|] eqn:Eb'; [|congruence].
  destruct (Event.gamma e) as [g|] eqn:Eg'; [|congruence].
  unfold Sensor.handleOrientation, Main.handleOrientation, mirror_state.
  rewrite Ea', Eb', Eg'.
  cbn [fst Sensor.heading Sensor.pitch Sensor.calibrationOffset Sensor.pitchOffset
       Sensor.smoothing Main.heading Main.pitch Main.calibrationOffset
       Main.alpha ToNumber].
  unfold Sensor.smoothAngle, Sensor.calibratedHeading, Sensor.rawHeading,
    Sensor.rawPitch, Main.rawPitch.
  repeat split; try assumption.
  - destruct (Event.absolute e || String.eqb (Event.type e) "deviceorientationabsolute");
      rewrite Eh, Eo, Ea; reflexivity.
  - rewrite Ep, Epo, Ea. ring.
Qed.

(** X21.  The first main.js and sensor.js differ by the sign of the
    pitch and by nothing else.  With no pitch offset, from states with
    equal headings and opposite pitches, any stream of events without a
    [null] angle leaves the two managers with equal headings and opposite
    pitches: what one reports as [p] degrees above the horizon the other
    reports as [p] degrees below. *)
Theorem main_is_sensor_mirrored
  (s : Sensor.SensorManager) (m : Main.SensorManager) (events : list Event.t) :
  Forall complete events -> mirror_state s m ->
  mirror_state (Sensor.run events s) (Main.run events m).
Proof.
  intros Hall. revert s m.
  induction Hall as [|e events He Hall IH]; intros s m H0; [exact H0|].
  cbn [Sensor.run Main.run fold_left]. apply IH.
  apply handlers_mirror; assumption.
Qed.

Lemma main_is_sensor_mirrored_witness :
  let e := Event.mk (Some 300) (Some 120) (Some 0) true "deviceorientationabsolute" None in
  mirror_state (Sensor.run [e; e] (Sensor.constructor ∅))
               (Main.run [e; e] (Main.constructor ∅)).
Proof.
  intros e. apply (main_is_sensor_mirrored _ _ [e; e]).
  - repeat constructor; discriminate.
  - unfold mirror_state. cbn. repeat split; reflexivity.
Defined.

(* --------------------------------------------------------------------- *)
(** *** Printed magnitudes *)
(* --------------------------------------------------------------------- *)

Lemma uint_no_minus (d : Decimal.uint) :
  count_char "-" (NilEmpty.string_of_uint d) = 0%nat.
Proof. induction d; cbn; try reflexivity; exact IHd. Qed.

Lemma digits_no_minus (z : Z) : count_char "-" (digits z) = 0%nat.
Proof.
  unfold digits, NilZero.string_of_uint.
  destruct (N.to_uint (Z.to_N z)) eqn:E;
    try (rewrite <- E; apply uint_no_minus). reflexivity.
Qed.

Lemma formatDeg_no_minus (x : Q) : 0 <= x -> count_char "-" (formatDeg x) = 0%nat.
Proof.
  intros Hx. unfold formatDeg, toFixed1.
  assert (L : Qltb x 0 = false).
  { apply not_true_is_false. intros H. apply Qltb_lt in H. lra. }
  rewrite L, !count_char_app, !digits_no_minus. reflexivity.
Qed.

(** X22.  The guidance never prints a minus sign: whatever the
    differences are, the turn and tilt messages carry the magnitude of
    the correction and give its direction in words. *)
Theorem guidance_is_unsigned (azDiff altDiff : Q) :
  count_char "-" (Main.turnText azDiff) = 0%nat /\
  count_char "-" (Main.tiltText altDiff) = 0%nat.
Proof.
  split.
  - destruct (turnText_cases azDiff) as [(_ & ->) | [(_ & H & ->) | (_ & _ & ->)]];
      [reflexivity | |]; rewrite count_char_app, formatDeg_no_minus;
      [reflexivity | lra | reflexivity | apply Qabs_nonneg].
  - destruct (tiltText_cases altDiff) as [(_ & ->) | [(_ & H & ->) | (_ & _ & ->)]];
      [reflexivity | |]; rewrite count_char_app, formatDeg_no_minus;
      [reflexivity | lra | reflexivity | apply Qabs_nonneg].
Qed.

(* --------------------------------------------------------------------- *)
(** *** The intent addresses of alarm.js *)
(* --------------------------------------------------------------------- *)

Ltac count_separators :=
  rewrite ?count_char_app;
  rewrite ?(numberToString_no_separator ";"%char) by (left; reflexivity);
  rewrite ?(numberToString_no_separator "#"%char) by (right; left; reflexivity);
  rewrite ?(numberToString_no_separator "="%char) by (right; right; reflexivity);
  rewrite ?(encode_no_separator ";"%char) by (left; reflexivity);
  rewrite ?(encode_no_separator "#"%char) by (right; left; reflexivity);
  rewrite ?(encode_no_separator "="%char) by (right; right; reflexivity);
  reflexivity.

(** X23.  The three addresses built in alarm.js have a fixed number
    of fields whatever texts and numbers they are given: the message,
    title and description are percent-encoded and add no [;], [#] or [=]. *)
Theorem alarm_addresses_fixed_shape
  (hour minute seconds startTime endTime : Z) (message title description : string) :
  let alarm := Alarm.setAndroidAlarm hour minute message in
  let timer := Alarm.setAndroidTimer seconds message in
  let event := Alarm.openCalendarEvent title description startTime endTime in
  (count_char ";" alarm = 6 /\ count_char "#" alarm = 1 /\ count_char "=" alarm = 5)%nat /\
  (count_char ";" timer = 5 /\ count_char "#" timer = 1 /\ count_char "=" timer = 4)%nat /\
  (count_char ";" event = 7 /\ count_char "#" event = 1 /\ count_char "=" event = 6)%nat.
Proof.
  unfold Alarm.setAndroidAlarm, Alarm.setAndroidTimer, Alarm.openCalendarEvent.
  cbn zeta. repeat split; count_separators.
Qed.

(* --------------------------------------------------------------------- *)
(** *** The cards and what their buttons do *)
(* --------------------------------------------------------------------- *)

(** X24.  What a card shows is what its buttons use.  When [render]
    lists cards, their titles are the five card titles in order; for
    every card, confirming "Add to Calendar" for at least one day exports
    a first event that starts at the card's own time (and ends at the
    card's end time, for a range card), provided adding zero days to the
    current date gives the current date; and the alarm button shows the
    alert exactly when the card is marked 'not-android'. *)
Theorem cards_match_buttons
  (formatTime : Z -> string) (localTime : Z -> Muhurta.LocalTime)
  (addDays : Z -> Z -> Z) (timeZone : string)
  (getSunriseSunset : Z -> Q -> Q -> option Muhurta.SunTimes) (userAgent : string)
  (this : MuhurtaScreen.t) (diag : string) (cards : list MuhurtaScreen.Card)
  (card : MuhurtaScreen.Card) (days reminder : Z) :
  MuhurtaScreen.render formatTime timeZone getSunriseSunset userAgent this
    = MuhurtaScreen.Listing diag cards ->
  In card cards ->
  addDays (MuhurtaScreen.currentDate this) 0%Z = MuhurtaScreen.currentDate this ->
  (1 <= days)%Z ->
  List.map MuhurtaScreen.card_title cards = cardTitles /\
  (exists la lo ev rest,
     MuhurtaScreen.lat this = Some la /\ MuhurtaScreen.lon this = Some lo /\
     MuhurtaScreen.calendarClick addDays timeZone getSunriseSunset
       this la lo card days reminder = ev :: rest /\
     Muhurta.ev_start ev = MuhurtaScreen.card_start card /\
     (forall e, MuhurtaScreen.card_end card = Some e -> Muhurta.ev_end ev = e)) /\
  snd (MuhurtaScreen.alarmClick localTime userAgent card)
    = MuhurtaScreen.card_notAndroid card.
Proof.
  intros Hr Hin H0 Hd. unfold MuhurtaScreen.render in Hr.
  destruct (MuhurtaScreen.lat this) as [la|] eqn:Ela; [|discriminate Hr].
  destruct (Muhurta.computeMuhurta timeZone getSunriseSunset
              (MuhurtaScreen.currentDate this) la
              (ToNumber (MuhurtaScreen.lon this))) as [msg|t] eqn:Ec;
    [discriminate Hr|].
  destruct (MuhurtaScreen.lon this) as [lo|] eqn:Elo; [|discriminate Hr].
  injection Hr as _ Hcards. subst cards. cbn [ToNumber] in Ec.
  split; [reflexivity|]. split.
  - exists la, lo.
    unfold MuhurtaScreen.calendarClick, Muhurta.calendarEvents.
    destruct (Z.to_nat days) as [|k] eqn:Ek; [lia|].
    cbn [seq omap list_omap]. unfold Muhurta.dayEvent at 1.
    change (Z.of_nat 0) with 0%Z. rewrite H0, Ec.
    destruct Hin as [<- | [<- | [<- | [<- | [<- | []]]]]];
      cbn [MuhurtaScreen.card_title MuhurtaScreen.renderCard
           MuhurtaScreen.renderRangeCard];
      (eexists _, _; split; [reflexivity|]; split; [reflexivity|];
       split; [reflexivity|]; split; [reflexivity|];
       intros e He;
       cbn [MuhurtaScreen.card_end MuhurtaScreen.renderCard
            MuhurtaScreen.renderRangeCard] in He;
       first [discriminate He | injection He as <-; reflexivity]).
  - unfold MuhurtaScreen.alarmClick, Muhurta.openAndroidAlarm.
    assert (Hp : String.eqb (Muhurta.getPlatformInfo userAgent) "Android"
                 = Muhurta.isAndroid userAgent).
    { unfold Muhurta.getPlatformInfo. destruct (Muhurta.isAndroid userAgent);
        [reflexivity|].
      destruct (JsText.test_ci "iPhone" userAgent || JsText.test_ci "iPad" userAgent
                || JsText.test_ci "iPod" userAgent); reflexivity. }
    destruct Hin as [<- | [<- | [<- | [<- | [<- | []]]]]];
      cbn [MuhurtaScreen.card_notAndroid MuhurtaScreen.renderCard
           MuhurtaScreen.renderRangeCard];
      rewrite Hp; destruct (Muhurta.isAndroid userAgent); reflexivity.
Qed.

Lemma cards_match_buttons_witness :
  let formatTime := fun _ : Z => "06:00"%string in
  let localTime := fun _ : Z => Muhurta.mkLocalTime 2025 0 5 6 0 0 in
  let addDays := fun b i : Z => (b + i * 86400000)%Z in
  let gss := fun (d : Z) (la lo : Q) =>
    Some (Muhurta.mkSunTimes (d + 21600000) (d + 64800000) (d + 43200000)) in
  let ua := "Mozilla/5.0 (Linux; Android 13)"%string in
  let this := MuhurtaScreen.mk 0 (Some (2381 # 100)) (Some (8647 # 100)) in
  let view := MuhurtaScreen.render formatTime "Asia/Kolkata" gss ua this in
  let diag := match view with MuhurtaScreen.Listing d _ => d | _ => ""%string end in
  let cards := match view with MuhurtaScreen.Listing _ cs => cs | _ => [] end in
  let card := MuhurtaScreen.renderRangeCard formatTime ua "Brahma Muhurta" "🧘"
                (21600000 - 96 * 60000) (21600000 - 48 * 60000) in
  List.map MuhurtaScreen.card_title cards = cardTitles /\
  (exists la lo ev rest,
     MuhurtaScreen.lat this = Some la /\ MuhurtaScreen.lon this = Some lo /\
     MuhurtaScreen.calendarClick addDays "Asia/Kolkata" gss
       this la lo card 7 5 = ev :: rest /\
     Muhurta.ev_start ev = MuhurtaScreen.card_start card /\
     (forall e, MuhurtaScreen.card_end card = Some e -> Muhurta.ev_end ev = e)) /\
  snd (MuhurtaScreen.alarmClick localTime ua card)
    = MuhurtaScreen.card_notAndroid card.
Proof.
  intros formatTime localTime addDays gss ua this view diag cards card.
  apply (cards_match_buttons formatTime localTime addDays "Asia/Kolkata" gss ua
           this diag cards card 7%Z 5%Z).
  - reflexivity.
  - right. right. left. reflexivity.
  - reflexivity.
  - lia.
Defined.

(* --------------------------------------------------------------------- *)
(** *** Calibrating twice *)
(* --------------------------------------------------------------------- *)

(** X25.  Calibration is not idempotent, because it reads the stored
    (still uncorrected) state.  A second [setCalibration] with no sample
    in between returns the same heading offset only if the stored heading
    is 0; otherwise the offset moves again.  A second
    [setPitchCalibration] subtracts the stored pitch a second time. *)
Theorem calibrating_twice (this : Sensor.SensorManager) (localStorage : Storage) :
  0 <= Sensor.heading this < 360 ->
  -360 <= Sensor.calibrationOffset this <= 360 ->
  let once := Sensor.setCalibration this localStorage in
  let twice := Sensor.setCalibration (fst (fst once)) (snd (fst once)) in
  let p1 := Sensor.setPitchCalibration this localStorage in
  let p2 := Sensor.setPitchCalibration (fst (fst p1)) (snd (fst p1)) in
  (snd twice == snd once <-> Sensor.heading this == 0) /\
  snd p2 == Sensor.pitchOffset this - 2 * Sensor.pitch this.
Proof.
  intros [Hh0 Hh1] [Ho0 Ho1] once twice p1 p2.
  unfold twice, once, p2, p1, Sensor.setCalibration, Sensor.setPitchCalibration,
    Sensor.currentRaw.
  cbn [fst snd Sensor.heading Sensor.pitch Sensor.calibrationOffset Sensor.pitchOffset].
  split; [|ring].
  set (h := Sensor.heading this) in *. set (o := Sensor.calibrationOffset this) in *.
  assert (Hx : 0 <= h - o + 360) by lra.
  destruct (js_mod_range _ 360 Hx eq_refl) as [R0 R1].
  set (raw := js_mod (h - o + 360) 360) in *.
  assert (Hy : 0 <= h - - raw + 360) by lra.
  destruct (js_mod_range _ 360 Hy eq_refl) as [S0 S1].
  split.
  - intros E.
    assert (E' : js_mod (h - - raw + 360) 360 == raw) by lra.
    unfold js_mod in E'.
    set (q := Qtrunc ((h - - raw + 360) / 360)) in *.
    apply (turns_unique h 0 (q + (-1))%Z); [|lra|lra].
    rewrite inject_Z_plus. change (inject_Z (-1)) with (-1). lra.
  - intros E.
    assert (E' : js_mod (h - - raw + 360) 360 == raw).
    { apply (js_mod_360_unique _ _ 1%Z); [lra | split; lra |].
      change (inject_Z 1) with 1. lra. }
    lra.
Qed.

Lemma calibrating_twice_witness :
  let this := Sensor.mk 100 30 0 0 0 0 0 (85 # 100) in
  let once := Sensor.setCalibration this ∅ in
  let twice := Sensor.setCalibration (fst (fst once)) (snd (fst once)) in
  let p1 := Sensor.setPitchCalibration this ∅ in
  let p2 := Sensor.setPitchCalibration (fst (fst p1)) (snd (fst p1)) in
  (snd twice == snd once <-> Sensor.heading this == 0) /\
  snd p2 == Sensor.pitchOffset this - 2 * Sensor.pitch this.
Proof.
  intros this.
  apply (calibrating_twice this ∅); split; first [discriminate | reflexivity].
Defined.

(** With heading 100 and no offset, the first call stores -100 and an
    immediate second call stores -200. *)
Example calibrating_twice_drifts :
  let this := Sensor.mk 100 30 0 0 0 0 0 (85 # 100) in
  let once := Sensor.setCalibration this ∅ in
  let twice := Sensor.setCalibration (fst (fst once)) (snd (fst once)) in
  snd once == -100 /\ snd twice == -200.
Proof. vm_compute. split; reflexivity. Qed.
